(* ===== verification/_CoqProject ===== *)
-Q . S2P
Prelude.v
Json.v
Player.v
Recap.v
View.v
Session.v
PlayerSpec.v
Animation.v
Upload.v
Thumbs.v
Layout.v
Progress.v
Route.v
App.v
