(* ===== verification/Prelude.v ===== *)
(** * Lumi: a verification development of the slideshow app

    Lumi (repository dbhag/lumi) is a three-screen React Native app:
    - [src/index.tsx] ([HomeScreen]): a landing screen whose one button
      pushes the upload route;
    - [src/upload.tsx] ([UploadPhotosScreen]): picks photos from the media
      library, keeps a caption, calls the external [analyzeRecap] service and
      pushes the slideshow route with the ordered slides and the narrative
      metadata serialised as route parameters;
    - [src/slideshow.tsx] ([SlideshowScreen]): decodes the parameters and
      plays the slides back: an intro card, an auto-advancing slideshow
      driven by a [setInterval] timer, manual navigation by tap zones, a
      play/pause button, and an outro card.

    The core is the player of [src/slideshow.tsx]: four pieces of React
    state ([currentIndex], [isPlaying], [showIntro], [showOutro]), five
    handlers ([goNext], [goPrev], [handleStartRecap], [handleReplay], the
    header button's [onPress]) and one effect that arms the interval timer.

    ** Files, in dependency order
    - [Prelude.v] (this file): the [lumi_scope] pipeline notation
      [s |> f] used to write a handler's setter calls in source order,
      React's [SetStateAction] (a value or an updater), the [lumi] and
      [lumi_str] hint databases, the [eqb_cases] tactic, [rtc_preserved]
      (invariants of a step relation by rule induction) and string lemmas.
    - [Json.v], [Module Json]: [JSON.stringify] and [JSON.parse], the
      ECMAScript built-ins the route parameters go through, on a [JValue]
      of integers, strings, arrays and objects.  [parse] is a recursive
      descent parser with fuel [S (length text)]: the termination theorem
      [parse_value_fuel] shows that from this fuel on the result no longer
      depends on the fuel (every call consumes input; a value needs no
      more fuel than its characters), and the round trip
      [parse (stringify v ++ ws) = Some v] is proved by induction on
      nested values ([JValue_nested_ind]).
    - [Player.v], [Module Player]: the player state [PState] (the four
      [useState] hooks of slideshow.tsx, lines 53-56), the setters, and
      [goNext], [goPrev], [handleShare], [handleStartRecap],
      [handleReplay], the header button's [onPress] ([headerPress]) and
      the interval callback, each the setter calls of its source in
      order; lemmas for every branch, the index-bound invariant.
    - [Recap.v], [Module Recap]: the decoded screen values [Props]
      (lines 42-51) and the derived values of lines 146-183 and 211-212:
      highlight test, progress ratio (as an exact rational [Q]), scene
      indices and type, emotion capitalisation, vibe accent.
    - [View.v], [Module View]: the rendered screen (lines 185-447) as a
      view model: header texts, the slide frame ([None] where
      [slides[currentIndex].uri] throws), the cards, progress, and the
      touchables a user can reach (cards cover the tap zones), with the
      command each press issues ([router.back], share).
    - [Session.v], [Module Session]: a mounted slideshow under React's
      commit discipline: after each state change the timer effect's
      dependency list (line 101) decides whether the old interval is
      cleared and a new one armed; a millisecond clock; presses of
      reachable buttons and interval firings as a step function
      [step]; reachability as [rtc].  Invariants by rule induction
      (index in range, the timer armed exactly when the effect's guard
      holds), autoplay liveness, and the timer behaviour of manual
      navigation and of play/pause; [state_inv] as the type of the
      player's state, preserved by every operation.
    - [PlayerSpec.v], [Module PlayerSpec]: the spec's abstract player
      (section 4.1: phases Empty/Intro/Playing/Paused/Outro and their
      transitions) as an inductive step relation, and the refinement
      theorem: every step of a reachable session is an abstract step of
      its event, or a stutter.
    - [Animation.v], [Module Anim]: the image's two [Animated.Value]s
      (fade-in and zoom, lines 57-83) as timings with a library easing
      curve, restarted by [animateSlideIn] from the effect on the index
      and from Start/Replay; [astep] layers them over [Session.step].
      Bounds on the animated values, and the consequence of the timer's
      dependency list: a slide reached by a tap can be replaced before it
      has faded in.
    - [Upload.v], [Module Upload]: the upload screen: its state, the
      [pickImages] handler given the outcomes of its two modal awaits,
      [handleContinue] split at its [await] into the request and its
      settlement with the captured closure values, the render's enabled
      flags, and the screen's events as [ustep]; the in-flight request
      invariant, the settlement's effects, append-only selection.
    - [Thumbs.v], [Module Thumbs]: the upload screen's thumbnail row
      (upload.tsx lines 157-181) and its React keys [slide.uri + idx]:
      distinct whenever no uri ends in a digit, with a selection whose
      keys collide.
    - [Layout.v], [Module Layout]: the styles that place the layers of
      the slide frame (letterbox bars, container, top fade, tap zones,
      image, bottom overlay, card overlay; slideshow.tsx lines 496-555,
      661-669, 731-739) resolved to boxes, and the delivery of a touch to
      the topmost layer ([zIndex], then render order) as [hit]: the
      regions of the frame and what a touch there does (the letterbox
      bars take the top and bottom 18 px of the tap zones), and the
      refinement of [View.buttons] (a card covers the tap zones) by the
      layout.  [Module StyleArray]: React Native's flattening of a
      style array (falsy entries skipped, later entries override).
      [Module UploadLook]: the upload buttons' style arrays flattened,
      the Continue button dimmed exactly when disabled.
    - [Progress.v], [Module ProgressBar]: the progress bar (slideshow.tsx
      lines 416-427, styles 605-616) and the share button's colour: the
      fill's width, [progress * 100] percent of the track, followed
      through the steps of a [Session]: forward events never shrink it,
      it stays within the track, fills it exactly on the last slide, and
      is drawn in the vibe's accent (spec section 8).
    - [Route.v], [Module Route]: the pushed route parameters
      ([toRouteParams], upload.tsx lines 83-94) and their decoding
      ([decodeParams], slideshow.tsx lines 21-51) with the handoff
      theorem and the defaults of absent or empty parameters; the JSON
      object lookup agrees with the object [JSON.parse] builds (a
      [gmap]).  A text the parser does not read, or a value of another
      type than the code declares, is where the model stops following a
      deep link ([DecodeError]); no theorem reads it as a JS error.
    - [App.v], [Module Home]: the home tab's screen and [handlePress];
      [Module Nav]: the three screens on expo-router's stack, with the
      requests of unmounted upload screens still pending; the app-level
      invariants (no slideshow fails to decode or plays an empty recap,
      home stays at the bottom), what leaving the upload screen during
      analysis does, the return from the slideshow to the upload
      screen, and that every reachable state leads back home.  A
      slideshow covered by another screen stays mounted and its
      interval keeps firing ([CoveredFires]): two sessions can play at
      once.

    ** Bounds and fuel
    Indices and lengths are [nat]: they are small non-negative JS
    integers and no arithmetic on them overflows.  Highlights are [Z].
    The clock is a [nat] of milliseconds, unbounded.  The only fuel is
    that of [Json.parse]: one unit per character plus one, which
    [need_length] shows is enough for any text [stringify] writes and
    [parse_value_fuel] shows is enough for any text at all (no larger
    fuel changes the result).  Animated values are exact rationals [Q].
    Theorems about all reachable states are proved by rule induction, not
    by bounded exploration.

    ** Not modelled
    Styles that only colour or space the views (fonts, paddings,
    radii, the colours the code does not override, the margins other
    than the progress track's): they change no behaviour; the layout of
    the header, the footer and the cards' content (their buttons are
    hit through [View.buttons]); the container's rounded corners, which
    clip touches at the four corners of the frame; the easing curve
    of [Animated.timing] (a library function: a parameter with its
    range); [analyzeRecap] itself (lib/analyzeRecap, outside [src/]: its
    result type is modelled from spec section 4.2 and its outcome is an
    event); the image picker and the share sheet beyond their results;
    the software keyboard (the upload screen's [KeyboardAvoidingView]
    and [Keyboard.dismiss()] on every touch of its scroll view, lines
    128-139: platform behaviour with no effect on the state modelled);
    the [Stack.Screen] header options (titles and colours) and the
    back button's [hitSlop];
    JSON numbers other than integers and [\u] escapes above 0x7F
    (outside the parser's subset, which also reads a number with
    leading zeros that [JSON.parse] rejects: only [stringify]'s output
    is ever parsed in the app);
    the floating-point rounding of [progress * 100] and of its
    formatting as the percentage string of the fill's width (the model
    computes the exact rational).
*)

From stdpp Require Export base list relations.
From Stdlib Require Export Lia.
From Stdlib Require Import String.

(** ** Notation: a handler body as a pipeline of setter calls *)

Declare Scope lumi_scope.
Delimit Scope lumi_scope with lumi.

Notation "s |> f" := (f s)
  (at level 56, left associativity, only parsing) : lumi_scope.

Open Scope lumi_scope.

(** ** React's [SetStateAction<S>]: [S | ((prev: S) => S)] *)

Inductive SetStateAction (A : Type) :=
| Value (a : A)
| Updater (f : A -> A).
Arguments Value {A} a.
Arguments Updater {A} f.

(** What a [setState(action)] call does to the pending value. *)
Definition apply_action {A} (act : SetStateAction A) (prev : A) : A :=
  match act with
  | Value a => a
  | Updater f => f prev
  end.

Create HintDb lumi.

(** ** Reachability: invariants by rule induction on [rtc] *)

Section Reachability.
Context {A : Type} (R : relation A) (P : A -> Prop).

Lemma rtc_preserved x y :
  (forall a b, P a -> R a b -> P b) -> P x -> rtc R x y -> P y.
Proof. intros Hstep Hx Hr. induction Hr; eauto. Qed.
End Reachability.

(** ** Strings *)

Lemma str_app_assoc (a b c : string) : (a ++ b ++ c = (a ++ b) ++ c)%string.
Proof. induction a as [| x a IH]; simpl; [done | by rewrite IH]. Qed.

Lemma str_app_nil_l (a : string) : ("" ++ a = a)%string.
Proof. reflexivity. Qed.

Lemma str_cons_app c (a b : string) : (String c a ++ b = String c (a ++ b))%string.
Proof. reflexivity. Qed.

Lemma str_app_nil_r (a : string) : (a ++ "" = a)%string.
Proof. induction a as [| x a IH]; simpl; [done | by rewrite IH]. Qed.

Lemma str_length_app (a b : string) :
  String.length (a ++ b) = String.length a + String.length b.
Proof. induction a as [| x a IH]; simpl; [done | by rewrite IH]. Qed.

Create HintDb lumi_str.
#[export] Hint Rewrite <- str_app_assoc : lumi_str.
#[export] Hint Rewrite str_app_nil_l str_app_nil_r str_length_app : lumi_str.

(** ** Tactics *)

(** Case on every [Nat.eqb] test of the goal, turning it into [=]/[<>]. *)
Ltac eqb_cases :=
  repeat match goal with
  | |- context [Nat.eqb ?a ?b] => destruct (Nat.eqb_spec a b)
  | H : context [Nat.eqb ?a ?b] |- _ => destruct (Nat.eqb_spec a b)
  end.
