(* ===== verification/Json.v ===== *)
(** * JSON text: [JSON.stringify] and [JSON.parse]

    The route between the upload screen and the slideshow carries the
    slide list and the highlight list as JSON text: [JSON.stringify] in
    [src/upload.tsx] (lines 86 and 92) and [JSON.parse] in
    [src/slideshow.tsx] (lines 42 and 49-51).  Both are JavaScript
    built-ins, outside [src/]: [Module Json] models them from the JSON
    grammar and ECMAScript's serialisation rules, restricted to what the
    route carries.

    - [JValue]: null, booleans, integers (the only numbers the route
      carries: slide indices), strings, arrays, objects as their key/value
      list in insertion order.
    - [stringify]: ECMAScript's [SerializeJSONProperty] on those values,
      with [QuoteJSONString] for strings: a backslash before a double
      quote or a backslash, the short escapes b, t, n, f, r, and u00xx for
      the other control characters.
    - [parse]: a recursive-descent parser of the same grammar, with
      whitespace, all escapes with code points below 0x80, and fuel (the
      text's length is enough).  Fractions, exponents and [\u] escapes
      above 0x7F are outside the model ([None]), and a number with
      leading zeros, which [JSON.parse] rejects, is read: [None] means
      "outside the subset", not "[JSON.parse] throws".  The round trip
      [parse_stringify_ws] and the fuel lemma [parse_value_fuel] are
      facts of this model that [Route] builds on.

    Strings are byte strings holding UTF-8, so bytes above 0x7F are kept
    as they are by both directions. *)

From S2P Require Import Prelude.
From stdpp Require Import strings.
From Stdlib Require Import String Ascii ZArith DecimalString DecimalNat.

Module Json.

#[local] Open Scope nat_scope.

Inductive JValue :=
| JNull
| JBool (b : bool)
| JNum (n : Z)
| JStr (s : string)
| JArr (xs : list JValue)
| JObj (kvs : list (string * JValue)).

(** The characters JSON text is made of. *)
Definition dq : ascii := ascii_of_nat 34.
Definition bs : ascii := ascii_of_nat 92.

(** A one-character string. *)
Definition chr (c : ascii) : string := String c EmptyString.

Definition hex_digit (n : nat) : ascii :=
  ascii_of_nat (if n <? 10 then 48 + n else 87 + n).

(** [QuoteJSONString]'s escape of one character. *)
Definition escape_char (c : ascii) : string :=
  let n := nat_of_ascii c in
  if n =? 8 then String bs (chr "b")
  else if n =? 9 then String bs (chr "t")
  else if n =? 10 then String bs (chr "n")
  else if n =? 12 then String bs (chr "f")
  else if n =? 13 then String bs (chr "r")
  else if n =? 34 then String bs (chr dq)
  else if n =? 92 then String bs (chr bs)
  else if n <? 32 then
    String bs (String "u" (String "0" (String "0"
      (String (hex_digit (n / 16)) (chr (hex_digit (n mod 16)))))))
  else chr c.

Fixpoint escape (s : string) : string :=
  match s with
  | EmptyString => EmptyString
  | String c r => (escape_char c ++ escape r)%string
  end.

(** [QuoteJSONString]. *)
Definition quote (s : string) : string :=
  String dq (escape s ++ chr dq)%string.

(** A JS integer printed by [Number.prototype.toString]. *)
Definition print_int (z : Z) : string :=
  ((if (z <? 0)%Z then "-" else "") ++
   NilEmpty.string_of_uint (Nat.to_uint (Z.abs_nat z)))%string.

(** [JSON.stringify] on [JValue]. *)
Fixpoint stringify (v : JValue) : string :=
  match v with
  | JNull => "null"
  | JBool true => "true"
  | JBool false => "false"
  | JNum z => print_int z
  | JStr s => quote s
  | JArr xs =>
      ("[" ++ (fix go (xs : list JValue) : string :=
                 match xs with
                 | [] => ""
                 | x :: r => stringify x ++ (match r with [] => "" | _ => "," ++ go r end)
                 end) xs ++ "]")%string
  | JObj kvs =>
      ("{" ++ (fix go (kvs : list (string * JValue)) : string :=
                 match kvs with
                 | [] => ""
                 | (k, x) :: r =>
                     quote k ++ ":" ++ stringify x
                       ++ (match r with [] => "" | _ => "," ++ go r end)
                 end) kvs ++ "}")%string
  end.

(** ** [JSON.parse] *)

Definition is_ws (c : ascii) : bool :=
  let n := nat_of_ascii c in (n =? 32) || (n =? 9) || (n =? 10) || (n =? 13).

Fixpoint skip_ws (s : string) : string :=
  match s with
  | String c r => if is_ws c then skip_ws r else s
  | EmptyString => EmptyString
  end.

(** Consume the literal [lit] at the head of [s]. *)
Fixpoint expect (lit s : string) : option string :=
  match lit, s with
  | EmptyString, _ => Some s
  | String a l, String b s' => if Ascii.eqb a b then expect l s' else None
  | _, _ => None
  end.

Definition is_digit (c : ascii) : bool :=
  let n := nat_of_ascii c in (48 <=? n) && (n <=? 57).

Fixpoint span_digits (s : string) : string * string :=
  match s with
  | String c r => if is_digit c then let '(d, rest) := span_digits r in (String c d, rest)
                  else (EmptyString, s)
  | EmptyString => (EmptyString, EmptyString)
  end.

Fixpoint digits_value (acc : nat) (s : string) : nat :=
  match s with
  | EmptyString => acc
  | String c r => digits_value (acc * 10 + (nat_of_ascii c - 48)) r
  end.

Definition parse_nat (s : string) : option (nat * string) :=
  let '(ds, rest) := span_digits s in
  match ds with
  | EmptyString => None
  | _ => Some (digits_value 0 ds, rest)
  end.

(** An integer: an optional minus sign and digits. *)
Definition parse_int (s : string) : option (Z * string) :=
  match s with
  | String c r =>
      if Ascii.eqb c "-" then
        match parse_nat r with Some (n, rest) => Some ((- Z.of_nat n)%Z, rest) | None => None end
      else
        match parse_nat s with Some (n, rest) => Some (Z.of_nat n, rest) | None => None end
  | EmptyString => None
  end.

Definition hex_value (c : ascii) : option nat :=
  let n := nat_of_ascii c in
  if (48 <=? n) && (n <=? 57) then Some (n - 48)
  else if (97 <=? n) && (n <=? 102) then Some (n - 87)
  else if (65 <=? n) && (n <=? 70) then Some (n - 55)
  else None.

Definition hex4 (a b c d : ascii) : option nat :=
  match hex_value a, hex_value b, hex_value c, hex_value d with
  | Some x, Some y, Some z, Some w => Some (((x * 16 + y) * 16 + z) * 16 + w)
  | _, _, _, _ => None
  end.

(** The character a one-letter escape stands for. *)
Definition unescape (e : ascii) : option ascii :=
  let n := nat_of_ascii e in
  if n =? 98 then Some (ascii_of_nat 8)
  else if n =? 116 then Some (ascii_of_nat 9)
  else if n =? 110 then Some (ascii_of_nat 10)
  else if n =? 102 then Some (ascii_of_nat 12)
  else if n =? 114 then Some (ascii_of_nat 13)
  else if n =? 34 then Some dq
  else if n =? 92 then Some bs
  else if n =? 47 then Some "/"%char
  else None.

(** The body of a string literal, after its opening quote, up to and
    including its closing quote; raw control characters are refused. *)
Fixpoint parse_chars (s : string) : option (string * string) :=
  match s with
  | EmptyString => None
  | String c r =>
      if Ascii.eqb c dq then Some (EmptyString, r)
      else if Ascii.eqb c bs then
        match r with
        | String e r' =>
            if Ascii.eqb e "u" then
              match r' with
              | String h1 (String h2 (String h3 (String h4 r''))) =>
                  match hex4 h1 h2 h3 h4 with
                  | Some n =>
                      if n <? 128 then
                        match parse_chars r'' with
                        | Some (str, rest) => Some (String (ascii_of_nat n) str, rest)
                        | None => None
                        end
                      else None
                  | None => None
                  end
              | _ => None
              end
            else
              match unescape e with
              | Some k =>
                  match parse_chars r' with
                  | Some (str, rest) => Some (String k str, rest)
                  | None => None
                  end
              | None => None
              end
        | EmptyString => None
        end
      else if nat_of_ascii c <? 32 then None
      else
        match parse_chars r with
        | Some (str, rest) => Some (String c str, rest)
        | None => None
        end
  end.

Fixpoint parse_value (fuel : nat) (s : string) {struct fuel} : option (JValue * string) :=
  match fuel with
  | 0 => None
  | S f =>
      match skip_ws s with
      | EmptyString => None
      | String c r =>
          if Ascii.eqb c "n" then option_map (fun rest => (JNull, rest)) (expect "ull" r)
          else if Ascii.eqb c "t" then option_map (fun rest => (JBool true, rest)) (expect "rue" r)
          else if Ascii.eqb c "f" then option_map (fun rest => (JBool false, rest)) (expect "alse" r)
          else if Ascii.eqb c dq then
            match parse_chars r with Some (str, rest) => Some (JStr str, rest) | None => None end
          else if Ascii.eqb c "[" then
            match expect "]" (skip_ws r) with
            | Some rest => Some (JArr [], rest)
            | None => match parse_elements f r with
                      | Some (xs, rest) => Some (JArr xs, rest)
                      | None => None
                      end
            end
          else if Ascii.eqb c "{" then
            match expect "}" (skip_ws r) with
            | Some rest => Some (JObj [], rest)
            | None => match parse_members f r with
                      | Some (kvs, rest) => Some (JObj kvs, rest)
                      | None => None
                      end
            end
          else match parse_int (String c r) with
               | Some (z, rest) => Some (JNum z, rest)
               | None => None
               end
      end
  end
with parse_elements (fuel : nat) (s : string) {struct fuel} : option (list JValue * string) :=
  match fuel with
  | 0 => None
  | S f =>
      match parse_value f s with
      | None => None
      | Some (v, s1) =>
          match skip_ws s1 with
          | String c s2 =>
              if Ascii.eqb c "," then
                match parse_elements f s2 with
                | Some (vs, rest) => Some (v :: vs, rest)
                | None => None
                end
              else if Ascii.eqb c "]" then Some ([v], s2)
              else None
          | EmptyString => None
          end
      end
  end
with parse_members (fuel : nat) (s : string) {struct fuel}
  : option (list (string * JValue) * string) :=
  match fuel with
  | 0 => None
  | S f =>
      match skip_ws s with
      | String c r =>
          if Ascii.eqb c dq then
            match parse_chars r with
            | Some (k, s1) =>
                match expect ":" (skip_ws s1) with
                | Some s2 =>
                    match parse_value f s2 with
                    | Some (v, s3) =>
                        match skip_ws s3 with
                        | String c' s4 =>
                            if Ascii.eqb c' "," then
                              match parse_members f s4 with
                              | Some (kvs, rest) => Some ((k, v) :: kvs, rest)
                              | None => None
                              end
                            else if Ascii.eqb c' "}" then Some ([(k, v)], s4)
                            else None
                        | EmptyString => None
                        end
                    | None => None
                    end
                | None => None
                end
            | None => None
            end
          else None
      | EmptyString => None
      end
  end.

(** [JSON.parse]: one value, surrounded by whitespace only; [None] is
    the [SyntaxError] it throws. *)
Definition parse (s : string) : option JValue :=
  match parse_value (S (String.length s)) s with
  | Some (v, rest) => if String.eqb (skip_ws rest) "" then Some v else None
  | None => None
  end.

(** The element and member lists of [stringify], named. *)
Fixpoint stringify_elems (xs : list JValue) : string :=
  match xs with
  | [] => ""
  | x :: r => (stringify x ++ (match r with [] => "" | _ => "," ++ stringify_elems r end))%string
  end.

Fixpoint stringify_members (kvs : list (string * JValue)) : string :=
  match kvs with
  | [] => ""
  | (k, x) :: r =>
      (quote k ++ ":" ++ stringify x
         ++ (match r with [] => "" | _ => "," ++ stringify_members r end))%string
  end.

(** The fuel [parse_value] needs for a value: one per call, where the
    calls on the elements of a list nest along the list. *)
Fixpoint need (v : JValue) : nat :=
  match v with
  | JArr xs =>
      S ((fix needL (xs : list JValue) : nat :=
            match xs with [] => 0 | x :: r => S (Nat.max (need x) (needL r)) end) xs)
  | JObj kvs =>
      S ((fix needM (kvs : list (string * JValue)) : nat :=
            match kvs with [] => 0 | (_, x) :: r => S (Nat.max (need x) (needM r)) end) kvs)
  | _ => 1
  end.

Fixpoint needL (xs : list JValue) : nat :=
  match xs with [] => 0 | x :: r => S (Nat.max (need x) (needL r)) end.

Fixpoint needM (kvs : list (string * JValue)) : nat :=
  match kvs with [] => 0 | (_, x) :: r => S (Nat.max (need x) (needM r)) end.

(** Induction on [JValue] with hypotheses for the elements of arrays and
    the values of objects. *)
Section JValueInd.
Context (P : JValue -> Prop).
Context (HNull : P JNull) (HBool : forall b, P (JBool b)) (HNum : forall z, P (JNum z))
  (HStr : forall s, P (JStr s)) (HArr : forall xs, Forall P xs -> P (JArr xs))
  (HObj : forall kvs, Forall (fun kv => P kv.2) kvs -> P (JObj kvs)).

Fixpoint JValue_nested_ind (v : JValue) : P v :=
  match v with
  | JNull => HNull
  | JBool b => HBool b
  | JNum z => HNum z
  | JStr s => HStr s
  | JArr xs =>
      HArr xs ((fix go (xs : list JValue) : Forall P xs :=
                  match xs with
                  | [] => @List.Forall_nil _ P
                  | x :: r => @List.Forall_cons _ P x r (JValue_nested_ind x) (go r)
                  end) xs)
  | JObj kvs =>
      HObj kvs ((fix go (kvs : list (string * JValue)) : Forall (fun kv => P kv.2) kvs :=
                   match kvs with
                   | [] => @List.Forall_nil _ (fun kv => P kv.2)
                   | kv :: r => @List.Forall_cons _ (fun kv => P kv.2) kv r (JValue_nested_ind kv.2) (go r)
                   end) kvs)
  end.
End JValueInd.

(** What may follow a number without extending it. *)
Definition digit_free (rest : string) : Prop :=
  match rest with
  | String c _ => is_digit c = false
  | EmptyString => True
  end.

(** A string of JSON whitespace. *)
Fixpoint all_ws (s : string) : bool :=
  match s with
  | String c r => is_ws c && all_ws r
  | EmptyString => true
  end.

(** The round-trip property of one value, for any fuel the value needs
    and anything that may follow it. *)
Definition roundtrips (v : JValue) : Prop :=
  forall f rest, need v <= f -> digit_free rest ->
    parse_value f (stringify v ++ rest) = Some (v, rest).

(** ** Lemmas *)

Lemma expect_app lit rest : expect lit (lit ++ rest) = Some rest.
Proof. induction lit as [| a l IH]; simpl; [done | rewrite Ascii.eqb_refl; exact IH]. Qed.

(** Decoding one escaped character: the parser reads back exactly the
    character [escape_char] wrote, whatever follows. *)
Lemma parse_chars_escape_char c X :
  parse_chars (escape_char c ++ X) =
    match parse_chars X with Some (str, rest) => Some (String c str, rest) | None => None end.
Proof. destruct c as [[] [] [] [] [] [] [] []]; reflexivity. Qed.

Lemma parse_chars_escape s rest :
  parse_chars (escape s ++ chr dq ++ rest) = Some (s, rest).
Proof.
  induction s as [| c s IH]; [reflexivity |].
  simpl. rewrite <- str_app_assoc, parse_chars_escape_char, IH. reflexivity.
Qed.

Lemma span_digits_uint u rest :
  digit_free rest ->
  span_digits (NilEmpty.string_of_uint u ++ rest) = (NilEmpty.string_of_uint u, rest).
Proof.
  intros Hr. induction u; simpl; rewrite ?IHu; try reflexivity.
  destruct rest as [| c r]; simpl in *; [done | by rewrite Hr].
Qed.

Lemma digits_value_uint u acc :
  digits_value acc (NilEmpty.string_of_uint u) = Nat.of_uint_acc u acc.
Proof.
  revert acc. induction u; intros acc; simpl; rewrite ?IHu; try done;
    f_equal; rewrite Nat.tail_mul_spec; lia.
Qed.

Lemma uint_head u :
  u <> Decimal.Nil ->
  exists c r, NilEmpty.string_of_uint u = String c r /\ is_digit c = true.
Proof. destruct u; simpl; intros H; done || eauto. Qed.

Lemma to_uint_not_nil n : Nat.to_uint n <> Decimal.Nil.
Proof.
  intros H. pose proof (DecimalNat.Unsigned.of_to n) as Hn. rewrite H in Hn.
  simpl in Hn. subst n. discriminate H.
Qed.

Lemma parse_nat_print n rest :
  digit_free rest ->
  parse_nat (NilEmpty.string_of_uint (Nat.to_uint n) ++ rest) = Some (n, rest).
Proof.
  intros Hr. unfold parse_nat. rewrite span_digits_uint by done.
  destruct (uint_head (Nat.to_uint n) (to_uint_not_nil n)) as (c & r & Hcr & _).
  rewrite Hcr, <- Hcr, digits_value_uint. f_equal. f_equal. apply DecimalNat.Unsigned.of_to.
Qed.

(** Printing an integer and parsing it back gives the integer, when what
    follows cannot extend the number. *)
Lemma parse_int_print z rest :
  digit_free rest -> parse_int (print_int z ++ rest) = Some (z, rest).
Proof.
  intros Hr. unfold print_int. rewrite <- str_app_assoc. destruct (Z.ltb_spec z 0).
  - simpl. rewrite str_app_nil_l, parse_nat_print by done. f_equal. f_equal. lia.
  - rewrite str_app_nil_l. destruct (uint_head (Nat.to_uint (Z.abs_nat z)) (to_uint_not_nil _))
      as (c & r & Hcr & Hd).
    rewrite Hcr. simpl. destruct (Ascii.eqb_spec c "-") as [-> | _]; [discriminate Hd |].
    rewrite <- Hcr, parse_nat_print by done. f_equal. f_equal. lia.
Qed.

Lemma stringify_arr xs : stringify (JArr xs) = ("[" ++ stringify_elems xs ++ "]")%string.
Proof. reflexivity. Qed.

Lemma stringify_obj kvs : stringify (JObj kvs) = ("{" ++ stringify_members kvs ++ "}")%string.
Proof. reflexivity. Qed.

Lemma need_arr xs : need (JArr xs) = S (needL xs).
Proof. reflexivity. Qed.

Lemma need_obj kvs : need (JObj kvs) = S (needM kvs).
Proof. reflexivity. Qed.

(** A digit is none of the characters the parser dispatches on. *)
Lemma digit_not_special c :
  is_digit c = true ->
  is_ws c = false /\ Ascii.eqb c "]" = false /\ Ascii.eqb c "}" = false /\
  Ascii.eqb c "n" = false /\ Ascii.eqb c "t" = false /\ Ascii.eqb c "f" = false /\
  Ascii.eqb c dq = false /\ Ascii.eqb c "[" = false /\ Ascii.eqb c "{" = false /\
  Ascii.eqb c "-" = false /\ Ascii.eqb "]" c = false /\ Ascii.eqb "}" c = false.
Proof. destruct c as [[] [] [] [] [] [] [] []]; done. Qed.

(** The first character of a printed value. *)
Lemma stringify_head v :
  exists c r, stringify v = String c r /\ is_ws c = false /\
    Ascii.eqb "]" c = false /\ Ascii.eqb "}" c = false.
Proof.
  destruct v as [| [] | z | s | xs | kvs]; try (eexists _, _; split; [reflexivity | done]).
  simpl. unfold print_int. destruct (Z.ltb_spec z 0); [eexists _, _; split; [reflexivity | done] |].
  destruct (uint_head (Nat.to_uint (Z.abs_nat z)) (to_uint_not_nil _)) as (c & r & Hcr & Hd).
  rewrite str_app_nil_l, Hcr.
  destruct (digit_not_special c Hd) as (H1 & _ & _ & _ & _ & _ & _ & _ & _ & _ & H2 & H3).
  exists c, r. done.
Qed.

Lemma skip_ws_stringify v rest : skip_ws (stringify v ++ rest) = (stringify v ++ rest)%string.
Proof.
  destruct (stringify_head v) as (c & r & -> & Hws & _). simpl. rewrite Hws. done.
Qed.

Lemma expect_cons a l b s :
  expect (String a l) (String b s) = if Ascii.eqb a b then expect l s else None.
Proof. reflexivity. Qed.

Lemma skip_ws_nonws c s : is_ws c = false -> skip_ws (String c s) = String c s.
Proof. simpl. intros ->. done. Qed.

Lemma parse_value_S f s :
  parse_value (S f) s =
    match skip_ws s with
    | EmptyString => None
    | String c r =>
        if Ascii.eqb c "n" then option_map (fun rest => (JNull, rest)) (expect "ull" r)
        else if Ascii.eqb c "t" then option_map (fun rest => (JBool true, rest)) (expect "rue" r)
        else if Ascii.eqb c "f" then option_map (fun rest => (JBool false, rest)) (expect "alse" r)
        else if Ascii.eqb c dq then
          match parse_chars r with Some (str, rest) => Some (JStr str, rest) | None => None end
        else if Ascii.eqb c "[" then
          match expect "]" (skip_ws r) with
          | Some rest => Some (JArr [], rest)
          | None => match parse_elements f r with
                    | Some (xs, rest) => Some (JArr xs, rest)
                    | None => None
                    end
          end
        else if Ascii.eqb c "{" then
          match expect "}" (skip_ws r) with
          | Some rest => Some (JObj [], rest)
          | None => match parse_members f r with
                    | Some (kvs, rest) => Some (JObj kvs, rest)
                    | None => None
                    end
          end
        else match parse_int (String c r) with
             | Some (z, rest) => Some (JNum z, rest)
             | None => None
             end
    end.
Proof. reflexivity. Qed.

Lemma parse_elements_S f s :
  parse_elements (S f) s =
    match parse_value f s with
    | None => None
    | Some (v, s1) =>
        match skip_ws s1 with
        | String c s2 =>
            if Ascii.eqb c "," then
              match parse_elements f s2 with Some (vs, rest) => Some (v :: vs, rest) | None => None end
            else if Ascii.eqb c "]" then Some ([v], s2) else None
        | EmptyString => None
        end
    end.
Proof. reflexivity. Qed.

Lemma parse_members_S f s :
  parse_members (S f) s =
    match skip_ws s with
    | String c r =>
        if Ascii.eqb c dq then
          match parse_chars r with
          | Some (k, s1) =>
              match expect ":" (skip_ws s1) with
              | Some s2 =>
                  match parse_value f s2 with
                  | Some (v, s3) =>
                      match skip_ws s3 with
                      | String c' s4 =>
                          if Ascii.eqb c' "," then
                            match parse_members f s4 with
                            | Some (kvs, rest) => Some ((k, v) :: kvs, rest)
                            | None => None
                            end
                          else if Ascii.eqb c' "}" then Some ([(k, v)], s4)
                          else None
                      | EmptyString => None
                      end
                  | None => None
                  end
              | None => None
              end
          | None => None
          end
        else None
    | EmptyString => None
    end.
Proof. reflexivity. Qed.

(** The elements of an array, each of which round-trips, are read back
    up to the closing bracket. *)
Lemma elems_roundtrip xs :
  Forall roundtrips xs -> xs <> [] ->
  forall f rest, needL xs <= f -> digit_free rest ->
    parse_elements f (stringify_elems xs ++ "]" ++ rest) = Some (xs, rest).
Proof.
  induction 1 as [| x r Hx Hr IH]; [done |]. intros _ f rest Hf Hd.
  destruct f as [| f]; [simpl in Hf; lia |]. simpl in Hf.
  rewrite parse_elements_S. simpl stringify_elems. rewrite <- str_app_assoc.
  destruct r as [| y r'].
  - rewrite str_app_nil_l, Hx by (done || lia). reflexivity.
  - remember (stringify_elems (y :: r')) as t eqn:Ht.
    rewrite Hx by (done || lia). simpl. rewrite str_app_nil_l.
    rewrite (IH ltac:(done) f rest) by (simpl in *; lia || done). reflexivity.
Qed.

(** The members of an object whose values round-trip are read back up to
    the closing brace. *)
Lemma members_roundtrip kvs :
  Forall (fun kv => roundtrips kv.2) kvs -> kvs <> [] ->
  forall f rest, needM kvs <= f -> digit_free rest ->
    parse_members f (stringify_members kvs ++ "}" ++ rest) = Some (kvs, rest).
Proof.
  induction 1 as [| [k x] r Hx Hr IH]; [done |]. intros _ f rest Hf Hd. simpl in Hx.
  destruct f as [| f]; [simpl in Hf; lia |]. simpl in Hf.
  rewrite parse_members_S. simpl stringify_members. unfold quote.
  rewrite !str_cons_app. autorewrite with lumi_str.
  rewrite skip_ws_nonws, Ascii.eqb_refl, parse_chars_escape by reflexivity. simpl.
  destruct r as [| [k' y] r'].
  - autorewrite with lumi_str. rewrite Hx by (done || lia). reflexivity.
  - remember (stringify_members ((k', y) :: r')) as t eqn:Ht.
    autorewrite with lumi_str. rewrite Hx by (done || lia). simpl.
    pose proof (IH ltac:(done) f rest) as HIH. rewrite str_cons_app, str_app_nil_l in HIH.
    rewrite HIH by (simpl in *; lia || done). reflexivity.
Qed.

Lemma print_int_head z :
  exists c r, print_int z = String c r /\ (c = "-"%char \/ is_digit c = true).
Proof.
  unfold print_int. destruct (Z.ltb_spec z 0); [eexists _, _; split; [reflexivity | by left] |].
  destruct (uint_head (Nat.to_uint (Z.abs_nat z)) (to_uint_not_nil _)) as (c & r & Hcr & Hd).
  rewrite str_app_nil_l, Hcr. eauto.
Qed.

(** A printed number is read by the number branch of the parser. *)
Lemma num_roundtrip z : roundtrips (JNum z).
Proof.
  intros f rest Hf Hd. destruct f as [| f]; [simpl in Hf; lia |]. simpl stringify.
  pose proof (parse_int_print z rest Hd) as Hz.
  destruct (print_int_head z) as (c & r & Hcr & [-> | Hdig]); rewrite Hcr in Hz |- *;
    rewrite str_cons_app in Hz |- *; rewrite parse_value_S.
  - rewrite skip_ws_nonws by reflexivity. simpl (Ascii.eqb _ _). rewrite Hz. reflexivity.
  - destruct (digit_not_special c Hdig) as (Hws & _ & _ & Hn & Ht & Hf' & Hdq & Hb & Hc & _).
    rewrite skip_ws_nonws, Hn, Ht, Hf', Hdq, Hb, Hc, Hz by done. reflexivity.
Qed.

(** The printed elements of a non-empty array start a value: the parser
    does not read them as an empty array. *)
Lemma elems_head xs Y :
  xs <> [] ->
  skip_ws (stringify_elems xs ++ Y) = (stringify_elems xs ++ Y)%string /\
  expect "]" (stringify_elems xs ++ Y) = None.
Proof.
  destruct xs as [| x r]; [done |]. intros _. simpl stringify_elems.
  destruct (stringify_head x) as (c & r0 & Hsx & Hws & Hb & _).
  rewrite <- str_app_assoc, Hsx, str_cons_app, skip_ws_nonws by done.
  split; [done |]. rewrite expect_cons, Hb. done.
Qed.

Lemma members_head kvs Y :
  kvs <> [] ->
  skip_ws (stringify_members kvs ++ Y) = (stringify_members kvs ++ Y)%string /\
  expect "}" (stringify_members kvs ++ Y) = None.
Proof. destruct kvs as [| [k x] r]; [done |]. intros _. split; reflexivity. Qed.

(** Every value round-trips through [stringify] and [parse_value]. *)
Lemma stringify_roundtrips v : roundtrips v.
Proof.
  induction v as [| b | z | str | xs IH | kvs IH] using JValue_nested_ind;
    intros f rest Hf Hd.
  - destruct f; [simpl in Hf; lia | reflexivity].
  - destruct f; [simpl in Hf; lia | destruct b; reflexivity].
  - by apply num_roundtrip.
  - destruct f; [simpl in Hf; lia |]. simpl stringify. unfold quote.
    rewrite str_cons_app, parse_value_S, skip_ws_nonws by reflexivity.
    rewrite <- str_app_assoc, parse_chars_escape. reflexivity.
  - destruct f as [| f]; [simpl in Hf; lia |]. rewrite need_arr in Hf.
    rewrite stringify_arr, <- !str_app_assoc, str_cons_app, str_app_nil_l, parse_value_S,
      skip_ws_nonws by reflexivity.
    destruct xs as [| x r]; [reflexivity |].
    destruct (elems_head (x :: r) ("]" ++ rest) ltac:(done)) as [H1 H2].
    rewrite H1, H2, elems_roundtrip by (done || lia). reflexivity.
  - destruct f as [| f]; [simpl in Hf; lia |]. rewrite need_obj in Hf.
    rewrite stringify_obj, <- !str_app_assoc, str_cons_app, str_app_nil_l, parse_value_S,
      skip_ws_nonws by reflexivity.
    destruct kvs as [| [k x] r]; [reflexivity |].
    destruct (members_head ((k, x) :: r) ("}" ++ rest) ltac:(done)) as [H1 H2].
    rewrite H1, H2, members_roundtrip by (done || lia). reflexivity.
Qed.

(** The fuel bound: a value needs no more fuel than its text has characters. *)
Lemma needL_length xs :
  Forall (fun x => need x <= String.length (stringify x)) xs ->
  needL xs <= S (String.length (stringify_elems xs)).
Proof.
  induction 1 as [| x r Hx _ IH]; simpl; [lia |].
  destruct r as [| y r']; simpl in *; autorewrite with lumi_str in *; simpl in *; lia.
Qed.

Lemma needM_length kvs :
  Forall (fun kv => need kv.2 <= String.length (stringify kv.2)) kvs ->
  needM kvs <= S (String.length (stringify_members kvs)).
Proof.
  induction 1 as [| [k x] r Hx _ IH]; simpl; [lia |]. unfold quote.
  destruct r as [| kv' r']; simpl in *; autorewrite with lumi_str in *; simpl in *; lia.
Qed.

Lemma need_length v : need v <= String.length (stringify v).
Proof.
  induction v as [| b | z | str | xs IH | kvs IH] using JValue_nested_ind.
  - simpl; lia.
  - destruct b; simpl; lia.
  - simpl. destruct (print_int_head z) as (c & r & -> & _). simpl; lia.
  - simpl. unfold quote. simpl; lia.
  - rewrite need_arr, stringify_arr. autorewrite with lumi_str. simpl.
    pose proof (needL_length xs IH). lia.
  - rewrite need_obj, stringify_obj. autorewrite with lumi_str. simpl.
    pose proof (needM_length kvs IH). lia.
Qed.

Lemma skip_ws_all ws : all_ws ws = true -> skip_ws ws = "".
Proof. induction ws as [| c r IH]; simpl; [done |]. destruct (is_ws c); naive_solver. Qed.

Lemma ws_not_digit c : is_ws c = true -> is_digit c = false.
Proof. destruct c as [[] [] [] [] [] [] [] []]; vm_compute; congruence. Qed.

Lemma digit_free_ws ws : all_ws ws = true -> digit_free ws.
Proof.
  destruct ws as [| c r]; simpl; [done |].
  intros [H _]%andb_prop. by apply ws_not_digit.
Qed.

(** [JSON.parse] inverts [JSON.stringify]. *)
Lemma parse_stringify v : parse (stringify v) = Some v.
Proof.
  unfold parse. pose proof (need_length v) as Hn.
  pose proof (stringify_roundtrips v (S (String.length (stringify v))) "" ltac:(lia) I) as H.
  rewrite str_app_nil_r in H. rewrite H. reflexivity.
Qed.

(** ** The parser's fuel *)

(** What each reader consumes. *)
Lemma skip_ws_length s : String.length (skip_ws s) <= String.length s.
Proof. induction s as [| c r IH]; simpl; [lia |]. destruct (is_ws c); simpl; lia. Qed.

Lemma expect_length lit s r :
  expect lit s = Some r -> String.length r + String.length lit = String.length s.
Proof.
  revert s. induction lit as [| a l IH]; intros [| b s] H; simpl in *; try done.
  - by simplify_eq/=.
  - by simplify_eq/=.
  - destruct (Ascii.eqb a b); [apply IH in H; lia | done].
Qed.

Lemma skip_ws_cons_length s c r :
  skip_ws s = String c r -> String.length r < String.length s.
Proof. intros H. pose proof (skip_ws_length s) as Hl. rewrite H in Hl. simpl in Hl. lia. Qed.

Lemma parse_chars_length s str r :
  parse_chars s = Some (str, r) -> String.length r < String.length s.
Proof.
  revert str. induction s as [s IH] using (induction_ltof1 _ String.length); intros str H.
  unfold ltof in IH. destruct s as [| c t]; simpl in H; [done |].
  destruct (Ascii.eqb c dq); [simplify_eq/=; lia |].
  destruct (Ascii.eqb c bs).
  - destruct t as [| e t']; [done |]. destruct (Ascii.eqb e "u").
    + destruct t' as [| h1 [| h2 [| h3 [| h4 t'']]]]; try done.
      destruct (hex4 h1 h2 h3 h4); [| done]. destruct (_ <? 128); [| done].
      destruct (parse_chars t'') as [[str' rest] |] eqn:E; [| done]. simplify_eq/=.
      apply IH in E; simpl; lia.
    + destruct (unescape e); [| done].
      destruct (parse_chars t') as [[str' rest] |] eqn:E; [| done]. simplify_eq/=.
      apply IH in E; simpl; lia.
  - destruct (_ <? 32); [done |].
    destruct (parse_chars t) as [[str' rest] |] eqn:E; [| done]. simplify_eq/=.
    apply IH in E; simpl; lia.
Qed.

Lemma span_digits_length s ds rest :
  span_digits s = (ds, rest) -> String.length ds + String.length rest = String.length s.
Proof.
  revert ds rest. induction s as [| c r IH]; intros ds rest H; simpl in H; [by simplify_eq/= |].
  destruct (is_digit c); [| by simplify_eq/=].
  destruct (span_digits r) as [d t] eqn:E. specialize (IH d t eq_refl). simplify_eq/=. lia.
Qed.

Lemma parse_nat_length s n r : parse_nat s = Some (n, r) -> String.length r < String.length s.
Proof.
  unfold parse_nat. destruct (span_digits s) as [ds rest] eqn:E.
  apply span_digits_length in E. destruct ds; intros; simplify_eq/=; lia.
Qed.

Lemma parse_int_length s z r : parse_int s = Some (z, r) -> String.length r < String.length s.
Proof.
  unfold parse_int. destruct s as [| c t]; [done |]. destruct (Ascii.eqb c "-").
  - destruct (parse_nat t) as [[n rest] |] eqn:E; [| done]. intros; simplify_eq/=.
    apply parse_nat_length in E. simpl. lia.
  - destruct (parse_nat (String c t)) as [[n rest] |] eqn:E; [| done]. intros; simplify_eq/=.
    by apply parse_nat_length in E.
Qed.

(** What a successful [parse_value] did: read a value that needs one unit
    of fuel and any fuel reads back; or an array or an object whose
    elements or members were read with the remaining fuel. *)
Lemma parse_value_inv f s v rest :
  parse_value (S f) s = Some (v, rest) ->
  (need v + String.length rest <= String.length s /\
     forall f', parse_value (S f') s = Some (v, rest)) \/
  (exists r xs, skip_ws s = String "[" r /\ v = JArr xs /\ parse_elements f r = Some (xs, rest) /\
     forall f', parse_elements f' r = Some (xs, rest) -> parse_value (S f') s = Some (v, rest)) \/
  (exists r kvs, skip_ws s = String "{" r /\ v = JObj kvs /\ parse_members f r = Some (kvs, rest) /\
     forall f', parse_members f' r = Some (kvs, rest) -> parse_value (S f') s = Some (v, rest)).
Proof.
  rewrite parse_value_S. intros H.
  destruct (skip_ws s) as [| c r] eqn:E; [done |].
  pose proof (skip_ws_cons_length _ _ _ E) as Hl.
  assert (Hg : forall f', parse_value (S f') s = match String c r with
    | EmptyString => None
    | String c r =>
        if Ascii.eqb c "n" then option_map (fun rest => (JNull, rest)) (expect "ull" r)
        else if Ascii.eqb c "t" then option_map (fun rest => (JBool true, rest)) (expect "rue" r)
        else if Ascii.eqb c "f" then option_map (fun rest => (JBool false, rest)) (expect "alse" r)
        else if Ascii.eqb c dq then
          match parse_chars r with Some (str, rest) => Some (JStr str, rest) | None => None end
        else if Ascii.eqb c "[" then
          match expect "]" (skip_ws r) with
          | Some rest => Some (JArr [], rest)
          | None => match parse_elements f' r with
                    | Some (xs, rest) => Some (JArr xs, rest)
                    | None => None
                    end
          end
        else if Ascii.eqb c "{" then
          match expect "}" (skip_ws r) with
          | Some rest => Some (JObj [], rest)
          | None => match parse_members f' r with
                    | Some (kvs, rest) => Some (JObj kvs, rest)
                    | None => None
                    end
          end
        else match parse_int (String c r) with
             | Some (z, rest) => Some (JNum z, rest)
             | None => None
             end
    end) by (intros; rewrite parse_value_S, E; reflexivity).
  cbv iota beta in H, Hg.
  destruct (Ascii.eqb c "n") eqn:En;
    [destruct (expect "ull" r) eqn:Ex; [| done]; apply expect_length in Ex; simplify_eq/=;
     left; split; [simpl in *; lia | intros; by rewrite Hg] |].
  destruct (Ascii.eqb c "t") eqn:Et;
    [destruct (expect "rue" r) eqn:Ex; [| done]; apply expect_length in Ex; simplify_eq/=;
     left; split; [simpl in *; lia | intros; by rewrite Hg] |].
  destruct (Ascii.eqb c "f") eqn:Ef;
    [destruct (expect "alse" r) eqn:Ex; [| done]; apply expect_length in Ex; simplify_eq/=;
     left; split; [simpl in *; lia | intros; by rewrite Hg] |].
  destruct (Ascii.eqb c dq) eqn:Eq;
    [destruct (parse_chars r) as [[str rest'] |] eqn:Ex; [| done];
     apply parse_chars_length in Ex; simplify_eq/=; left; split; [simpl in *; lia | intros; by rewrite Hg] |].
  destruct (Ascii.eqb c "[") eqn:Eb.
  { apply Ascii.eqb_eq in Eb as ->.
    destruct (expect "]" (skip_ws r)) as [rest' |] eqn:Ex.
    - apply expect_length in Ex. simplify_eq/=. pose proof (skip_ws_length r).
      left. split; [simpl in *; lia | intros; by rewrite Hg].
    - destruct (parse_elements f r) as [[xs rest'] |] eqn:Ep; simplify_eq/=.
      right; left. exists r, xs. split_and!; try done. intros f' Hp. by rewrite Hg, Hp. }
  destruct (Ascii.eqb c "{") eqn:Eo.
  { apply Ascii.eqb_eq in Eo as ->.
    destruct (expect "}" (skip_ws r)) as [rest' |] eqn:Ex.
    - apply expect_length in Ex. simplify_eq/=. pose proof (skip_ws_length r).
      left. split; [simpl in *; lia | intros; by rewrite Hg].
    - destruct (parse_members f r) as [[kvs rest'] |] eqn:Ep; simplify_eq/=.
      right; right. exists r, kvs. split_and!; try done. intros f' Hp. by rewrite Hg, Hp. }
  destruct (parse_int (String c r)) as [[z rest'] |] eqn:Ex; [| done].
  apply parse_int_length in Ex. simplify_eq/=. left. split; [simpl in *; lia | intros; by rewrite Hg].
Qed.

(** What a successful [parse_elements] did: read one value with the
    remaining fuel, then either the closing bracket or a comma and the
    rest of the elements with the remaining fuel. *)
Lemma parse_elements_inv f s xs rest :
  parse_elements (S f) s = Some (xs, rest) ->
  exists v s1, parse_value f s = Some (v, s1) /\
    ((xs = [v] /\ String.length rest < String.length s1 /\
        forall f', parse_value f' s = Some (v, s1) -> parse_elements (S f') s = Some (xs, rest)) \/
     (exists vs s2, xs = v :: vs /\ String.length s2 < String.length s1 /\
        parse_elements f s2 = Some (vs, rest) /\
        forall f', parse_value f' s = Some (v, s1) -> parse_elements f' s2 = Some (vs, rest) ->
                   parse_elements (S f') s = Some (xs, rest))).
Proof.
  rewrite parse_elements_S. intros H.
  destruct (parse_value f s) as [[v s1] |] eqn:Ev; [| done]. exists v, s1. split; [done |].
  destruct (skip_ws s1) as [| c s2] eqn:E; [done |].
  pose proof (skip_ws_cons_length _ _ _ E) as Hl.
  destruct (Ascii.eqb c ",") eqn:Ec.
  - destruct (parse_elements f s2) as [[vs rest'] |] eqn:Ep; [| done]. injection H as <- <-.
    right. exists vs, s2. split_and!; try done.
    intros f' Hv Hp. by rewrite parse_elements_S, Hv, E, Ec, Hp.
  - destruct (Ascii.eqb c "]") eqn:Eb; [| done]. injection H as <- <-.
    left. split_and!; try done. intros f' Hv. by rewrite parse_elements_S, Hv, E, Ec, Eb.
Qed.

(** What a successful [parse_members] did: read a key, a colon and one
    value with the remaining fuel, then the closing brace or a comma and
    the rest of the members with the remaining fuel. *)
Lemma parse_members_inv f s kvs rest :
  parse_members (S f) s = Some (kvs, rest) ->
  exists k v s2 s3, String.length s2 < String.length s /\ parse_value f s2 = Some (v, s3) /\
    ((kvs = [(k, v)] /\ String.length rest < String.length s3 /\
        forall f', parse_value f' s2 = Some (v, s3) -> parse_members (S f') s = Some (kvs, rest)) \/
     (exists r s4, kvs = (k, v) :: r /\ String.length s4 < String.length s3 /\
        parse_members f s4 = Some (r, rest) /\
        forall f', parse_value f' s2 = Some (v, s3) -> parse_members f' s4 = Some (r, rest) ->
                   parse_members (S f') s = Some (kvs, rest))).
Proof.
  rewrite parse_members_S. intros H.
  destruct (skip_ws s) as [| c r] eqn:E; [done |].
  pose proof (skip_ws_cons_length _ _ _ E) as Hl.
  destruct (Ascii.eqb c dq) eqn:Eq; [| done].
  destruct (parse_chars r) as [[k s1] |] eqn:Ek; [| done].
  pose proof (parse_chars_length _ _ _ Ek) as Hk.
  destruct (expect ":" (skip_ws s1)) as [s2 |] eqn:Ex; [| done].
  pose proof (expect_length _ _ _ Ex) as Hx. pose proof (skip_ws_length s1).
  destruct (parse_value f s2) as [[v s3] |] eqn:Ev; [| done].
  exists k, v, s2, s3. split; [simpl in *; lia |]. split; [done |].
  destruct (skip_ws s3) as [| c' s4] eqn:E3; [done |].
  pose proof (skip_ws_cons_length _ _ _ E3) as Hl3.
  destruct (Ascii.eqb c' ",") eqn:Ec.
  - destruct (parse_members f s4) as [[r' rest'] |] eqn:Ep; [| done]. injection H as <- <-.
    right. exists r', s4. split_and!; try done.
    intros f' Hv Hp. by rewrite parse_members_S, E, Eq, Ek, Ex, Hv, E3, Ec, Hp.
  - destruct (Ascii.eqb c' "}") eqn:Eb; [| done]. injection H as <- <-.
    left. split_and!; try done. intros f' Hv. by rewrite parse_members_S, E, Eq, Ek, Ex, Hv, E3, Ec, Eb.
Qed.

(** Fuel adequacy, by induction on the fuel: what the parser reads, it
    reads with any fuel the value needs, and a value needs no more fuel
    than the characters it was read from. *)
Lemma parse_fuel_adequate f :
  (forall s v rest, parse_value f s = Some (v, rest) ->
     need v + String.length rest <= String.length s /\
     forall f', need v <= f' -> parse_value f' s = Some (v, rest)) /\
  (forall s xs rest, parse_elements f s = Some (xs, rest) ->
     needL xs + String.length rest <= String.length s /\
     forall f', needL xs <= f' -> parse_elements f' s = Some (xs, rest)) /\
  (forall s kvs rest, parse_members f s = Some (kvs, rest) ->
     needM kvs + String.length rest <= String.length s /\
     forall f', needM kvs <= f' -> parse_members f' s = Some (kvs, rest)).
Proof.
  induction f as [| f (IHv & IHe & IHm)]; [split_and!; done |]. split_and!.
  - intros s v rest H.
    destruct (parse_value_inv f s v rest H)
      as [[Hb Hall] | [(r & xs & E & -> & Hp & Hk) | (r & kvs & E & -> & Hp & Hk)]].
    + split; [done |]. intros [| f'] Hf'; [destruct v; simpl in Hf'; lia | apply Hall].
    + pose proof (skip_ws_cons_length _ _ _ E). destruct (IHe _ _ _ Hp) as [Hb Ha].
      rewrite need_arr. split; [lia |]. intros [| f'] Hf'; [lia |]. apply Hk, Ha. lia.
    + pose proof (skip_ws_cons_length _ _ _ E). destruct (IHm _ _ _ Hp) as [Hb Ha].
      rewrite need_obj. split; [lia |]. intros [| f'] Hf'; [lia |]. apply Hk, Ha. lia.
  - intros s xs rest H.
    destruct (parse_elements_inv f s xs rest H) as (v & s1 & Hv & Hcase).
    destruct (IHv _ _ _ Hv) as [Hbv Hav].
    destruct Hcase as [(-> & Hl & Hk) | (vs & s2 & -> & Hl & Hp & Hk)].
    + simpl. split; [lia |]. intros [| f'] Hf'; [lia |]. apply Hk, Hav. lia.
    + destruct (IHe _ _ _ Hp) as [Hbe Hae]. simpl. split; [lia |].
      intros [| f'] Hf'; [lia |]. apply Hk; [apply Hav | apply Hae]; lia.
  - intros s kvs rest H.
    destruct (parse_members_inv f s kvs rest H) as (k & v & s2 & s3 & Hl2 & Hv & Hcase).
    destruct (IHv _ _ _ Hv) as [Hbv Hav].
    destruct Hcase as [(-> & Hl & Hk) | (r & s4 & -> & Hl & Hp & Hk)].
    + simpl. split; [lia |]. intros [| f'] Hf'; [lia |]. apply Hk, Hav. lia.
    + destruct (IHm _ _ _ Hp) as [Hbm Ham]. simpl. split; [lia |].
      intros [| f'] Hf'; [lia |]. apply Hk; [apply Hav | apply Ham]; lia.
Qed.

(** [JSON.parse] inverts [JSON.stringify], also when whitespace
    follows the text: every value the app serialises into a route
    parameter is read back unchanged. *)
Theorem parse_stringify_ws v ws : all_ws ws = true -> parse (stringify v ++ ws) = Some v.
Proof.
  intros Hws. unfold parse. pose proof (need_length v) as Hn.
  rewrite (stringify_roundtrips v _ ws) by (rewrite ?str_length_app; lia || by apply digit_free_ws).
  rewrite skip_ws_all by done. reflexivity.
Qed.

(** The parser's fuel is never the reason it stops: from
    [S (length s)] on, [parse_value] gives the same answer for every
    fuel, so [parse] (which gives it exactly that fuel) is the parse of
    an unbounded recursive descent. *)
Theorem parse_value_fuel s f :
  S (String.length s) <= f -> parse_value f s = parse_value (S (String.length s)) s.
Proof.
  intros Hf. destruct (parse_value f s) as [[v rest] |] eqn:E.
  - destruct (proj1 (parse_fuel_adequate f) _ _ _ E) as [Hb Ha].
    symmetry. apply Ha. lia.
  - destruct (parse_value (S (String.length s)) s) as [[v rest] |] eqn:E'; [| done].
    destruct (proj1 (parse_fuel_adequate _) _ _ _ E') as [Hb Ha].
    rewrite (Ha f) in E by lia. done.
Qed.

End Json.
