(* ===== verification/Player.v ===== *)
(** * The slideshow player: state, setters, handlers ([src/slideshow.tsx])

    [Module Player] models the four [useState] hooks of [SlideshowScreen]
    (lines 53-56) as the record [PState], each setter as a function on
    [PState] taking React's [SetStateAction], and each handler as the
    sequence of its setter calls in source order, guards and early
    returns included.  All handlers read [slides.length] only, so they live
    in a Section over the decoded slide list.

    A handler runs between two renders: the [currentIndex] it reads from
    its closure is the committed one, equal to the [prev] that its
    updaters receive, so a handler is a function [PState -> PState]. *)

From S2P Require Import Prelude.
From stdpp Require Import strings.

(** [type Slide = { uri: string }] (line 16). *)
Record Slide := mkSlide { uri : string }.

(** [const SLIDE_DURATION_MS = 2500] (line 18). *)
Definition SLIDE_DURATION_MS : nat := 2500.

Module Player.

(** The player's React state (lines 53-56). *)
Record PState := mkPState {
  currentIndex : nat;
  isPlaying : bool;
  showIntro : bool;
  showOutro : bool
}.

#[export] Instance PState_eq_dec : EqDecision PState.
Proof. solve_decision. Qed.

(** The initial values of the hooks: index 0, auto-play on, intro shown. *)
Definition initial_state : PState := mkPState 0 true true false.

(** The four setters returned by [useState]. *)
Definition setCurrentIndex (a : SetStateAction nat) (s : PState) : PState :=
  mkPState (apply_action a (currentIndex s)) (isPlaying s) (showIntro s) (showOutro s).
Definition setIsPlaying (a : SetStateAction bool) (s : PState) : PState :=
  mkPState (currentIndex s) (apply_action a (isPlaying s)) (showIntro s) (showOutro s).
Definition setShowIntro (a : SetStateAction bool) (s : PState) : PState :=
  mkPState (currentIndex s) (isPlaying s) (apply_action a (showIntro s)) (showOutro s).
Definition setShowOutro (a : SetStateAction bool) (s : PState) : PState :=
  mkPState (currentIndex s) (isPlaying s) (showIntro s) (apply_action a (showOutro s)).

Section Handlers.
Context (slides : list Slide).
Local Abbreviation len := (length slides).

(** [goNext] (lines 103-112). *)
Definition goNext (s : PState) : PState :=
  if len =? 0 then s
  else if currentIndex s =? len - 1 then
    s |> setIsPlaying (Value false) |> setShowOutro (Value true)
  else
    s |> setShowOutro (Value false)
      |> setCurrentIndex (Updater (fun prev => Nat.min (prev + 1) (len - 1))).

(** [goPrev] (lines 114-118). *)
Definition goPrev (s : PState) : PState :=
  if len =? 0 then s
  else
    s |> setShowOutro (Value false)
      |> setCurrentIndex (Updater (fun prev => if prev =? 0 then 0 else prev - 1)).

(** [handleShare] (lines 120-127): the uri handed to [Sharing.shareAsync],
    or [None] when [slides[currentIndex]] is undefined and the handler
    returns early.  A rejected share is caught and logged: it changes no
    state, so the handler has no state result. *)
Definition handleShare (s : PState) : option string :=
  match slides !! currentIndex s with
  | Some sl => Some (uri sl)
  | None => None
  end.

(** [handleStartRecap] (lines 129-136); [animateSlideIn] only drives
    [Animated] values and is not state. *)
Definition handleStartRecap (s : PState) : PState :=
  if len =? 0 then s
  else
    s |> setShowIntro (Value false) |> setShowOutro (Value false)
      |> setCurrentIndex (Value 0) |> setIsPlaying (Value true).

(** [handleReplay] (lines 138-144). *)
Definition handleReplay (s : PState) : PState :=
  if len =? 0 then s
  else
    s |> setShowOutro (Value false) |> setCurrentIndex (Value 0)
      |> setIsPlaying (Value true).

(** The header button's [onPress] (lines 242-252): start on the intro,
    replay on the outro, otherwise toggle [isPlaying]. *)
Definition headerPress (s : PState) : PState :=
  if showIntro s then handleStartRecap s
  else if showOutro s then handleReplay s
  else s |> setIsPlaying (Updater negb).

(** The interval callback (lines 88-98): its [setCurrentIndex] updater
    stops at the last slide, calling [setIsPlaying(false)] and
    [setShowOutro(true)] and returning [prev]. *)
Definition intervalCallback (s : PState) : PState :=
  if currentIndex s =? len - 1 then
    s |> setIsPlaying (Value false) |> setShowOutro (Value true)
      |> setCurrentIndex (Updater (fun prev => prev))
  else s |> setCurrentIndex (Updater (fun prev => prev + 1)).

(** The guard of the timer effect (line 86), negated: the effect arms an
    interval exactly when this holds. *)
Definition timerArmed (s : PState) : bool :=
  isPlaying s && negb (len =? 0) && negb (showIntro s) && negb (showOutro s).

(** The index bound the spec requires of a non-empty recap. *)
Definition index_ok (s : PState) : Prop := currentIndex s < len.

#[export] Instance index_ok_dec s : Decision (index_ok s).
Proof. unfold index_ok. apply _. Defined.
End Handlers.

(** Unfold a handler and its setters and split its guards. *)
Ltac run_handler :=
  unfold headerPress, goNext, goPrev, handleStartRecap, handleReplay,
    intervalCallback, timerArmed, index_ok,
    setCurrentIndex, setIsPlaying, setShowIntro, setShowOutro in *;
  destruct_and?; simpl in *; eqb_cases; simpl in *.

Section HandlerLemmas.
Context (slides : list Slide).
Local Abbreviation len := (length slides).

(** C10. On an empty recap every handler returns at once: navigation,
    start and replay leave the state as it is, and the header button only
    toggles [isPlaying] outside the intro and the outro. *)
Lemma handlers_noop_empty s :
  len = 0 ->
  goNext slides s = s /\ goPrev slides s = s /\
  handleStartRecap slides s = s /\ handleReplay slides s = s /\
  headerPress slides s = (if showIntro s || showOutro s then s
                          else setIsPlaying (Updater negb) s).
Proof.
  intros H. destruct s as [i p a b]. run_handler; try lia.
  destruct a, b; repeat split; reflexivity.
Qed.

(** [goNext] on the last slide stops playback and shows the outro,
    leaving the index where it is. *)
Lemma goNext_at_last s :
  len <> 0 -> currentIndex s = len - 1 ->
  goNext slides s = mkPState (currentIndex s) false (showIntro s) true.
Proof. intros. destruct s. run_handler; congruence || lia. Qed.

(** [goNext] before the last slide moves one slide on, hides the outro
    and leaves [isPlaying] alone. *)
Lemma goNext_below_last s :
  currentIndex s < len - 1 ->
  goNext slides s = mkPState (S (currentIndex s)) (isPlaying s) (showIntro s) false.
Proof. intros. destruct s. run_handler; try lia. f_equal; lia. Qed.

(** [goPrev] on a non-empty recap moves back one slide, clamped at 0. *)
Lemma goPrev_spec s :
  len <> 0 ->
  goPrev slides s = mkPState (Nat.pred (currentIndex s)) (isPlaying s) (showIntro s) false.
Proof. intros. destruct s as [[|i] p a b]; run_handler; try lia; f_equal; lia. Qed.

(** Starting from the intro card: slide 0, playing, no overlay. *)
Lemma handleStartRecap_spec s :
  len <> 0 -> handleStartRecap slides s = mkPState 0 true false false.
Proof. intros. run_handler; [lia | reflexivity]. Qed.

(** Replaying: slide 0, playing, outro hidden; the intro flag is kept. *)
Lemma handleReplay_spec s :
  len <> 0 -> handleReplay slides s = mkPState 0 true (showIntro s) false.
Proof. intros. run_handler; [lia | reflexivity]. Qed.

(** The interval callback at the last slide stops and shows the outro. *)
Lemma intervalCallback_at_last s :
  currentIndex s = len - 1 ->
  intervalCallback slides s = mkPState (currentIndex s) false (showIntro s) true.
Proof. intros. destruct s. run_handler; congruence. Qed.

(** The interval callback elsewhere advances one slide. *)
Lemma intervalCallback_below_last s :
  currentIndex s <> len - 1 ->
  intervalCallback slides s =
    mkPState (S (currentIndex s)) (isPlaying s) (showIntro s) (showOutro s).
Proof. intros. destruct s. run_handler; [congruence | f_equal; lia]. Qed.

(** C11. Sharing hands the uri of the slide on screen to the share sheet
    whenever the index is in range. *)
Lemma handleShare_current s :
  index_ok slides s ->
  exists sl, slides !! currentIndex s = Some sl /\ handleShare slides s = Some (uri sl).
Proof.
  unfold index_ok, handleShare. intros H.
  destruct (lookup_lt_is_Some_2 slides (currentIndex s) H) as [sl Hsl].
  rewrite Hsl. eauto.
Qed.

(** C8. The index stays in [0, length - 1] under every handler and the
    interval callback. *)
Lemma handlers_preserve_index s :
  index_ok slides s ->
  index_ok slides (goNext slides s) /\ index_ok slides (goPrev slides s) /\
  index_ok slides (handleStartRecap slides s) /\ index_ok slides (handleReplay slides s) /\
  index_ok slides (headerPress slides s) /\ index_ok slides (intervalCallback slides s).
Proof.
  intros H. destruct s as [i p a b].
  unfold headerPress; simpl.
  destruct a, b; run_handler; repeat split; lia.
Qed.

(** C9. Backward navigation from the first slide, outside the outro, is
    a no-op. *)
Theorem back_at_first_slide_noop s :
  len <> 0 -> currentIndex s = 0 -> showOutro s = false -> goPrev slides s = s.
Proof.
  intros Hne Hi Ho. rewrite goPrev_spec by done.
  destruct s; simpl in *; subst; done.
Qed.
End HandlerLemmas.

Lemma handlers_preserve_index_witness :
  let sl := [mkSlide "a"; mkSlide "b"] in
  let s := mkPState 1 true false false in
  index_ok sl s /\ index_ok sl (goNext sl s) /\ index_ok sl (goPrev sl s) /\
  index_ok sl (handleStartRecap sl s) /\ index_ok sl (handleReplay sl s) /\
  index_ok sl (headerPress sl s) /\ index_ok sl (intervalCallback sl s).
Proof.
  intros sl s. split; [unfold index_ok; simpl; lia |].
  apply handlers_preserve_index. unfold index_ok; simpl; lia.
Defined.

Lemma back_at_first_slide_noop_witness :
  let sl := [mkSlide "a"; mkSlide "b"] in
  let s := mkPState 0 false false false in
  goPrev sl s = s.
Proof. intros sl s. apply back_at_first_slide_noop; simpl; (lia || reflexivity). Defined.

Lemma handlers_noop_empty_witness :
  let s := mkPState 0 true true false in
  goNext [] s = s /\ goPrev [] s = s /\ handleStartRecap [] s = s /\ handleReplay [] s = s /\
  headerPress [] s = s.
Proof.
  intros s. destruct (handlers_noop_empty [] s) as (H1 & H2 & H3 & H4 & H5); [reflexivity |].
  exact (conj H1 (conj H2 (conj H3 (conj H4 H5)))).
Defined.

Lemma handleShare_current_witness :
  let sl := [mkSlide "a"; mkSlide "b"] in
  exists x, sl !! 1 = Some x /\ handleShare sl (mkPState 1 false false false) = Some (uri x).
Proof.
  intros sl. apply (handleShare_current sl (mkPState 1 false false false)).
  unfold index_ok; simpl; lia.
Defined.

End Player.
