(* ===== verification/Recap.v ===== *)
(** * The recap the player shows and the values derived from it
    ([src/slideshow.tsx], lines 42-51 and 146-183, 211-212)

    [Module Recap] holds [Props], the screen's values after the route
    parameters are decoded (lines 42-51), and every value the render
    derives from them and from the current index: [isHighlight],
    [progress], [prettyEmotion], [vibeAccent], the scene indices and
    [getSceneType], and the scene counter label.

    Strings are [String.string], byte strings holding UTF-8; the only
    character operation of the code, [toUpperCase] of the first character
    of the emotion, is modelled on ASCII letters.  JS numbers that hold
    an index or a length are [nat] (they are small non-negative integers);
    the highlight list decoded from JSON is a list of [Z]; the progress
    ratio, a floating-point quotient in JS, is the exact rational [Q]. *)

From S2P Require Import Prelude Player.
From stdpp Require Import strings.
From Stdlib Require Import QArith String Ascii DecimalString.

Module Recap.

Import Player.
#[local] Open Scope nat_scope.
#[local] Open Scope lumi_scope.

(** The screen's props after decoding (lines 42-51). *)
Record Props := mkProps {
  slides : list Slide;
  caption : string;
  title : string;
  vibeKey : string;
  vibeLabel : string;
  emotion : string;
  description : string;
  highlights : list Z
}.

(** [a || b] on strings: [a] unless it is the falsy empty string. *)
Definition str_or (a b : string) : string :=
  if String.eqb a "" then b else a.

(** [highlights.includes(currentIndex)] (line 146). *)
Definition isHighlight (p : Props) (idx : nat) : bool :=
  existsb (Z.eqb (Z.of_nat idx)) (highlights p).

(** [progress] (lines 147-148): [(currentIndex + 1) / slides.length]. *)
Definition progress (p : Props) (idx : nat) : Q :=
  if 0 <? List.length (slides p) then (Z.of_nat (idx + 1) # Pos.of_nat (List.length (slides p)))%Q
  else 0%Q.

(** [String.prototype.toUpperCase] on ASCII. *)
Definition ascii_upper (c : ascii) : ascii :=
  let n := nat_of_ascii c in
  if (97 <=? n) && (n <=? 122) then ascii_of_nat (n - 32) else c.

Fixpoint toUpperCase (s : string) : string :=
  match s with
  | EmptyString => EmptyString
  | String c r => String (ascii_upper c) (toUpperCase r)
  end.

(** [s.charAt(i)] and [s.slice(i)]. *)
Definition charAt (s : string) (i : nat) : string :=
  match String.get i s with
  | Some c => String c EmptyString
  | None => EmptyString
  end.
Definition slice (s : string) (i : nat) : string :=
  substring i (String.length s - i) s.

(** [prettyEmotion] (lines 150-153). *)
Definition prettyEmotion (emotion : string) : string :=
  if negb (String.eqb emotion "") && negb (String.eqb emotion "default")
  then toUpperCase (charAt emotion 0) ++ slice emotion 1
  else "".

(** [vibeAccent] (lines 156-171). *)
Definition vibeAccent (vibeKey : string) : string :=
  if String.eqb vibeKey "hype" then "#F97316"
  else if String.eqb vibeKey "cozy" then "#FBBF24"
  else if String.eqb vibeKey "travel" then "#22C55E"
  else if String.eqb vibeKey "friends" then "#EC4899"
  else if String.eqb vibeKey "chill" then "#38BDF8"
  else "#A855F7".

(** The scene indices (lines 173-176). *)
Definition openingIndex : nat := 0.
Definition closingIndex (p : Props) : nat :=
  if 0 <? List.length (slides p) then List.length (slides p) - 1 else 0.
Definition midIndex (p : Props) : nat :=
  if 0 <? List.length (slides p) then Nat.div (List.length (slides p)) 2 else 0.

(** [getSceneType] (lines 178-183). *)
Definition getSceneType (p : Props) (index : nat) : string :=
  if index =? openingIndex then "Opening scene"
  else if index =? closingIndex p then "Closing scene"
  else if index =? midIndex p then "Main energy"
  else "Scene".

(** A JS number printed in a template literal: its decimal digits. *)
Definition string_of_nat (n : nat) : string :=
  NilEmpty.string_of_uint (Nat.to_uint n).

(** [sceneNumberLabel] (line 212). *)
Definition sceneNumberLabel (p : Props) (idx : nat) : string :=
  "Scene " ++ string_of_nat (idx + 1) ++ " of " ++ string_of_nat (List.length (slides p)).

(** A recap of [n] slides with the neutral metadata the screen defaults
    to; the concrete runs of the development use it. *)
Definition sample_recap (n : nat) : Props :=
  mkProps (map (fun k => mkSlide (string_of_nat k)) (seq 0 n))
    "" "" "default" "" "default" "" [].

(** ** Lemmas *)

Lemma substring_full (s : string) : substring 0 (String.length s) s = s.
Proof. induction s; simpl; congruence. Qed.

Lemma Zpos_of_nat (n : nat) : n <> 0 -> Z.pos (Pos.of_nat n) = Z.of_nat n.
Proof. intros H. rewrite <- positive_nat_Z, Nat2Pos.id; done. Qed.

(** [Q] order on the fractions [progress] builds. *)
Lemma Qmake_le (a b : Z) (c d : positive) :
  (a * Z.pos d <= b * Z.pos c)%Z -> (a # c <= b # d)%Q.
Proof. unfold Qle. simpl. lia. Qed.

Section RecapLemmas.
Context (p : Props).
Local Abbreviation len := (List.length (slides p)).

Lemma progress_nonempty idx :
  len <> 0 -> progress p idx = (Z.of_nat (idx + 1) # Pos.of_nat len)%Q.
Proof. intros H. unfold progress. destruct (Nat.ltb_spec 0 len); [done | lia]. Qed.

Lemma progress_nonneg idx : (0 <= progress p idx)%Q.
Proof.
  unfold progress. destruct (Nat.ltb_spec 0 len); [| apply Qle_refl].
  unfold Qle; simpl. lia.
Qed.

(** A slide on screen fills at most the whole bar, and the whole bar
    exactly on the last slide. *)
Lemma progress_le_1 idx : idx < len -> (progress p idx <= 1)%Q.
Proof.
  intros H. rewrite progress_nonempty by lia.
  unfold Qle; simpl. rewrite Zpos_of_nat by lia. lia.
Qed.

Lemma progress_eq_1_iff idx : idx < len -> (progress p idx == 1)%Q <-> idx = len - 1.
Proof.
  intros H. rewrite progress_nonempty by lia.
  unfold Qeq; simpl. rewrite Zpos_of_nat by lia. lia.
Qed.

(** C14. The progress of a slide on screen is in (0, 1]. *)
Lemma progress_bounds idx :
  idx < len -> (0 < progress p idx)%Q /\ (progress p idx <= 1)%Q.
Proof.
  intros H. split; [| by apply progress_le_1]. rewrite progress_nonempty by lia.
  unfold Qlt; simpl. lia.
Qed.

(** The progress bar never moves back when the index moves forward. *)
Lemma progress_monotone i j :
  i <= j -> (progress p i <= progress p j)%Q.
Proof.
  intros H. unfold progress. destruct (Nat.ltb_spec 0 len); [| apply Qle_refl].
  apply Qmake_le. nia.
Qed.

(** The last slide fills the progress bar. *)
Lemma progress_last :
  len <> 0 -> (progress p (len - 1) == 1)%Q.
Proof.
  intros H. rewrite progress_nonempty by done.
  unfold Qeq; simpl. rewrite Zpos_of_nat by done. lia.
Qed.

(** C16. On a recap of three slides or more, "Main energy" labels
    exactly the middle index [floor(length / 2)]. *)
Lemma main_energy_iff i :
  3 <= len -> getSceneType p i = "Main energy"%string <-> i = Nat.div len 2.
Proof.
  intros H. unfold getSceneType, openingIndex, closingIndex, midIndex.
  destruct (Nat.ltb_spec 0 len); [| lia].
  assert (0 < Nat.div len 2 < len - 1).
  { split; [apply Nat.div_str_pos; lia | apply Nat.Div0.div_lt_upper_bound; lia]. }
  eqb_cases; subst; split; intros; (done || lia).
Qed.

(** The last slide of a recap of two or more is the closing scene. *)
Lemma closing_scene_last :
  2 <= len -> getSceneType p (len - 1) = "Closing scene"%string.
Proof.
  intros H. unfold getSceneType, openingIndex, closingIndex.
  destruct (Nat.ltb_spec 0 len); [| lia]. eqb_cases; (done || lia).
Qed.
End RecapLemmas.

(** C17. [prettyEmotion] of an emotion other than ["default"]
    capitalises the first letter and keeps the rest. *)
Lemma prettyEmotion_capitalises (c : ascii) (r : string) :
  String c r <> "default"%string ->
  prettyEmotion (String c r) = String (ascii_upper c) r.
Proof.
  intros H. unfold prettyEmotion, charAt, slice.
  rewrite (proj2 (String.eqb_neq _ _) H). simpl.
  rewrite Nat.sub_0_r, substring_full. reflexivity.
Qed.

Lemma progress_bounds_witness :
  2 < List.length (slides (sample_recap 3)) /\
  (0 < progress (sample_recap 3) 2)%Q /\ (progress (sample_recap 3) 2 <= 1)%Q.
Proof.
  assert (H : 2 < List.length (slides (sample_recap 3))) by (vm_compute; lia).
  split; [exact H | exact (progress_bounds _ _ H)].
Defined.

Lemma main_energy_iff_witness :
  3 <= List.length (slides (sample_recap 5)) /\
  getSceneType (sample_recap 5) 2 = "Main energy"%string.
Proof.
  assert (H : 3 <= List.length (slides (sample_recap 5))) by (vm_compute; lia).
  split; [exact H |]. apply (main_energy_iff (sample_recap 5) 2 H). vm_compute. reflexivity.
Defined.

Lemma prettyEmotion_capitalises_witness :
  prettyEmotion "happy" = "Happy"%string.
Proof.
  apply (prettyEmotion_capitalises "h" "appy"). intros H. vm_compute in H. discriminate H.
Defined.

End Recap.
