(* ===== verification/View.v ===== *)
(** * The rendered player screen ([src/slideshow.tsx], lines 185-447)

    [Module View] models what [SlideshowScreen] returns: the empty-state
    screen when there are no slides (lines 185-209), otherwise the main
    screen, built section by section as the JSX is: header row, slide frame
    with its tap zones and bottom overlay, intro card, outro card, progress
    bar and footer.  The view keeps the dynamic content (labels, texts,
    which overlay is shown, the progress ratio, the accent) and the list of
    touchable elements a user can reach.

    Layout: the tap zones ([zIndex: 3]) and the intro/outro cards
    ([fullscreenOverlay], absolutely positioned, [inset: 0], [zIndex: 4])
    are siblings inside [slideshowContainer]; a card therefore covers the
    tap zones, which are reachable only when no card is shown.  The header
    and the footer lie outside the container and are always reachable.

    [slides[currentIndex].uri] (line 282) throws a [TypeError] when the
    index is out of range: [render] returns [None] in that case. *)

From S2P Require Import Prelude Player Recap.
From stdpp Require Import strings.
From Stdlib Require Import QArith String.

Module View.

Import Player Recap.
#[local] Open Scope nat_scope.
#[local] Open Scope lumi_scope.

(** The touchable elements of the screen, with the handler each calls. *)
Inductive Button :=
| BackButton        (** empty state, [router.back()] (lines 200-205) *)
| CloseButton       (** header, [router.back()] (lines 224-229) *)
| PlayPauseButton   (** header, start / replay / toggle (lines 240-263) *)
| TapZoneLeft       (** [goPrev] (lines 276-280) *)
| TapZoneRight      (** [goNext] (lines 292-296) *)
| IntroPlayButton   (** [handleStartRecap] (lines 344-354) *)
| OutroWatchAgain   (** [handleReplay] (lines 378-393) *)
| OutroShare        (** [handleShare] (lines 394-404) *)
| FooterShare.      (** [handleShare] (lines 431-438) *)

#[export] Instance Button_eq_dec : EqDecision Button.
Proof. solve_decision. Defined.

(** The header row (lines 222-264). *)
Record Header := mkHeader {
  headerTitle : string;
  headerSubtitle : string;
  playPauseLabel : string
}.

(** The slide frame's dynamic content (lines 266-330). *)
Record Frame := mkFrame {
  imageUri : string;
  sceneLabel : string;
  vibePill : string;
  emotionPill : option string;
  descriptionText : string
}.

Record MainView := mkMainView {
  header : Header;
  frame : Frame;
  introCard : option string;   (** the intro card's subtitle, when shown *)
  outroCard : option string;   (** the outro card's subtitle, when shown *)
  progressFill : Q;
  accent : string
}.

Inductive Screen :=
| EmptyScreen
| MainScreen (v : MainView).

Section Render.
Context (p : Props) (s : PState).
Local Abbreviation idx := (currentIndex s).
Local Open Scope string_scope.

(** [sceneType] (line 211). *)
Definition sceneType : string := getSceneType p idx.

(** The header row (lines 222-264). *)
Definition headerRow : Header :=
  mkHeader (str_or (title p) "Your Life, As a Movie")
    (sceneNumberLabel p idx ++ " • " ++ sceneType)
    (if showIntro s then "Start"
     else if showOutro s then "Replay"
     else if isPlaying s then "Pause" else "Play").

(** The slide frame (lines 266-330); [None] when [slides[currentIndex]]
    is undefined and reading its [uri] throws. *)
Definition slideFrame : option Frame :=
  match slides p !! idx with
  | None => None
  | Some sl =>
      Some (mkFrame (uri sl)
        (sceneType ++ (if isHighlight p idx then " • Highlight" else ""))
        (str_or (vibeLabel p) (vibeKey p))
        (if String.eqb (prettyEmotion (emotion p)) "" then None
         else Some (prettyEmotion (emotion p)))
        (str_or (description p) "Turn your fun life moments into a mini-movie."))
  end.

(** The intro card (lines 332-361), shown when [showIntro]. *)
Definition introOverlay : option string :=
  if showIntro s then
    Some (str_or (caption p)
      "We ordered your best scenes and built a quick recap you can watch like a movie.")
  else None.

(** The outro card (lines 363-412), shown when [showOutro && !showIntro]. *)
Definition outroOverlay : option string :=
  if showOutro s && negb (showIntro s) then
    Some ((if String.eqb (title p) "" then "Your mini-movie just finished."
           else "“" ++ title p ++ "” just wrapped.")
          ++ " " ++ "Watch it again or share your favorite frame.")
  else None.

(** The progress bar (lines 416-427) and the accent every button uses. *)
Definition progressBar : Q := progress p idx.

(** The whole screen (lines 185-447). *)
Definition render : option Screen :=
  if Nat.eqb (List.length (slides p)) 0 then Some EmptyScreen
  else
    match slideFrame with
    | None => None
    | Some fr =>
        Some (MainScreen (mkMainView headerRow fr introOverlay outroOverlay
                progressBar (vibeAccent (vibeKey p))))
    end.
End Render.

(** The elements a user can press on a screen: a shown card covers the
    tap zones (lines 276-296 under lines 333-412). *)
Definition buttons (sc : Screen) : list Button :=
  match sc with
  | EmptyScreen => [BackButton]
  | MainScreen v =>
      [CloseButton; PlayPauseButton]
      ++ (match introCard v, outroCard v with
          | None, None => [TapZoneLeft; TapZoneRight]
          | _, _ => []
          end)
      ++ (if introCard v is Some _ then [IntroPlayButton] else [])
      ++ (if outroCard v is Some _ then [OutroWatchAgain; OutroShare] else [])
      ++ [FooterShare]
  end.

(** The buttons of the main screen in a given state, as a predicate. *)
Definition button_enabled (s : PState) (b : Button) : bool :=
  match b with
  | BackButton => false
  | CloseButton | PlayPauseButton | FooterShare => true
  | TapZoneLeft | TapZoneRight => negb (showIntro s) && negb (showOutro s)
  | IntroPlayButton => showIntro s
  | OutroWatchAgain | OutroShare => showOutro s && negb (showIntro s)
  end.

(** What pressing a button asks of the outside world. *)
Inductive Command :=
| NoCommand
| RouterBack                     (** [router.back()] *)
| ShareUri (u : option string).  (** [Sharing.shareAsync(u)], if any *)

(** The [onPress] of each button (lines 200-438). *)
Definition onPress (slides : list Slide) (b : Button) (s : PState) : PState * Command :=
  match b with
  | BackButton | CloseButton => (s, RouterBack)
  | PlayPauseButton => (headerPress slides s, NoCommand)
  | TapZoneLeft => (goPrev slides s, NoCommand)
  | TapZoneRight => (goNext slides s, NoCommand)
  | IntroPlayButton => (handleStartRecap slides s, NoCommand)
  | OutroWatchAgain => (handleReplay slides s, NoCommand)
  | OutroShare | FooterShare => (s, ShareUri (handleShare slides s))
  end.

(** ** Lemmas *)

Section ViewLemmas.
Context (p : Props) (s : PState).
Local Abbreviation len := (List.length (slides p)).

(** The main screen, when the slide on screen exists. *)
Lemma render_main sl :
  len <> 0 -> slides p !! currentIndex s = Some sl ->
  exists fr, slideFrame p s = Some fr /\ imageUri fr = uri sl /\
    render p s = Some (MainScreen (mkMainView (headerRow p s) fr (introOverlay p s)
                         (outroOverlay p s) (progressBar p s) (vibeAccent (vibeKey p)))).
Proof.
  intros Hn Hsl. unfold render, slideFrame. rewrite Hsl.
  destruct (Nat.eqb_spec len 0); [done |]. eauto.
Qed.

(** An empty recap renders the empty state, whose only control is Back:
    no playback control is ever on screen. *)
Lemma render_empty_only_back :
  len = 0 -> render p s = Some EmptyScreen /\ buttons EmptyScreen = [BackButton].
Proof. intros H. unfold render. rewrite H. done. Qed.

(** A state whose index is in range renders without throwing, and shows
    the slide at that index. *)
Lemma render_total :
  len <> 0 -> index_ok (slides p) s ->
  exists v sl, render p s = Some (MainScreen v) /\
    slides p !! currentIndex s = Some sl /\ imageUri (frame v) = uri sl.
Proof.
  intros Hn Hi. destruct (lookup_lt_is_Some_2 _ _ Hi) as [sl Hsl].
  destruct (render_main sl Hn Hsl) as (fr & _ & Hu & Hr). eauto 6.
Qed.

(** C12. An index out of range makes the render throw: reading
    [slides[currentIndex].uri] fails, modelled as [None]. *)
Lemma render_out_of_range :
  len <> 0 -> ~ index_ok (slides p) s -> render p s = None.
Proof.
  unfold index_ok. intros Hn Hi. unfold render, slideFrame.
  destruct (Nat.eqb_spec len 0); [done |].
  rewrite lookup_ge_None_2; [done | lia].
Qed.

(** The main screen offers exactly the enabled buttons: the tap zones
    only when no card is shown, the card buttons with their card. *)
Lemma buttons_iff_enabled v b :
  render p s = Some (MainScreen v) ->
  (b ∈ buttons (MainScreen v) <-> button_enabled s b = true).
Proof.
  unfold render. destruct (Nat.eqb len 0), (slideFrame p s); intros [= <-]; simpl.
  unfold introOverlay, outroOverlay. rewrite list_elem_of_In.
  destruct b; simpl; destruct (showIntro s), (showOutro s); simpl; firstorder congruence.
Qed.

(** C13. The header button reads "Pause" exactly when the timer
    effect's guard lets the interval run. *)
Lemma pause_label_iff_armed v :
  render p s = Some (MainScreen v) ->
  (playPauseLabel (header v) = "Pause"%string <-> timerArmed (slides p) s = true).
Proof.
  unfold render, timerArmed. destruct (Nat.eqb_spec len 0); [done |].
  destruct (slideFrame p s); intros [= <-]; simpl.
  destruct (showIntro s), (showOutro s), (isPlaying s); simpl; split; done.
Qed.
End ViewLemmas.

Lemma render_out_of_range_witness :
  List.length (slides (sample_recap 3)) <> 0 /\
  ~ index_ok (slides (sample_recap 3)) (mkPState 3 true false false) /\
  render (sample_recap 3) (mkPState 3 true false false) = None.
Proof.
  assert (Hn : List.length (slides (sample_recap 3)) <> 0) by (vm_compute; lia).
  assert (Hi : ~ index_ok (slides (sample_recap 3)) (mkPState 3 true false false))
    by (unfold index_ok; vm_compute; lia).
  split; [exact Hn | split; [exact Hi | exact (render_out_of_range _ _ Hn Hi)]].
Defined.

Lemma pause_label_iff_armed_witness :
  exists v, render (sample_recap 3) (mkPState 1 true false false) = Some (MainScreen v) /\
    (playPauseLabel (header v) = "Pause"%string <->
     timerArmed (slides (sample_recap 3)) (mkPState 1 true false false) = true).
Proof.
  eexists. split; [vm_compute; reflexivity |].
  apply pause_label_iff_armed. vm_compute. reflexivity.
Defined.

End View.
