(* ===== verification/Session.v ===== *)
(** * A viewing session: the player, its interval timer and a clock
    ([src/slideshow.tsx], lines 85-101 and the event wiring of 185-447)

    [Module Session] puts the handlers of [Player] and the screen of
    [View] under React's commit discipline and JS's timers:
    - after every state change React re-renders and, when the timer
      effect's dependency list [isPlaying, slides.length, showIntro,
      showOutro] (line 101) changed, runs the previous effect's cleanup
      ([clearInterval]) and then the effect again, which arms a fresh
      [setInterval] when its guard (line 86) lets it;
    - an armed interval fires every [SLIDE_DURATION_MS] after it was armed,
      and its callback is [Player.intervalCallback];
    - a user presses one of the buttons the rendered screen offers
      ([View.buttons]) at some time no later than the next due firing;
    - [router.back()] unmounts the screen, whose cleanup clears the timer.

    A [Session] is the React state, the interval the last effect run armed
    (its id and next due time, [None] when none is armed), the clock in
    milliseconds, the next id [setInterval] returns, and whether the screen
    is mounted.  [step] is a function returning [None] when an event
    cannot happen; reachability is [rtc] of it from [mount]. *)

From S2P Require Import Prelude Player Recap View.
From stdpp Require Import strings.

Module Session.

Import Player Recap View.
#[local] Open Scope nat_scope.

(** An interval handle returned by [setInterval]. *)
Record Interval := mkInterval { interval_id : nat; next_fire : nat }.

#[export] Instance Interval_eq_dec : EqDecision Interval.
Proof. solve_decision. Defined.

Record Session := mkSession {
  state : PState;
  timer : option Interval;
  clock : nat;
  fresh_id : nat;
  mounted : bool
}.

(** A user action: a press of a button at a time, or the interval firing. *)
Inductive Event :=
| Press (b : Button) (t : nat)
| Fire.

Section Session.
Context (p : Props).
Local Abbreviation slides := (Recap.slides p).

(** The dependency list of the timer effect (line 101); [slides.length]
    is fixed for the session. *)
Definition timerDeps (s : PState) : bool * bool * bool :=
  (isPlaying s, showIntro s, showOutro s).

(** One run of the timer effect (lines 85-98) at time [now]. *)
Definition timerEffect (s : PState) (now nid : nat) : option Interval * nat :=
  if timerArmed slides s then (Some (mkInterval nid (now + SLIDE_DURATION_MS)), S nid)
  else (None, nid).

(** Commit of a new state: re-render, then cleanup and effect when the
    dependencies changed (lines 85-101). *)
Definition commit (old new : PState) (ss : Session) : Session :=
  if decide (timerDeps old = timerDeps new) then
    mkSession new (timer ss) (clock ss) (fresh_id ss) (mounted ss)
  else
    let '(t, nid) := timerEffect new (clock ss) (fresh_id ss) in
    mkSession new t (clock ss) nid (mounted ss).

(** Mounting the screen: initial state, then the effect's first run. *)
Definition mount : Session :=
  let '(t, nid) := timerEffect initial_state 0 0 in
  mkSession initial_state t 0 nid true.

(** No interval is due strictly before [t]. *)
Definition not_overdue (ss : Session) (t : nat) : bool :=
  match timer ss with
  | Some i => t <=? next_fire i
  | None => true
  end.

(** A press of [b] at time [t], when the screen offers [b]. *)
Definition press (b : Button) (t : nat) (ss : Session) : option (Session * Command) :=
  if mounted ss && (clock ss <=? t) && not_overdue ss t then
    match render p (state ss) with
    | None => None
    | Some sc =>
        if decide (b ∈ buttons sc) then
          let '(s', cmd) := onPress slides b (state ss) in
          match cmd with
          | RouterBack => Some (mkSession s' None t (fresh_id ss) false, cmd)
          | _ => Some (commit (state ss) s' (mkSession (state ss) (timer ss) t
                                                (fresh_id ss) (mounted ss)), cmd)
          end
        else None
    end
  else None.

(** The armed interval fires at its due time (lines 88-98). *)
Definition fire (ss : Session) : option Session :=
  match timer ss with
  | Some i =>
      if mounted ss then
        Some (commit (state ss) (intervalCallback slides (state ss))
                (mkSession (state ss)
                   (Some (mkInterval (interval_id i) (next_fire i + SLIDE_DURATION_MS)))
                   (next_fire i) (fresh_id ss) (mounted ss)))
      else None
  | None => None
  end.

Definition step (ss : Session) (e : Event) : option (Session * Command) :=
  match e with
  | Press b t => press b t ss
  | Fire => option_map (fun ss' => (ss', NoCommand)) (fire ss)
  end.

(** Running a sequence of events; [None] when one of them cannot happen. *)
Fixpoint run (ss : Session) (es : list Event) : option Session :=
  match es with
  | [] => Some ss
  | e :: es' =>
      match step ss e with
      | Some (ss', _) => run ss' es'
      | None => None
      end
  end.

Definition step_rel (ss ss' : Session) : Prop :=
  exists e cmd, step ss e = Some (ss', cmd).

Definition reachable (ss : Session) : Prop := rtc step_rel mount ss.

(** [n] firings of the interval with no user input. *)
Fixpoint fire_n (n : nat) (ss : Session) : option Session :=
  match n with
  | 0 => Some ss
  | S n' => match fire ss with Some ss' => fire_n n' ss' | None => None end
  end.

(** The invariant of the player's state in a session of a non-empty
    recap: the index is in range; the intro card is only ever the
    initial state; the outro card sits on the last slide, stopped. *)
Definition state_inv (s : PState) : Prop :=
  index_ok slides s /\
  (showIntro s = true -> s = initial_state) /\
  (showOutro s = true ->
     currentIndex s = List.length slides - 1 /\ isPlaying s = false /\ showIntro s = false).

(** The timer invariant: an interval is armed exactly when the screen is
    mounted and the effect's guard holds; it is due no earlier than now
    and its id was handed out before. *)
Definition timer_ok (ss : Session) : Prop :=
  (is_Some (timer ss) <-> mounted ss = true /\ timerArmed slides (state ss) = true) /\
  (forall i, timer ss = Some i -> clock ss <= next_fire i /\ interval_id i < fresh_id ss).

Definition session_inv (ss : Session) : Prop :=
  state_inv (state ss) /\ timer_ok ss.
End Session.

(** ** Lemmas *)

Section StateInv.
Context (p : Props).
Local Abbreviation slides := (Recap.slides p).
Local Abbreviation len := (List.length slides).
Hypothesis Hne : len <> 0.

Lemma state_inv_initial : state_inv p initial_state.
Proof. repeat split; simpl; try done. unfold index_ok. simpl. lia. Qed.

Lemma state_inv_playing i pl :
  i < len -> state_inv p (mkPState i pl false false).
Proof. intros H. repeat split; simpl; done. Qed.

Lemma state_inv_outro :
  state_inv p (mkPState (len - 1) false false true).
Proof. repeat split; simpl; try done. unfold index_ok. simpl. lia. Qed.

#[local] Hint Resolve state_inv_initial state_inv_playing state_inv_outro : lumi.

(** The flags a state has when the invariant holds and its intro flag is
    set, or its outro flag. *)
Lemma state_inv_cases s :
  state_inv p s ->
  s = initial_state \/
  (showIntro s = false /\ showOutro s = false /\ currentIndex s < len) \/
  s = mkPState (len - 1) false false true.
Proof.
  destruct s as [i pl [] []]; unfold state_inv, index_ok; simpl; intros (Hi & Hin & Hout).
  - left. naive_solver.
  - left. naive_solver.
  - right; right. destruct Hout as (-> & -> & ?); done.
  - right; left. done.
Qed.

(** Every button the screen offers keeps the state invariant. *)
Lemma onPress_state_inv s b :
  state_inv p s -> button_enabled s b = true ->
  state_inv p (fst (onPress slides b s)).
Proof.
  intros Hs Hb. destruct (state_inv_cases s Hs) as [-> | [(Hi & Ho & Hlt) | ->]].
  - destruct b; simpl in Hb |- *; try done;
      unfold headerPress; simpl; rewrite ?handleStartRecap_spec by done;
      apply state_inv_playing; lia.
  - destruct s as [i pl a o]; simpl in *; subst a o.
    destruct b; simpl in Hb |- *; try done; unfold headerPress; simpl.
    + rewrite goPrev_spec by done. apply state_inv_playing. simpl. lia.
    + destruct (Nat.eq_dec i (len - 1)) as [-> | Hlast].
      * rewrite goNext_at_last by done. apply state_inv_outro.
      * rewrite goNext_below_last by (simpl; lia). apply state_inv_playing. simpl. lia.
  - destruct b; simpl in Hb |- *; try done; unfold headerPress; simpl;
      rewrite ?handleReplay_spec by done; apply state_inv_playing; lia.
Qed.

(** The interval callback keeps the state invariant while armed. *)
Lemma intervalCallback_state_inv s :
  state_inv p s -> timerArmed slides s = true ->
  state_inv p (intervalCallback slides s).
Proof.
  intros Hs Ha. destruct (state_inv_cases s Hs) as [-> | [(Hi & Ho & Hlt) | ->]].
  - unfold timerArmed in Ha. simpl in Ha. destruct (len =? 0); discriminate.
  - destruct (Nat.eq_dec (currentIndex s) (len - 1)) as [Hl | Hl].
    + rewrite intervalCallback_at_last, Hi, Hl by done. apply state_inv_outro.
    + rewrite intervalCallback_below_last, Hi, Ho by done. apply state_inv_playing. lia.
  - unfold timerArmed in Ha. simpl in Ha. destruct (len =? 0); discriminate.
Qed.
End StateInv.

Section TimerInv.
Context (p : Props).
Local Abbreviation slides := (Recap.slides p).
Local Abbreviation len := (List.length slides).

Lemma timerArmed_deps a b :
  timerDeps a = timerDeps b -> timerArmed slides a = timerArmed slides b.
Proof. unfold timerDeps, timerArmed. intros [= -> -> ->]. reflexivity. Qed.

(** What a commit does: the new state, the same clock and mount, and the
    same interval unless the effect's dependencies changed. *)
Lemma commit_spec old new ss :
  let ss' := commit p old new ss in
  state ss' = new /\ clock ss' = clock ss /\ mounted ss' = mounted ss /\
  ((timerDeps old = timerDeps new /\ timer ss' = timer ss /\ fresh_id ss' = fresh_id ss) \/
   (timerDeps old <> timerDeps new /\
    (timer ss', fresh_id ss') = timerEffect p new (clock ss) (fresh_id ss))).
Proof.
  cbv zeta. unfold commit. case_decide; simpl.
  - repeat split. left. done.
  - destruct (timerEffect p new (clock ss) (fresh_id ss)) eqn:E. simpl.
    repeat split. right. done.
Qed.

Lemma timerEffect_ok s now nid :
  let '(t, nid') := timerEffect p s now nid in
  (is_Some t <-> timerArmed slides s = true) /\
  (forall i, t = Some i -> now <= next_fire i /\ interval_id i < nid') /\ nid <= nid'.
Proof.
  unfold timerEffect. destruct (timerArmed slides s); simpl.
  - split; [split; eauto |]. split; [intros i [= <-]; simpl; lia | lia].
  - split; [split; [intros []; done | done] |]. split; [done | lia].
Qed.

(** A commit on a mounted screen keeps the timer invariant. *)
Lemma commit_timer_ok old new ss :
  mounted ss = true -> state ss = old -> timer_ok p ss -> timer_ok p (commit p old new ss).
Proof.
  intros Hm Hold [Harm Hdue].
  destruct (commit_spec old new ss) as (Hs & Hc & Hm' & [(Hd & Ht & Hf) | (Hd & Heff)]);
    unfold timer_ok; rewrite Hs, Hc, Hm'.
  - rewrite Ht, Hf, <- (timerArmed_deps _ _ Hd), <- Hold. done.
  - pose proof (timerEffect_ok new (clock ss) (fresh_id ss)) as Hok.
    rewrite <- Heff in Hok. destruct Hok as (Ha & Hd' & _). rewrite Ha, Hm. naive_solver.
Qed.

(** A non-empty recap always renders the main screen. *)
Lemma render_nonempty_main s sc :
  len <> 0 -> render p s = Some sc -> exists v, sc = MainScreen v.
Proof.
  unfold render. destruct (Nat.eqb_spec len 0); [done |].
  destruct (slideFrame p s); intros _ [= <-]; eauto.
Qed.

(** A successful press: the button was on screen, and the new session is
    either the unmounted one or the commit of the handler's state. *)
Lemma press_inv b t ss ss' cmd :
  len <> 0 -> press p b t ss = Some (ss', cmd) ->
  mounted ss = true /\ clock ss <= t /\ not_overdue ss t = true /\
  button_enabled (state ss) b = true /\
  ((cmd = RouterBack /\ ss' = mkSession (fst (onPress slides b (state ss))) None t
                                (fresh_id ss) false) \/
   (cmd <> RouterBack /\
    ss' = commit p (state ss) (fst (onPress slides b (state ss)))
            (mkSession (state ss) (timer ss) t (fresh_id ss) (mounted ss)))).
Proof.
  intros Hne. unfold press.
  destruct (mounted ss) eqn:Hm, (Nat.leb_spec (clock ss) t), (not_overdue ss t); simpl;
    try discriminate.
  destruct (render p (state ss)) as [sc |] eqn:Hr; [| discriminate].
  destruct (render_nonempty_main _ _ Hne Hr) as [v ->].
  case_decide as Hin; [| discriminate].
  apply (buttons_iff_enabled p (state ss) v b Hr) in Hin.
  destruct (onPress slides b (state ss)) as [s' c] eqn:E; simpl.
  destruct c; intros [= <- <-]; repeat split; try done; [right | left | right]; done.
Qed.

(** A firing: the interval is armed and the callback's state committed,
    with the interval rescheduled [SLIDE_DURATION_MS] later. *)
Lemma fire_inv ss ss' :
  fire p ss = Some ss' ->
  exists i, timer ss = Some i /\ mounted ss = true /\
    ss' = commit p (state ss) (intervalCallback slides (state ss))
            (mkSession (state ss)
               (Some (mkInterval (interval_id i) (next_fire i + SLIDE_DURATION_MS)))
               (next_fire i) (fresh_id ss) (mounted ss)).
Proof.
  unfold fire. destruct (timer ss) as [i |]; [| done].
  destruct (mounted ss) eqn:Hm; intros [= <-]; eauto.
Qed.
End TimerInv.

Section Reachable.
Context (p : Props).
Local Abbreviation slides := (Recap.slides p).
Local Abbreviation len := (List.length slides).

(** A press moves the clock to [t], no later than the next firing. *)
Lemma timer_ok_at ss t :
  timer_ok p ss -> not_overdue ss t = true ->
  timer_ok p (mkSession (state ss) (timer ss) t (fresh_id ss) (mounted ss)).
Proof.
  unfold not_overdue. intros [Harm Hdue] Hov. split; [done |].
  simpl. intros i Hi. rewrite Hi in Hov. apply Nat.leb_le in Hov.
  destruct (Hdue i Hi). lia.
Qed.

(** A firing moves the clock to the due time and reschedules the same
    interval one period later. *)
Lemma timer_ok_fired ss i :
  timer_ok p ss -> timer ss = Some i ->
  timer_ok p (mkSession (state ss)
                (Some (mkInterval (interval_id i) (next_fire i + SLIDE_DURATION_MS)))
                (next_fire i) (fresh_id ss) (mounted ss)).
Proof.
  intros [Harm Hdue] Hi. split; simpl.
  - rewrite <- Harm, Hi. split; eauto.
  - intros j [= <-]; simpl. destruct (Hdue i Hi). unfold SLIDE_DURATION_MS. lia.
Qed.

Hypothesis Hne : len <> 0.

Lemma mount_session_inv : session_inv p (mount p).
Proof.
  unfold mount, timerEffect, timerArmed. simpl. rewrite andb_true_r, andb_false_r.
  split; [apply state_inv_initial; done |].
  unfold timer_ok, timerArmed. simpl. rewrite andb_true_r, andb_false_r.
  split; [split; [intros []; done | intros [_ ?]; done] | done].
Qed.

(** Every event keeps the session invariant. *)
Lemma step_session_inv ss ss' :
  session_inv p ss -> step_rel p ss ss' -> session_inv p ss'.
Proof.
  intros [Hs Ht] (e & cmd & Hstep). destruct e as [b t |]; simpl in Hstep.
  - destruct (press_inv p b t ss ss' cmd Hne Hstep)
      as (Hm & Hc & Hov & Hb & [(-> & ->) | (_ & ->)]).
    + split; [by apply onPress_state_inv | split; simpl; [split; [intros []; done | naive_solver] | done]].
    + destruct (commit_spec p (state ss) (fst (onPress slides b (state ss)))
                  (mkSession (state ss) (timer ss) t (fresh_id ss) (mounted ss))) as (Hst & _).
      split; [rewrite Hst; by apply onPress_state_inv |].
      apply commit_timer_ok; [done | done | by apply timer_ok_at].
  - destruct (fire p ss) as [ss1 |] eqn:Hf; simplify_eq/=.
    destruct (fire_inv p ss ss' Hf) as (i & Hi & Hm & ->).
    destruct (commit_spec p (state ss) (intervalCallback slides (state ss))
                (mkSession (state ss)
                   (Some (mkInterval (interval_id i) (next_fire i + SLIDE_DURATION_MS)))
                   (next_fire i) (fresh_id ss) (mounted ss))) as (Hst & _).
    assert (Ha : timerArmed slides (state ss) = true).
    { apply (proj1 Ht). rewrite Hi. eauto. }
    split; [rewrite Hst; by apply intervalCallback_state_inv |].
    apply commit_timer_ok; [done | done | by apply timer_ok_fired].
Qed.

Lemma reachable_session_inv ss : reachable p ss -> session_inv p ss.
Proof.
  apply rtc_preserved; [apply step_session_inv | apply mount_session_inv].
Qed.
End Reachable.

Lemma run_reachable p ss es ss' :
  run p ss es = Some ss' -> rtc (step_rel p) ss ss'.
Proof.
  revert ss. induction es as [| e es IH]; simpl; intros ss H; [by simplify_eq |].
  destruct (step p ss e) as [[ss1 c] |] eqn:E; [| done].
  eapply rtc_l; [exists e, c; exact E | by apply IH].
Qed.

Section Autoplay.
Context (p : Props).
Local Abbreviation slides := (Recap.slides p).
Local Abbreviation len := (List.length slides).
Hypothesis Hne : len <> 0.

Lemma fire_step ss ss' : fire p ss = Some ss' -> step_rel p ss ss'.
Proof. intros H. exists Fire, NoCommand. simpl. rewrite H. done. Qed.

(** An armed interval in an invariant session is the playing phase. *)
Lemma armed_playing ss i :
  session_inv p ss -> timer ss = Some i ->
  mounted ss = true /\ isPlaying (state ss) = true /\ showIntro (state ss) = false /\
  showOutro (state ss) = false /\ currentIndex (state ss) < len /\
  clock ss <= next_fire i.
Proof.
  intros [[Hidx _] [Harm Hdue]] Hi.
  destruct (proj1 Harm) as [Hm Ha]; [rewrite Hi; eauto |].
  unfold timerArmed in Ha. destruct (Hdue i Hi).
  destruct (isPlaying (state ss)), (showIntro (state ss)), (showOutro (state ss)); simpl in Ha;
    rewrite ?andb_false_r in Ha; try discriminate. done.
Qed.

(** A firing before the last slide advances and keeps the interval. *)
Lemma fire_below_last ss i :
  session_inv p ss -> timer ss = Some i -> currentIndex (state ss) < len - 1 ->
  fire p ss = Some (mkSession (mkPState (S (currentIndex (state ss))) true false false)
                     (Some (mkInterval (interval_id i) (next_fire i + SLIDE_DURATION_MS)))
                     (next_fire i) (fresh_id ss) true).
Proof.
  intros Hinv Hi Hlt. destruct (armed_playing ss i Hinv Hi) as (Hm & Hp & Ha & Ho & _).
  unfold fire. rewrite Hi, Hm. f_equal.
  rewrite intervalCallback_below_last by lia. rewrite Hp, Ha, Ho.
  unfold commit, timerDeps. simpl. rewrite Hp, Ha, Ho. case_decide; done.
Qed.

(** The firing at the last slide shows the outro and clears the interval. *)
Lemma fire_at_last ss i :
  session_inv p ss -> timer ss = Some i -> currentIndex (state ss) = len - 1 ->
  fire p ss = Some (mkSession (mkPState (len - 1) false false true) None
                     (next_fire i) (fresh_id ss) true).
Proof.
  intros Hinv Hi Hl. destruct (armed_playing ss i Hinv Hi) as (Hm & Hp & Ha & Ho & _).
  unfold fire. rewrite Hi, Hm. f_equal.
  rewrite intervalCallback_at_last by done. rewrite Hl, Ha.
  unfold commit, timerDeps. simpl. rewrite Hp, Ha, Ho. case_decide as Hd; [done |].
  unfold timerEffect, timerArmed. done.
Qed.

(** With no user input, an armed interval plays the remaining slides and
    reaches the outro after exactly [len - index] firings, the last one
    [SLIDE_DURATION_MS * (len - 1 - index)] after the next due time; the
    interval is then cleared. *)
Lemma autoplay_from ss i :
  session_inv p ss -> timer ss = Some i ->
  exists ss', fire_n p (len - currentIndex (state ss)) ss = Some ss' /\
    rtc (step_rel p) ss ss' /\
    state ss' = mkPState (len - 1) false false true /\ timer ss' = None /\
    clock ss' = next_fire i + SLIDE_DURATION_MS * (len - 1 - currentIndex (state ss)).
Proof.
  remember (len - 1 - currentIndex (state ss)) as k eqn:Hk.
  revert ss i Hk. induction k as [| k IH]; intros ss i Hk Hinv Hi;
    destruct (armed_playing ss i Hinv Hi) as (_ & _ & _ & _ & Hlt & _).
  - replace (len - currentIndex (state ss)) with 1 by lia. simpl.
    rewrite (fire_at_last ss i Hinv Hi) by lia.
    eexists; split; [done |]. split; [apply rtc_once, fire_step, fire_at_last; (done || lia) |].
    simpl. repeat split; lia.
  - replace (len - currentIndex (state ss)) with (S (len - S (currentIndex (state ss)))) by lia.
    simpl. rewrite (fire_below_last ss i Hinv Hi) by lia.
    set (ss1 := mkSession _ _ _ _ _).
    assert (Hinv1 : session_inv p ss1).
    { eapply step_session_inv; [done | done | apply fire_step, fire_below_last; (done || lia)]. }
    destruct (IH ss1 (mkInterval (interval_id i) (next_fire i + SLIDE_DURATION_MS)))
      as (ss' & Hrun & Hr & Hs & Ht & Hc); simpl; try done; [lia |].
    exists ss'. split; [done |]. split.
    + eapply rtc_l; [apply fire_step, fire_below_last; (done || lia) | done].
    + rewrite Hs, Ht, Hc. simpl. repeat split. unfold SLIDE_DURATION_MS in *. lia.
Qed.

(** The screen of an invariant session offers an enabled button. *)
Lemma press_enabled ss b t :
  session_inv p ss -> mounted ss = true -> clock ss <= t -> not_overdue ss t = true ->
  button_enabled (state ss) b = true ->
  press p b t ss =
    let '(s', cmd) := onPress slides b (state ss) in
    match cmd with
    | RouterBack => Some (mkSession s' None t (fresh_id ss) false, cmd)
    | _ => Some (commit p (state ss) s' (mkSession (state ss) (timer ss) t
                                           (fresh_id ss) (mounted ss)), cmd)
    end.
Proof.
  intros [[Hi _] _] Hm Hc Hov Hb. unfold press. rewrite Hm, Hov.
  destruct (Nat.leb_spec (clock ss) t); [| lia]. simpl.
  destruct (render_total p (state ss) Hne Hi) as (v & _ & Hv & _). rewrite Hv.
  case_decide as Hin; [done |]. exfalso. apply Hin.
  by apply (buttons_iff_enabled p (state ss) v b Hv).
Qed.

(** A tap on the right zone while playing, before the last slide, moves
    one slide on and leaves the running interval as it was. *)
Lemma press_next_playing ss i t :
  session_inv p ss -> timer ss = Some i -> currentIndex (state ss) < len - 1 ->
  clock ss <= t <= next_fire i ->
  press p TapZoneRight t ss =
    Some (mkSession (mkPState (S (currentIndex (state ss))) true false false) (Some i) t
            (fresh_id ss) true, NoCommand).
Proof.
  intros Hinv Hi Hlt Ht. destruct (armed_playing ss i Hinv Hi) as (Hm & Hp & Ha & Ho & _).
  rewrite press_enabled;
    [| done | done | lia | unfold not_overdue; rewrite Hi; apply Nat.leb_le; lia
     | simpl; rewrite Ha, Ho; done].
  simpl. rewrite goNext_below_last by done. rewrite Hp, Ha, Hi, Hm.
  unfold commit, timerDeps. simpl. rewrite Hp, Ha, Ho. case_decide; done.
Qed.

(** The header button toggles playback in the main phase: pausing clears
    the interval, resuming arms a fresh one due a full period later. *)
Lemma press_toggle ss t k pl :
  session_inv p ss -> mounted ss = true -> clock ss <= t -> not_overdue ss t = true ->
  state ss = mkPState k pl false false ->
  press p PlayPauseButton t ss =
    Some (if pl then mkSession (mkPState k false false false) None t (fresh_id ss) true
          else mkSession (mkPState k true false false)
                 (Some (mkInterval (fresh_id ss) (t + SLIDE_DURATION_MS))) t
                 (S (fresh_id ss)) true, NoCommand).
Proof.
  intros Hinv Hm Hc Hov Hs. rewrite press_enabled; [| done.. | rewrite Hs; done].
  rewrite Hs. simpl. unfold headerPress. simpl. rewrite Hm.
  unfold commit, timerDeps. simpl. destruct pl; simpl; [reflexivity |].
  unfold timerEffect, timerArmed. simpl. destruct (Nat.eqb_spec len 0); [done | reflexivity].
Qed.

(** What an event does to the player's state: a firing runs the interval
    callback in an armed state; a press runs the handler of a button the
    screen offers. *)
Lemma step_state ss e ss' cmd :
  session_inv p ss -> step p ss e = Some (ss', cmd) ->
  (e = Fire /\ timerArmed slides (state ss) = true /\
     state ss' = intervalCallback slides (state ss)) \/
  (exists b t, e = Press b t /\ button_enabled (state ss) b = true /\
     state ss' = fst (onPress slides b (state ss))).
Proof.
  intros [_ [Harm _]] Hstep. destruct e as [b t |]; simpl in Hstep.
  - right. exists b, t.
    destruct (press_inv p b t ss ss' cmd Hne Hstep)
      as (_ & _ & _ & Hb & [(_ & ->) | (_ & ->)]); [done |].
    split; [done |]. split; [done |]. apply commit_spec.
  - left. destruct (fire p ss) as [ss1 |] eqn:Hf; simplify_eq/=.
    destruct (fire_inv p ss ss' Hf) as (i & Hi & _ & ->).
    split; [done |]. split; [apply (proj1 Harm); rewrite Hi; eauto | apply commit_spec].
Qed.

(** Only [router.back()] unmounts the screen. *)
Lemma step_mounted ss e ss' cmd :
  step p ss e = Some (ss', cmd) -> cmd <> RouterBack -> mounted ss' = mounted ss.
Proof.
  intros Hstep Hc. destruct e as [b t |]; simpl in Hstep.
  - destruct (press_inv p b t ss ss' cmd Hne Hstep) as (_ & _ & _ & _ & [[? _] | [_ ->]]);
      [done |].
    by destruct (commit_spec p (state ss) (fst (onPress slides b (state ss)))
                   (mkSession (state ss) (timer ss) t (fresh_id ss) (mounted ss))) as (_ & _ & -> & _).
  - destruct (fire p ss) as [ss1 |] eqn:Hf; simplify_eq/=.
    destruct (fire_inv p ss ss' Hf) as (i & _ & _ & ->).
    match goal with |- mounted (commit p ?o ?n ?x) = _ =>
      by destruct (commit_spec p o n x) as (_ & _ & -> & _) end.
Qed.
End Autoplay.

Section Empty.
Context (p : Props).
Hypothesis Hempty : List.length (Recap.slides p) = 0.

Lemma empty_step ss ss' :
  timer ss = None /\ state ss = initial_state -> step_rel p ss ss' ->
  timer ss' = None /\ state ss' = initial_state.
Proof.
  intros [Ht Hs] (e & cmd & Hstep). destruct e as [b t |]; simpl in Hstep.
  - unfold press in Hstep.
    destruct (mounted ss && (clock ss <=? t) && not_overdue ss t); [| done].
    rewrite (proj1 (render_empty_only_back p (state ss) Hempty)) in Hstep. simpl in Hstep.
    case_decide as Hin; [| done]. apply list_elem_of_singleton in Hin as ->.
    simpl in Hstep. simplify_eq/=. done.
  - unfold fire in Hstep. rewrite Ht in Hstep. done.
Qed.
End Empty.

(** ** Properties *)

Section Properties.
Context (p : Props).
Local Abbreviation slides := (Recap.slides p).
Local Abbreviation len := (List.length slides).

(** C1. In every reachable session of a non-empty recap the index stays
    in [0, length - 1] and the screen renders without throwing. *)
Theorem session_index_in_range ss :
  len <> 0 -> reachable p ss ->
  index_ok slides (state ss) /\ exists v, render p (state ss) = Some (MainScreen v).
Proof.
  intros Hne Hr. destruct (reachable_session_inv p Hne ss Hr) as [[Hi _] _].
  split; [done |]. destruct (render_total p (state ss) Hne Hi) as (v & _ & Hv & _). eauto.
Qed.

(** C3. At most one interval is armed, and it is armed exactly when the
    screen is mounted and the effect's guard [isPlaying && slides.length
    > 0 && !showIntro && !showOutro] holds; it is never overdue. *)
Theorem session_timer_iff_guard ss :
  len <> 0 -> reachable p ss ->
  (is_Some (timer ss) <-> mounted ss = true /\ timerArmed slides (state ss) = true) /\
  (forall i, timer ss = Some i -> clock ss <= next_fire i).
Proof.
  intros Hne Hr. destruct (reachable_session_inv p Hne ss Hr) as [_ [Harm Hdue]].
  split; [done | intros i Hi; apply Hdue, Hi].
Qed.

(** C4. Left alone, a playing session reaches the outro: after exactly
    [length - index] firings the last slide is on screen with the outro
    card, playback stopped and the interval cleared. *)
Theorem autoplay_reaches_outro ss i :
  len <> 0 -> reachable p ss -> timer ss = Some i ->
  exists ss', fire_n p (len - currentIndex (state ss)) ss = Some ss' /\ reachable p ss' /\
    state ss' = mkPState (len - 1) false false true /\ timer ss' = None /\
    clock ss' = next_fire i + SLIDE_DURATION_MS * (len - 1 - currentIndex (state ss)).
Proof.
  intros Hne Hr Hi.
  destruct (autoplay_from p Hne ss i (reachable_session_inv p Hne ss Hr) Hi)
    as (ss' & Hrun & Hss' & Hrest). exists ss'. split; [done |]. split; [| done].
  unfold reachable. etrans; [exact Hr | exact Hss'].
Qed.

(** C5. A manual "next" while playing does not restart the interval: the
    index moves one slide on and the armed interval, with its due time,
    is kept, so the following auto-advance can come at once. *)
Theorem manual_next_keeps_interval ss i t :
  len <> 0 -> reachable p ss -> timer ss = Some i -> currentIndex (state ss) < len - 1 ->
  clock ss <= t <= next_fire i ->
  exists ss', press p TapZoneRight t ss = Some (ss', NoCommand) /\
    currentIndex (state ss') = S (currentIndex (state ss)) /\ timer ss' = Some i.
Proof.
  intros Hne Hr Hi Hlt Ht.
  rewrite (press_next_playing p Hne ss i t (reachable_session_inv p Hne ss Hr) Hi Hlt Ht).
  eauto.
Qed.

(** C6. The header button pauses by clearing the interval and resumes by
    arming a fresh one, due a full [SLIDE_DURATION_MS] after the press. *)
Theorem play_pause_rearms ss t :
  len <> 0 -> reachable p ss -> mounted ss = true ->
  showIntro (state ss) = false -> showOutro (state ss) = false ->
  clock ss <= t -> not_overdue ss t = true ->
  exists ss', press p PlayPauseButton t ss = Some (ss', NoCommand) /\
    isPlaying (state ss') = negb (isPlaying (state ss)) /\
    timer ss' = (if isPlaying (state ss) then None
                 else Some (mkInterval (fresh_id ss) (t + SLIDE_DURATION_MS))).
Proof.
  intros Hne Hr Hm Ha Ho Hc Hov. destruct (state ss) as [k pl a o] eqn:Hs. simpl in *; subst.
  rewrite (press_toggle p Hne ss t k pl (reachable_session_inv p Hne ss Hr) Hm Hc Hov Hs).
  destruct pl; eauto.
Qed.
(** C30. [state_inv] is the type of the player's state on a non-empty
    recap (the intro card on the first slide, a slide in range with no
    card, or the outro card on the last slide, stopped): the initial
    state has it, and every handler of a button the screen offers and
    the callback of an armed interval preserve it. *)
Theorem player_state_wf :
  len <> 0 ->
  state_inv p initial_state /\
  (forall s b, state_inv p s -> button_enabled s b = true ->
     state_inv p (fst (onPress slides b s))) /\
  (forall s, state_inv p s -> timerArmed slides s = true ->
     state_inv p (intervalCallback slides s)).
Proof.
  intros Hne. split_and!.
  - by apply state_inv_initial.
  - intros s b. by apply onPress_state_inv.
  - intros s. by apply intervalCallback_state_inv.
Qed.
End Properties.

(** C7. A recap with no slides never arms a timer and never changes the
    player's state; every state renders the empty screen, which only
    offers Back; and the timer effect's guard refuses to arm in every
    player state, whatever its flags. *)
Theorem empty_recap_never_arms p ss :
  List.length (Recap.slides p) = 0 -> reachable p ss ->
  timer ss = None /\ state ss = initial_state /\
  render p (state ss) = Some EmptyScreen /\ buttons EmptyScreen = [BackButton] /\
  (forall s, timerArmed (Recap.slides p) s = false).
Proof.
  intros H Hr.
  destruct (rtc_preserved (step_rel p)
              (fun ss => timer ss = None /\ state ss = initial_state) (mount p))
    with (y := ss) as [Ht Hs]; [by apply empty_step | | done |].
  - unfold mount, timerEffect, timerArmed. simpl. by rewrite andb_true_r, andb_false_r.
  - destruct (render_empty_only_back p (state ss) H) as [Hr1 Hb].
    split_and!; [done | done | done | done |].
    intros s. unfold timerArmed. rewrite H. simpl. by rewrite andb_false_r.
Qed.

(** Witness of C4: three slides, started at 0 ms, one firing at 2500 ms;
    two more firings reach the outro at 7500 ms. *)
Lemma session_index_in_range_witness :
  let ss := mkSession (mkPState 2 false false true) None 7500 1 true in
  List.length (Recap.slides (sample_recap 3)) <> 0 /\ reachable (sample_recap 3) ss /\
  index_ok (Recap.slides (sample_recap 3)) (state ss) /\
  exists v, render (sample_recap 3) (state ss) = Some (MainScreen v).
Proof.
  intros ss.
  assert (Hr : reachable (sample_recap 3) ss)
    by (apply (run_reachable _ _ [Press IntroPlayButton 0; Fire; Fire; Fire]);
        vm_compute; reflexivity).
  split; [vm_compute; lia |]. split; [exact Hr |].
  apply (session_index_in_range (sample_recap 3) ss); [vm_compute; lia | exact Hr].
Defined.

Lemma session_timer_iff_guard_witness :
  let ss := mkSession (mkPState 0 true false false) (Some (mkInterval 0 2500)) 0 1 true in
  reachable (sample_recap 3) ss /\
  (is_Some (timer ss) <-> mounted ss = true /\ timerArmed (Recap.slides (sample_recap 3)) (state ss) = true) /\
  (forall i, timer ss = Some i -> clock ss <= next_fire i).
Proof.
  intros ss.
  assert (Hr : reachable (sample_recap 3) ss)
    by (apply (run_reachable _ _ [Press IntroPlayButton 0]); vm_compute; reflexivity).
  split; [exact Hr |].
  apply (session_timer_iff_guard (sample_recap 3) ss); [vm_compute; lia | exact Hr].
Defined.

(** Witness of C5: a tap at 2499 ms moves to slide 1; the untouched
    interval then fires at 2500 ms and moves to slide 2, 1 ms later. *)
Lemma manual_next_keeps_interval_witness :
  let ss := mkSession (mkPState 0 true false false) (Some (mkInterval 0 2500)) 0 1 true in
  exists ss', press (sample_recap 3) TapZoneRight 2499 ss = Some (ss', NoCommand) /\
    currentIndex (state ss') = 1 /\ timer ss' = Some (mkInterval 0 2500) /\
    option_map (fun ss'' => (currentIndex (state ss''), clock ss''))
      (fire (sample_recap 3) ss') = Some (2, 2500).
Proof.
  intros ss.
  destruct (manual_next_keeps_interval (sample_recap 3) ss (mkInterval 0 2500) 2499)
    as (ss' & H1 & H2 & H3);
    [vm_compute; lia
    | apply (run_reachable _ _ [Press IntroPlayButton 0]); vm_compute; reflexivity
    | reflexivity | vm_compute; lia | vm_compute; lia |].
  exists ss'. split; [exact H1 | split; [exact H2 | split; [exact H3 |]]].
  vm_compute in H1. injection H1 as <-. vm_compute. reflexivity.
Defined.

Lemma play_pause_rearms_witness :
  let ss := mkSession (mkPState 0 true false false) (Some (mkInterval 0 2500)) 0 1 true in
  exists ss', press (sample_recap 3) PlayPauseButton 1000 ss = Some (ss', NoCommand) /\
    isPlaying (state ss') = false /\ timer ss' = None.
Proof.
  intros ss.
  destruct (play_pause_rearms (sample_recap 3) ss 1000) as (ss' & H1 & H2 & H3);
    [vm_compute; lia
    | apply (run_reachable _ _ [Press IntroPlayButton 0]); vm_compute; reflexivity
    | reflexivity | reflexivity | reflexivity | vm_compute; lia | reflexivity |].
  exists ss'. split; [exact H1 |]. split; [exact H2 | exact H3].
Defined.

Lemma empty_recap_never_arms_witness :
  let ss := mkSession initial_state None 5 0 false in
  reachable (sample_recap 0) ss /\ timer ss = None /\ state ss = initial_state /\
  render (sample_recap 0) (state ss) = Some EmptyScreen /\ buttons EmptyScreen = [BackButton] /\
  (forall s, timerArmed (Recap.slides (sample_recap 0)) s = false).
Proof.
  intros ss.
  assert (Hr : reachable (sample_recap 0) ss)
    by (apply (run_reachable _ _ [Press BackButton 5]); vm_compute; reflexivity).
  split; [exact Hr |]. apply (empty_recap_never_arms (sample_recap 0) ss); [reflexivity | exact Hr].
Defined.

Lemma autoplay_reaches_outro_witness :
  let ss := mkSession (mkPState 1 true false false) (Some (mkInterval 0 5000)) 2500 1 true in
  run (sample_recap 3) (mount (sample_recap 3)) [Press IntroPlayButton 0; Fire] = Some ss /\
  exists ss', fire_n (sample_recap 3) 2 ss = Some ss' /\ reachable (sample_recap 3) ss' /\
    state ss' = mkPState 2 false false true /\ timer ss' = None /\ clock ss' = 7500.
Proof.
  intros ss. split; [vm_compute; reflexivity |].
  destruct (autoplay_reaches_outro (sample_recap 3) ss (mkInterval 0 5000))
    as (ss' & H1 & H2 & H3 & H4 & H5);
    [vm_compute; lia | apply (run_reachable _ _ [Press IntroPlayButton 0; Fire]); vm_compute; reflexivity
    | reflexivity |].
  exists ss'. vm_compute in H1, H3, H5. repeat split; assumption.
Defined.

Lemma player_state_wf_witness :
  List.length (Recap.slides (sample_recap 3)) <> 0 /\
  state_inv (sample_recap 3) initial_state /\
  state_inv (sample_recap 3)
    (fst (onPress (Recap.slides (sample_recap 3)) TapZoneRight (mkPState 1 true false false))).
Proof.
  assert (Hne : List.length (Recap.slides (sample_recap 3)) <> 0) by (simpl; lia).
  destruct (player_state_wf (sample_recap 3) Hne) as (H0 & H1 & _).
  split; [exact Hne | split; [exact H0 |]].
  apply H1; [| reflexivity]. split_and!; simpl; try done. unfold index_ok. simpl. lia.
Defined.

End Session.
