(* ===== verification/PlayerSpec.v ===== *)
(** * The spec's playback state machine and the refinement of it

    [Module PlayerSpec] states the contract of the player as the spec's
    transition table (spec section 4.1): phases [Intro], [Playing],
    [Paused], [Outro] and [Empty], an index, and the user and timer events
    that move between them.  [abs] reads a phase off the four React flags
    of [Player.PState]; [abs_event] names the abstract event a concrete
    event is (a press of the header button is a start, a replay, a pause
    or a resume depending on the flags; close and share are no playback
    event).

    The refinement theorem: every step of a reachable session of a
    non-empty recap is the abstract step of its event, or a stutter when
    the event is no playback event. *)

From S2P Require Import Prelude Player Recap View Session.
From stdpp Require Import strings.

Module PlayerSpec.

Import Player Recap View Session.
#[local] Open Scope nat_scope.

Inductive Phase := Intro | Playing | Paused | Outro | Empty.

#[export] Instance Phase_eq_dec : EqDecision Phase.
Proof. solve_decision. Defined.

Record AState := mkAState { phase : Phase; index : nat }.

Inductive AEvent :=
| UserStarts | TimerFires | UserPauses | UserResumes
| NavForward | NavBackward | UserReplays.

(** The transition table of spec section 4.1, for a recap of [len]
    slides. *)
Inductive spec_step (len : nat) : AState -> AEvent -> AState -> Prop :=
| start i : spec_step len (mkAState Intro i) UserStarts (mkAState Playing 0)
| timer_next i : i < len - 1 ->
    spec_step len (mkAState Playing i) TimerFires (mkAState Playing (S i))
| timer_last : spec_step len (mkAState Playing (len - 1)) TimerFires (mkAState Outro (len - 1))
| pause i : spec_step len (mkAState Playing i) UserPauses (mkAState Paused i)
| forward_last_playing :
    spec_step len (mkAState Playing (len - 1)) NavForward (mkAState Outro (len - 1))
| forward_playing i : i < len - 1 ->
    spec_step len (mkAState Playing i) NavForward (mkAState Playing (S i))
| backward_playing i :
    spec_step len (mkAState Playing i) NavBackward (mkAState Playing (Nat.pred i))
| resume i : spec_step len (mkAState Paused i) UserResumes (mkAState Playing i)
| forward_last_paused :
    spec_step len (mkAState Paused (len - 1)) NavForward (mkAState Outro (len - 1))
| forward_paused i : i < len - 1 ->
    spec_step len (mkAState Paused i) NavForward (mkAState Paused (S i))
| backward_paused i :
    spec_step len (mkAState Paused i) NavBackward (mkAState Paused (Nat.pred i))
| replay i : spec_step len (mkAState Outro i) UserReplays (mkAState Playing 0).

(** The phase the four flags stand for. *)
Definition abs (len : nat) (s : PState) : AState :=
  mkAState
    (if len =? 0 then Empty
     else if showIntro s then Intro
     else if showOutro s then Outro
     else if isPlaying s then Playing else Paused)
    (currentIndex s).

(** The abstract event of a concrete event in state [s]. *)
Definition abs_event (s : PState) (e : Event) : option AEvent :=
  match e with
  | Fire => Some TimerFires
  | Press b _ =>
      match b with
      | TapZoneRight => Some NavForward
      | TapZoneLeft => Some NavBackward
      | IntroPlayButton => Some UserStarts
      | OutroWatchAgain => Some UserReplays
      | PlayPauseButton =>
          Some (if showIntro s then UserStarts
                else if showOutro s then UserReplays
                else if isPlaying s then UserPauses else UserResumes)
      | BackButton | CloseButton | OutroShare | FooterShare => None
      end
  end.

(** A concrete step refines the abstract one, or stutters. *)
Definition refines (len : nat) (a : AState) (oe : option AEvent) (a' : AState) : Prop :=
  match oe with
  | Some ae => spec_step len a ae a'
  | None => a' = a
  end.

(** ** Lemmas *)

Section Refinement.
Context (p : Props).
Local Abbreviation slides := (Recap.slides p).
Local Abbreviation len := (List.length slides).
Hypothesis Hne : len <> 0.

Lemma abs_nonempty s :
  abs len s = mkAState (if showIntro s then Intro else if showOutro s then Outro
                        else if isPlaying s then Playing else Paused) (currentIndex s).
Proof. unfold abs. destruct (Nat.eqb_spec len 0); done. Qed.

(** The interval callback of an armed state is a timer step. *)
Lemma intervalCallback_refines s :
  state_inv p s -> timerArmed slides s = true ->
  spec_step len (abs len s) TimerFires (abs len (intervalCallback slides s)).
Proof.
  intros Hs Ha. unfold timerArmed in Ha.
  destruct s as [i [] [] []]; simpl in Ha; rewrite ?andb_false_r in Ha; try discriminate.
  destruct Hs as [Hi _]. unfold index_ok in Hi; simpl in Hi.
  rewrite !abs_nonempty. simpl.
  destruct (Nat.eq_dec i (len - 1)) as [-> | Hl].
  - rewrite intervalCallback_at_last by done. constructor.
  - rewrite intervalCallback_below_last by done. constructor. lia.
Qed.

(** Each button the screen offers is the abstract step of its event. *)
Lemma onPress_refines s b t :
  state_inv p s -> button_enabled s b = true ->
  refines len (abs len s) (abs_event s (Press b t)) (abs len (fst (onPress slides b s))).
Proof.
  intros Hs Hb. destruct (state_inv_cases p s Hs) as [-> | [(Hi & Ho & Hlt) | ->]].
  - destruct b; simpl in Hb |- *; try done; unfold headerPress; simpl;
      rewrite handleStartRecap_spec by done; rewrite !abs_nonempty; constructor.
  - destruct s as [i pl a o]; simpl in *; subst a o.
    destruct b; simpl in Hb |- *; try done; unfold headerPress; simpl;
      rewrite ?goPrev_spec by done; rewrite !abs_nonempty; simpl.
    + destruct pl; constructor.
    + destruct pl; constructor.
    + destruct (Nat.eq_dec i (len - 1)) as [-> | Hl].
      * rewrite goNext_at_last by done. simpl. destruct pl; constructor.
      * rewrite goNext_below_last by (simpl; lia). simpl.
        destruct pl; constructor; lia.
  - destruct b; simpl in Hb |- *; try done; unfold headerPress; simpl;
      rewrite handleReplay_spec by done; rewrite !abs_nonempty; constructor.
Qed.
End Refinement.

(** ** Properties *)

(** C2. Refinement: every step of a reachable session of a non-empty
    recap is the spec's transition for its event (timer, forward,
    backward, start, pause, resume, replay), or leaves the abstract state
    unchanged when the event is close or share. *)
Theorem session_refines_spec p ss e ss' cmd :
  List.length (Recap.slides p) <> 0 -> reachable p ss -> step p ss e = Some (ss', cmd) ->
  refines (List.length (Recap.slides p)) (abs (List.length (Recap.slides p)) (state ss))
    (abs_event (state ss) e) (abs (List.length (Recap.slides p)) (state ss')).
Proof.
  intros Hne Hr Hstep. pose proof (reachable_session_inv p Hne ss Hr) as Hinv.
  destruct (step_state p Hne ss e ss' cmd Hinv Hstep)
    as [(-> & Ha & ->) | (b & t & -> & Hb & ->)].
  - apply intervalCallback_refines; [done | apply Hinv | done].
  - apply onPress_refines; [done | apply Hinv | done].
Qed.

(** Witness of C2: on three slides, the start press is the spec's start. *)
Lemma session_refines_spec_witness :
  spec_step 3 (mkAState Intro 0) UserStarts (mkAState Playing 0).
Proof.
  pose proof (session_refines_spec (sample_recap 3) (mount (sample_recap 3))
                (Press IntroPlayButton 0)
                (mkSession (mkPState 0 true false false) (Some (mkInterval 0 2500)) 0 1 true)
                NoCommand) as H.
  vm_compute in H. apply H; [lia | apply rtc_refl | reflexivity].
Defined.

End PlayerSpec.
