(* ===== verification/Animation.v ===== *)
(** * The slide-in animation ([src/slideshow.tsx], lines 57-83, 129-144
    and 276-286)

    [Module Anim] models the two [Animated.Value]s of the image, its
    [scaleAnim] (the Ken Burns zoom, from 1.05 to 1 in 1400 ms) and its
    [opacityAnim] (the fade-in, from 0 to 1 in 450 ms), and when the
    screen restarts them: [animateSlideIn] (lines 62-78) resets both and
    starts both timings; it is called by the effect on
    [[currentIndex, slides.length]] (lines 80-83), which runs after a
    commit that changed the index (and at mount), and directly by
    [handleStartRecap] and [handleReplay] (lines 134 and 142), also when
    the header button calls them.

    A timing is its start and end values, its start time and duration.
    [Animated.timing]'s default easing is a library curve: it is a
    section variable [ease] on [0, 1] with values in [0, 1], below 1
    before the end.  [ASession] adds the animation state to a
    [Session.Session]; [astep] is [Session.step] followed by the
    animation calls of the handler and of the effect. *)

From S2P Require Import Prelude Player Recap View Session.
From stdpp Require Import strings.
From Stdlib Require Import QArith Lqa.

Module Anim.

Import Player Recap View Session.
#[local] Open Scope nat_scope.

(** An [Animated.timing] run: from [v_from] to [v_to] over [t_dur]
    milliseconds from [t_start]; a value set with [setValue] is a timing
    of duration 0. *)
Record Timing := mkTiming {
  v_from : Q;
  v_to : Q;
  t_start : nat;
  t_dur : nat
}.

(** The image's two animated values (lines 58-59 and 281-282). *)
Record Anim := mkAnim {
  scaleAnim : Timing;
  opacityAnim : Timing
}.

Definition still (v : Q) : Timing := mkTiming v v 0 0.

(** [useRef(new Animated.Value(1.05))] and [useRef(new Animated.Value(0))]
    (lines 58-59). *)
Definition anim_initial : Anim := mkAnim (still (105 # 100)) (still 0).

(** [animateSlideIn] (lines 61-78): [setValue(1.05)], [setValue(0)], then
    both timings started together at [now]. *)
Definition animateSlideIn (now : nat) : Anim :=
  mkAnim (mkTiming (105 # 100) 1 now 1400) (mkTiming 0 1 now 450).

Section Easing.
Variable ease : Q -> Q.

(** The value of a timing at time [t]. *)
Definition value_at (tm : Timing) (t : nat) : Q :=
  if t <=? t_start tm then v_from tm
  else if t_start tm + t_dur tm <=? t then v_to tm
  else v_from tm + (v_to tm - v_from tm) *
                     ease (Z.of_nat (t - t_start tm) # Pos.of_nat (t_dur tm)).
End Easing.

(** A slideshow with its animation. *)
Record ASession := mkASession {
  sess : Session;
  anim : Anim
}.

Section Animated.
Context (p : Props).
Local Abbreviation slides := (Recap.slides p).
Local Abbreviation len := (List.length slides).

(** Whether the handler of a press calls [animateSlideIn] itself:
    [handleStartRecap] and [handleReplay] do, unless the recap is empty
    (their early return, lines 130 and 139); the header button calls them
    on the intro and outro cards (lines 242-249). *)
Definition calls_animate (b : Button) (s : PState) : bool :=
  negb (len =? 0) &&
  match b with
  | IntroPlayButton | OutroWatchAgain => true
  | PlayPauseButton => showIntro s || showOutro s
  | _ => false
  end.

(** Mounting: the effect's first run animates a non-empty recap (lines
    80-83). *)
Definition amount : ASession :=
  mkASession (mount p) (if len =? 0 then anim_initial else animateSlideIn 0).

(** One event: the session's step, the handler's own [animateSlideIn],
    then, unless the screen unmounted, the effect when the index changed. *)
Definition astep (a : ASession) (e : Event) : option (ASession * Command) :=
  match step p (sess a) e with
  | None => None
  | Some (ss', cmd) =>
      let now := clock ss' in
      let a1 := match e with
                | Press b _ => if calls_animate b (state (sess a)) then animateSlideIn now
                               else anim a
                | Fire => anim a
                end in
      let a2 := match cmd with
                | RouterBack => a1
                | _ => if negb (len =? 0) &&
                          negb (currentIndex (state ss') =? currentIndex (state (sess a)))
                       then animateSlideIn now else a1
                end in
      Some (mkASession ss' a2, cmd)
  end.

Definition astep_rel (a a' : ASession) : Prop := exists e cmd, astep a e = Some (a', cmd).

Definition areachable (a : ASession) : Prop := rtc astep_rel amount a.

(** The slide-in under way started at [t0], no later than now. *)
Definition anim_inv (a : ASession) : Prop :=
  exists t0, anim a = animateSlideIn t0 /\ t0 <= clock (sess a).

(** Running a sequence of events. *)
Fixpoint arun (a : ASession) (es : list Event) : option ASession :=
  match es with
  | [] => Some a
  | e :: es' => match astep a e with Some (a', _) => arun a' es' | None => None end
  end.
End Animated.

(** ** Lemmas *)

(** The fraction of a timing that has elapsed lies in [0, 1]. *)
Lemma frac_unit k d : k <= d -> d <> 0 -> (0 <= Z.of_nat k # Pos.of_nat d <= 1)%Q.
Proof. intros Hk Hd. unfold Qle. simpl. rewrite Zpos_of_nat by done. lia. Qed.

Lemma frac_lt k d : k < d -> (Z.of_nat k # Pos.of_nat d < 1)%Q.
Proof. intros Hk. unfold Qlt. simpl. rewrite Zpos_of_nat by lia. lia. Qed.

Section Values.
Variable ease : Q -> Q.
Hypothesis ease_range : forall x, (0 <= x <= 1)%Q -> (0 <= ease x <= 1)%Q.

(** The fade-in stays in [0, 1] and is done 450 ms after its start. *)
Lemma opacity_bounds t0 t :
  (0 <= value_at ease (opacityAnim (animateSlideIn t0)) t <= 1)%Q /\
  (t0 + 450 <= t -> value_at ease (opacityAnim (animateSlideIn t0)) t = 1%Q).
Proof.
  unfold value_at. simpl. destruct (Nat.leb_spec t t0); [split; [lra | lia] |].
  destruct (Nat.leb_spec (t0 + 450) t); [split; [lra | done] |].
  split; [| lia]. destruct (ease_range (Z.of_nat (t - t0) # Pos.of_nat 450)); [apply frac_unit; lia |].
  lra.
Qed.

(** The zoom stays between 1 and 1.05 and is done 1400 ms after its start. *)
Lemma scale_bounds t0 t :
  (1 <= value_at ease (scaleAnim (animateSlideIn t0)) t <= 105 # 100)%Q /\
  (t0 + 1400 <= t -> value_at ease (scaleAnim (animateSlideIn t0)) t = 1%Q).
Proof.
  unfold value_at. simpl. destruct (Nat.leb_spec t t0); [split; [lra | lia] |].
  destruct (Nat.leb_spec (t0 + 1400) t); [split; [lra | done] |].
  split; [| lia]. destruct (ease_range (Z.of_nat (t - t0) # Pos.of_nat 1400)); [apply frac_unit; lia |].
  lra.
Qed.
End Values.

Section AnimatedLemmas.
Context (p : Props).
Local Abbreviation slides := (Recap.slides p).
Local Abbreviation len := (List.length slides).

(** An animated step is a step of the session, after which the
    animation is the old one or a slide-in started now. *)
Lemma astep_spec a e a' cmd :
  astep p a e = Some (a', cmd) ->
  step p (sess a) e = Some (sess a', cmd) /\
  (anim a' = anim a \/ anim a' = animateSlideIn (clock (sess a'))).
Proof.
  unfold astep. destruct (step p (sess a) e) as [[ss' c] |]; [| done]. intros [= <- <-]. simpl.
  split; [done |].
  destruct e as [b t |]; [destruct (calls_animate p b (state (sess a))) |];
    destruct c; try (destruct (_ && _)); auto.
Qed.

Lemma areachable_reachable a : areachable p a -> reachable p (sess a).
Proof.
  intros Hr. apply (rtc_congruence (R := astep_rel p) sess (step_rel p) (amount p) a); [| exact Hr].
  intros x y (e & cmd & Hs). exists e, cmd. by apply astep_spec in Hs as [? _].
Qed.

Hypothesis Hne : len <> 0.

Lemma step_clock ss e ss' cmd :
  session_inv p ss -> step p ss e = Some (ss', cmd) -> clock ss <= clock ss'.
Proof.
  intros Hinv Hs. destruct e as [b t |]; simpl in Hs.
  - destruct (press_inv p b t ss ss' cmd Hne Hs) as (_ & Hc & _ & _ & [[_ ->] | [_ ->]]);
      [done |].
    match goal with |- _ <= clock (commit p ?o ?n ?x) =>
      by destruct (commit_spec p o n x) as (_ & -> & _) end.
  - destruct (fire p ss) as [ss1 |] eqn:Hf; simplify_eq/=.
    destruct (fire_inv p ss ss' Hf) as (i & Hi & _ & ->).
    destruct (armed_playing p ss i Hinv Hi) as (_ & _ & _ & _ & _ & Hc).
    match goal with |- _ <= clock (commit p ?o ?n ?x) =>
      by destruct (commit_spec p o n x) as (_ & -> & _) end.
Qed.

Lemma areachable_anim_inv a : areachable p a -> anim_inv a.
Proof.
  intros Hr. cut (reachable p (sess a) /\ anim_inv a); [tauto |].
  revert Hr. apply (rtc_preserved (astep_rel p) (fun a => reachable p (sess a) /\ anim_inv a) (amount p)).
  - intros x y [Hx (t0 & Ht0 & Hle)] (e & cmd & Hs).
    destruct (astep_spec x e y cmd Hs) as [Hst [Ha | Ha]].
    + split; [eapply rtc_r; [exact Hx | by exists e, cmd] |].
      exists t0. rewrite Ha. split; [done |].
      pose proof (step_clock _ _ _ _ (reachable_session_inv p Hne _ Hx) Hst). lia.
    + split; [eapply rtc_r; [exact Hx | by exists e, cmd] |]. by exists (clock (sess y)).
  - split; [apply rtc_refl |]. exists 0. unfold amount. simpl.
    destruct (Nat.eqb_spec len 0); [done |]. split; [done |].
    lia.
Qed.
End AnimatedLemmas.

(** The effect's guard when the index changed on a non-empty recap. *)
Lemma index_changed n i j : n <> 0 -> i <> j -> negb (n =? 0) && negb (i =? j) = true.
Proof. intros Hn Hij. apply andb_true_intro. split; apply negb_true_iff, Nat.eqb_neq; done. Qed.

Lemma arun_reachable p a es a' : arun p a es = Some a' -> rtc (astep_rel p) a a'.
Proof.
  revert a. induction es as [| e es IH]; simpl; intros a H; [by simplify_eq |].
  destruct (astep p a e) as [[a1 c] |] eqn:E; [| done].
  eapply rtc_l; [exists e, c; exact E | by apply IH].
Qed.

(** ** Properties *)

(** C32. On a non-empty recap the image is always in the slide-in the
    screen last started, no later than now: its opacity stays in [0, 1]
    and is 1 from 450 ms after that start on, its zoom stays between 1
    and 1.05 and is 1 from 1400 ms after that start on. *)
Theorem slide_in_bounds p ease a :
  (forall x, 0 <= x <= 1 -> 0 <= ease x <= 1)%Q ->
  List.length (Recap.slides p) <> 0 -> areachable p a ->
  exists t0, t0 <= clock (sess a) /\ anim a = animateSlideIn t0 /\
    forall t,
      (0 <= value_at ease (opacityAnim (anim a)) t <= 1)%Q /\
      (1 <= value_at ease (scaleAnim (anim a)) t <= 105 # 100)%Q /\
      (t0 + 450 <= t -> value_at ease (opacityAnim (anim a)) t = 1%Q) /\
      (t0 + 1400 <= t -> value_at ease (scaleAnim (anim a)) t = 1%Q).
Proof.
  intros Hease Hne Hr. destruct (areachable_anim_inv p Hne a Hr) as (t0 & Ha & Hle).
  exists t0. split; [done |]. split; [done |]. intros t. rewrite Ha.
  destruct (opacity_bounds ease Hease t0 t), (scale_bounds ease Hease t0 t). done.
Qed.

(** C33. A tap on the right zone just before the interval is due does
    not restart the interval, so the slide it brings on screen is
    replaced one millisecond later by the autoplay, while it is still
    fading in. *)
Theorem tap_cuts_slide_in p ease a i :
  (forall x, 0 <= x < 1 -> ease x < 1)%Q ->
  areachable p a -> timer (sess a) = Some i -> clock (sess a) < next_fire i ->
  S (currentIndex (state (sess a))) < List.length (Recap.slides p) - 1 ->
  exists a1 a2,
    astep p a (Press TapZoneRight (next_fire i - 1)) = Some (a1, NoCommand) /\
    astep p a1 Fire = Some (a2, NoCommand) /\
    currentIndex (state (sess a2)) = S (S (currentIndex (state (sess a)))) /\
    clock (sess a2) = S (clock (sess a1)) /\
    (value_at ease (opacityAnim (anim a1)) (clock (sess a2)) < 1)%Q.
Proof.
  intros Hlt Hr Hi Hc Hidx.
  set (idx := currentIndex (state (sess a))) in *.
  assert (Hne : List.length (Recap.slides p) <> 0) by lia.
  pose proof (reachable_session_inv p Hne _ (areachable_reachable p a Hr)) as Hinv.
  pose proof (press_next_playing p Hne (sess a) i (next_fire i - 1) Hinv Hi ltac:(lia) ltac:(lia))
    as Hpress.
  set (ss1 := mkSession (mkPState (S idx) true false false) (Some i) (next_fire i - 1)
                (fresh_id (sess a)) true) in Hpress.
  assert (Hinv1 : session_inv p ss1).
  { apply (step_session_inv p Hne (sess a)); [done |]. by exists (Press TapZoneRight (next_fire i - 1)), NoCommand. }
  pose proof (fire_below_last p Hne ss1 i Hinv1 eq_refl ltac:(simpl; lia)) as Hfire.
  exists (mkASession ss1 (animateSlideIn (next_fire i - 1))).
  eexists. split_and!.
  - unfold astep, step. rewrite Hpress. cbv zeta. cbn [clock state currentIndex].
    rewrite index_changed by lia. reflexivity.
  - unfold astep, step. cbn [sess]. rewrite Hfire. cbv zeta. cbn [option_map clock state currentIndex].
    rewrite index_changed by (simpl; lia). reflexivity.
  - done.
  - simpl. lia.
  - unfold value_at. simpl.
    destruct (Nat.leb_spec (next_fire i) (next_fire i - 1)); [lia |].
    destruct (Nat.leb_spec (next_fire i - 1 + 450) (next_fire i)); [lia |].
    replace (next_fire i - (next_fire i - 1)) with 1 by lia.
    pose proof (Hlt (Z.of_nat 1 # Pos.of_nat 450) (conj (proj1 (frac_unit 1 450 ltac:(lia) ltac:(lia)))
                                                       (frac_lt 1 450 ltac:(lia)))).
    lra.
Qed.

Lemma slide_in_bounds_witness :
  exists a, arun (sample_recap 3) (amount (sample_recap 3)) [Press IntroPlayButton 0; Fire] = Some a /\
    exists t0, t0 <= clock (sess a) /\ anim a = animateSlideIn t0 /\
    forall t,
      (0 <= value_at (fun x => x) (opacityAnim (anim a)) t <= 1)%Q /\
      (1 <= value_at (fun x => x) (scaleAnim (anim a)) t <= 105 # 100)%Q /\
      (t0 + 450 <= t -> value_at (fun x => x) (opacityAnim (anim a)) t = 1%Q) /\
      (t0 + 1400 <= t -> value_at (fun x => x) (scaleAnim (anim a)) t = 1%Q).
Proof.
  eexists. split; [vm_compute; reflexivity |].
  apply (slide_in_bounds (sample_recap 3)); [intros x Hx; exact Hx | simpl; lia |].
  apply (arun_reachable _ _ [Press IntroPlayButton 0; Fire]). vm_compute. reflexivity.
Defined.

Lemma tap_cuts_slide_in_witness :
  exists a i, arun (sample_recap 4) (amount (sample_recap 4)) [Press IntroPlayButton 0] = Some a /\
    timer (sess a) = Some i /\ clock (sess a) < next_fire i /\
    S (currentIndex (state (sess a))) < List.length (Recap.slides (sample_recap 4)) - 1 /\
    exists a1 a2,
      astep (sample_recap 4) a (Press TapZoneRight (next_fire i - 1)) = Some (a1, NoCommand) /\
      astep (sample_recap 4) a1 Fire = Some (a2, NoCommand) /\
      currentIndex (state (sess a2)) = S (S (currentIndex (state (sess a)))) /\
      clock (sess a2) = S (clock (sess a1)) /\
      (value_at (fun x => x) (opacityAnim (anim a1)) (clock (sess a2)) < 1)%Q.
Proof.
  do 2 eexists. split; [vm_compute; reflexivity |]. split; [reflexivity |].
  split; [vm_compute; lia |]. split; [vm_compute; lia |].
  apply tap_cuts_slide_in; [intros x [_ Hx]; exact Hx | | reflexivity | vm_compute; lia | vm_compute; lia].
  apply (arun_reachable _ _ [Press IntroPlayButton 0]). vm_compute. reflexivity.
Defined.

End Anim.
