(* ===== verification/Upload.v ===== *)
(** * The upload screen ([src/upload.tsx], lines 26-218)

    [Module Upload] models [UploadPhotosScreen]: its three pieces of
    state ([caption], [slides], [isLoading], lines 30-32), the photo picker
    handler [pickImages] (lines 34-58) and [handleContinue] (lines 60-104).

    Both handlers are [async].  [pickImages] awaits the permission request
    and the picker, which are modal: it is one step, given their outcomes.
    [handleContinue] awaits [analyzeRecap], during which the user can keep
    typing: it is split at its [await] into [handleContinue] (up to the
    call, which captures [slides] and [caption]) and [continueSettled] (the
    rest, run when the promise settles, with the captured values).  The
    world of the screen adds the captured request while it is in flight.

    [analyzeRecap] lives in [lib/analyzeRecap], outside [src/]: its result
    type is modelled from spec section 4.2.  The route push carries
    [NavPayload], the values of the [params] object before [JSON.stringify]
    (lines 85-93). *)

From S2P Require Import Prelude Player.
From stdpp Require Import strings.
From Stdlib Require Import ZArith.

Module Upload.

Import Player.
#[local] Open Scope nat_scope.

(** [AnalyzeRecapResult] of [lib/analyzeRecap] (spec section 4.2). *)
Record AnalyzeRecapResult := mkAnalysis {
  orderedSlides : option (list Slide);
  a_title : string;
  a_vibeKey : string;
  a_vibeLabel : string;
  a_description : option string;
  a_highlights : option (list Z)
}.

(** How the [analyzeRecap] promise settles. *)
Inductive AnalysisOutcome :=
| Resolved (r : AnalyzeRecapResult)
| Rejected.

(** [requestMediaLibraryPermissionsAsync]'s status, and the picker's
    result: canceled, or the picked assets' uris in order. *)
Inductive PermissionStatus := Granted | NotGranted.
Inductive PickerResult :=
| Canceled
| Assets (uris : list string).

(** The screen's state (lines 30-32). *)
Record UState := mkUState {
  caption : string;
  slides : list Slide;
  isLoading : bool
}.

Definition initial_ustate : UState := mkUState "" [] false.

Definition setCaption (a : SetStateAction string) (s : UState) : UState :=
  mkUState (apply_action a (caption s)) (slides s) (isLoading s).
Definition setSlides (a : SetStateAction (list Slide)) (s : UState) : UState :=
  mkUState (caption s) (apply_action a (slides s)) (isLoading s).
Definition setIsLoading (a : SetStateAction bool) (s : UState) : UState :=
  mkUState (caption s) (slides s) (apply_action a (isLoading s)).

(** The [params] of the route push (lines 85-93), before serialisation. *)
Record NavPayload := mkPayload {
  nav_slides : list Slide;
  nav_caption : string;
  nav_title : string;
  nav_vibeKey : string;
  nav_vibeLabel : string;
  nav_description : option string;
  nav_highlights : list Z
}.

(** What the screen asks of the outside world. *)
Inductive UEffect :=
| Alert (title msg : string)           (** [Alert.alert] *)
| RequestAnalysis (sl : list Slide) (cap : string)   (** [analyzeRecap({slides, caption})] *)
| Push (pl : NavPayload)                (** [router.push] to [/slideshow] *)
| LogError.                             (** [console.error] *)

(** [pickImages] (lines 34-58), given the outcomes of its two awaits. *)
Definition pickImages (st : PermissionStatus) (r : PickerResult) (s : UState)
  : UState * list UEffect :=
  match st with
  | NotGranted =>
      (s, [Alert "Permission needed" "We need access to your photos to make a recap."])
  | Granted =>
      match r with
      | Canceled => (s, [])
      | Assets uris =>
          let newSlides := map mkSlide uris in
          (s |> setSlides (Updater (fun prev => prev ++ newSlides)), [])
      end
  end.

(** [handleContinue] up to its [await] (lines 60-75). *)
Definition handleContinue (s : UState) : UState * list UEffect :=
  if List.length (slides s) =? 0 then
    (s, [Alert "Add at least one photo" "You need at least one photo to create a recap."])
  else
    (s |> setIsLoading (Value true), [RequestAnalysis (slides s) (caption s)]).

(** The slides to play: the service's order when it returned a non-empty
    one, else the selection (lines 78-81). *)
Definition chooseOrder (analysis : AnalyzeRecapResult) (selected : list Slide) : list Slide :=
  match orderedSlides analysis with
  | Some l => if 0 <? List.length l then l else selected
  | None => selected
  end.

(** [handleContinue] after its [await] (lines 77-103), with the [slides]
    and [caption] its closure captured. *)
Definition continueSettled (selected : list Slide) (cap : string) (o : AnalysisOutcome)
  (s : UState) : UState * list UEffect :=
  match o with
  | Resolved a =>
      (s |> setIsLoading (Value false),
       [Push (mkPayload (chooseOrder a selected) cap (a_title a) (a_vibeKey a)
                (a_vibeLabel a) (a_description a)
                (match a_highlights a with Some h => h | None => [] end))])
  | Rejected =>
      (s |> setIsLoading (Value false),
       [LogError; Alert "Error" "Something went wrong while generating your recap vibe."])
  end.

(** The rendered upload screen (lines 106-218): the empty state or the
    thumbnails in selection order, the add button's label and whether it
    is enabled, the continue button's spinner and whether it is enabled. *)
Record UView := mkUView {
  emptyState : bool;
  thumbnails : list string;
  addLabel : string;
  addEnabled : bool;
  continueEnabled : bool;
  spinner : bool
}.

Definition urender (s : UState) : UView :=
  let isEmpty := List.length (slides s) =? 0 in
  mkUView isEmpty (map uri (slides s))
    (if isEmpty then "Add photos" else "Add more photos")
    (negb (isLoading s))
    (negb (isEmpty || isLoading s))
    (isLoading s).

(** The screen's world: its state and the request in flight, with the
    values its closure captured. *)
Record UWorld := mkUWorld {
  ustate : UState;
  inflight : option (list Slide * string)
}.

Definition initial_world : UWorld := mkUWorld initial_ustate None.

(** What the user and the service do. *)
Inductive UEvent :=
| TypeCaption (t : string)                           (** [onChangeText={setCaption}] *)
| PressAdd (st : PermissionStatus) (r : PickerResult) (** add button, [disabled={isLoading}] *)
| PressContinue                                      (** [disabled={isEmpty || isLoading}] *)
| AnalysisSettles (o : AnalysisOutcome).

(** One event; [None] when it cannot happen (a disabled button, or no
    request in flight). *)
Definition ustep (w : UWorld) (e : UEvent) : option (UWorld * list UEffect) :=
  let s := ustate w in
  match e with
  | TypeCaption t => Some (mkUWorld (s |> setCaption (Value t)) (inflight w), [])
  | PressAdd st r =>
      if negb (addEnabled (urender s)) then None
      else let '(s', eff) := pickImages st r s in Some (mkUWorld s' (inflight w), eff)
  | PressContinue =>
      if negb (continueEnabled (urender s)) then None
      else let '(s', eff) := handleContinue s in
           Some (mkUWorld s' (Some (slides s, caption s)), eff)
  | AnalysisSettles o =>
      match inflight w with
      | None => None
      | Some (sel, cap) =>
          let '(s', eff) := continueSettled sel cap o s in Some (mkUWorld s' None, eff)
      end
  end.

(** The invariant of the screen: [isLoading] is set exactly while a
    request is in flight, and a request in flight carries a non-empty
    selection, which is still the screen's selection (nothing can add a
    photo while the add button is disabled). *)
Definition uinv (w : UWorld) : Prop :=
  (isLoading (ustate w) = true <-> is_Some (inflight w)) /\
  (forall sel cap, inflight w = Some (sel, cap) -> sel <> [] /\ slides (ustate w) = sel).

Definition ustep_rel (w w' : UWorld) : Prop := exists e eff, ustep w e = Some (w', eff).

Definition ureachable (w : UWorld) : Prop := rtc ustep_rel initial_world w.

Fixpoint urun (w : UWorld) (es : list UEvent) : option (UWorld * list UEffect) :=
  match es with
  | [] => Some (w, [])
  | e :: es' =>
      match ustep w e with
      | Some (w1, eff1) =>
          match urun w1 es' with
          | Some (w2, eff2) => Some (w2, eff1 ++ eff2)
          | None => None
          end
      | None => None
      end
  end.

(** ** Lemmas *)

Lemma pickImages_loading st r s : isLoading (fst (pickImages st r s)) = isLoading s.
Proof. destruct st, r; done. Qed.

(** The order the slideshow gets: the service's when non-empty. *)
Lemma chooseOrder_spec a sel :
  chooseOrder a sel =
    match orderedSlides a with
    | Some (x :: l) => x :: l
    | _ => sel
    end.
Proof. unfold chooseOrder. destruct (orderedSlides a) as [[| x l] |]; done. Qed.

Lemma chooseOrder_nonempty a sel : sel <> [] -> chooseOrder a sel <> [].
Proof. rewrite chooseOrder_spec. destruct (orderedSlides a) as [[| x l] |]; done. Qed.

Lemma uinv_initial : uinv initial_world.
Proof. split; [split; [done | intros []; done] | done]. Qed.

Lemma ustep_uinv w w' : uinv w -> ustep_rel w w' -> uinv w'.
Proof.
  intros [Hl Hsel] (e & eff & Hs). destruct w as [[c sl ld] inf]; simpl in *.
  destruct e as [t | st r | | o]; simpl in Hs.
  - simplify_eq/=. done.
  - destruct ld; simpl in Hs; [done |].
    assert (inf = None) as ->.
    { destruct inf as [x |]; [| done]. assert (Hf : false = true) by (apply Hl; eauto). done. }
    destruct (pickImages st r (mkUState c sl false)) as [s' e'] eqn:E. simplify_eq/=.
    pose proof (pickImages_loading st r (mkUState c sl false)) as HL. rewrite E in HL.
    simpl in HL. split; simpl; [rewrite HL; done | done].
  - unfold handleContinue in Hs. simpl in Hs.
    destruct (Nat.eqb_spec (List.length sl) 0), ld; simpl in Hs; try done. simplify_eq/=.
    split; simpl; [split; eauto |]. intros sel cap [= <- _]. split; [intros ->; done | done].
  - destruct inf as [[sel cap] |]; [| done]. destruct o; simplify_eq/=;
      (split; [split; [done | intros []; done] | done]).
Qed.

Lemma ureachable_uinv w : ureachable w -> uinv w.
Proof. apply rtc_preserved; [apply ustep_uinv | apply uinv_initial]. Qed.

(** ** Properties *)

(** C18. At most one analysis request is in flight: a request is issued
    only when none is, it carries the selection and caption of the
    moment, and the selection is not empty. *)
Theorem single_request_in_flight w e w' eff sl cap :
  ureachable w -> ustep w e = Some (w', eff) -> RequestAnalysis sl cap ∈ eff ->
  inflight w = None /\ inflight w' = Some (sl, cap) /\
  sl = slides (ustate w) /\ cap = caption (ustate w) /\ sl <> [].
Proof.
  intros Hr Hs Hin. destruct (ureachable_uinv w Hr) as [Hl _].
  destruct w as [[c sel ld] inf]; simpl in *.
  destruct e as [t | st r | | o]; simpl in Hs.
  - simplify_eq/=. set_solver.
  - destruct ld; simpl in Hs; [done |].
    destruct st, r; simplify_eq/=; set_solver.
  - unfold handleContinue in Hs. simpl in Hs.
    destruct (Nat.eqb_spec (List.length sel) 0), ld; simpl in Hs; try done. simplify_eq/=.
    apply list_elem_of_singleton in Hin. simplify_eq.
    split; [destruct inf as [x |]; [| done];
            assert (Hf : false = true) by (apply Hl; eauto); done |].
    repeat split; try done. intros ->. done.
  - destruct inf as [[sel' cap'] |]; [| done]. destruct o; simplify_eq/=; set_solver.
Qed.

(** C19. When the request resolves, the screen pushes the slideshow once,
    with the service's order when it returned a non-empty one and else
    the selection captured when Continue was pressed, the caption captured
    then (not the one typed since), and never an empty slide list. *)
Theorem settle_resolved_push w sel cap a :
  ureachable w -> inflight w = Some (sel, cap) ->
  exists pl, ustep w (AnalysisSettles (Resolved a)) =
               Some (mkUWorld (setIsLoading (Value false) (ustate w)) None, [Push pl]) /\
    nav_slides pl = chooseOrder a sel /\ nav_slides pl <> [] /\ nav_caption pl = cap /\
    nav_highlights pl = match a_highlights a with Some h => h | None => [] end.
Proof.
  intros Hr Hi. destruct (ureachable_uinv w Hr) as [_ Hsel].
  unfold ustep. rewrite Hi. simpl. eexists. split; [reflexivity |]. simpl.
  split; [done |]. split; [apply chooseOrder_nonempty; by destruct (Hsel sel cap Hi) | done].
Qed.

(** C20. When the request fails, the screen logs, alerts and clears the
    loading flag, and does not navigate. *)
Theorem settle_rejected_no_push w sel cap :
  ureachable w -> inflight w = Some (sel, cap) ->
  exists w', ustep w (AnalysisSettles Rejected) =
      Some (w', [LogError; Alert "Error" "Something went wrong while generating your recap vibe."]) /\
    isLoading (ustate w') = false /\ inflight w' = None /\
    slides (ustate w') = slides (ustate w).
Proof.
  intros Hr Hi. unfold ustep. rewrite Hi. simpl. eexists. split; [reflexivity |]. done.
Qed.

(** C21. The selection is append-only: no event removes or reorders a
    selected photo; granted picked assets are appended in order, and a
    refused permission (reported by an alert) or a cancelled picker adds
    nothing. *)
Theorem selection_append_only w e w' eff :
  ustep w e = Some (w', eff) ->
  slides (ustate w') =
    slides (ustate w) ++ match e with
                         | PressAdd Granted (Assets uris) => map mkSlide uris
                         | _ => []
                         end.
Proof.
  destruct w as [[c sl ld] inf]. destruct e as [t | [] [| uris] | | o]; simpl;
    unfold handleContinue; simpl; try (destruct ld); try (destruct (Nat.eqb (List.length sl) 0));
    try (destruct inf as [[? ?] |]; [destruct o |]);
    intros H; simplify_eq/=; rewrite ?app_nil_r; done.
Qed.

(** C22. Continue with no photo alerts and sends no request. *)
Theorem continue_empty_alerts s :
  slides s = [] ->
  handleContinue s =
    (s, [Alert "Add at least one photo" "You need at least one photo to create a recap."]).
Proof. intros H. unfold handleContinue. rewrite H. done. Qed.

Lemma single_request_in_flight_witness :
  let w := mkUWorld (mkUState "trip" [mkSlide "a"] false) None in
  ureachable w /\
  ustep w PressContinue =
    Some (mkUWorld (mkUState "trip" [mkSlide "a"] true) (Some ([mkSlide "a"], "trip"%string)),
          [RequestAnalysis [mkSlide "a"] "trip"]) /\
  inflight w = None.
Proof.
  intros w.
  assert (Hr : ureachable w).
  { apply (rtc_l _ _ (mkUWorld (mkUState "" [mkSlide "a"] false) None)).
    - exists (PressAdd Granted (Assets ["a"%string])), []. reflexivity.
    - apply rtc_once. exists (TypeCaption "trip"), []. reflexivity. }
  split; [exact Hr |]. split; [reflexivity |].
  apply (single_request_in_flight w PressContinue
           (mkUWorld (mkUState "trip" [mkSlide "a"] true) (Some ([mkSlide "a"], "trip"%string)))
           [RequestAnalysis [mkSlide "a"] "trip"] [mkSlide "a"] "trip" Hr);
    [reflexivity | left].
Defined.

Lemma settle_resolved_push_witness :
  let w := mkUWorld (mkUState "trip" [mkSlide "a"] true) (Some ([mkSlide "a"], "trip"%string)) in
  let a := mkAnalysis (Some []) "T" "cozy" "Cozy" None None in
  exists pl, ustep w (AnalysisSettles (Resolved a)) =
               Some (mkUWorld (mkUState "trip" [mkSlide "a"] false) None, [Push pl]) /\
    nav_slides pl = [mkSlide "a"].
Proof.
  intros w a.
  assert (Hr : ureachable w).
  { apply (rtc_l _ _ (mkUWorld (mkUState "" [mkSlide "a"] false) None)).
    - exists (PressAdd Granted (Assets ["a"%string])), []. reflexivity.
    - apply (rtc_l _ _ (mkUWorld (mkUState "trip" [mkSlide "a"] false) None)).
      + exists (TypeCaption "trip"), []. reflexivity.
      + apply rtc_once. exists PressContinue, [RequestAnalysis [mkSlide "a"] "trip"]. reflexivity. }
  destruct (settle_resolved_push w [mkSlide "a"] "trip" a Hr eq_refl) as (pl & H1 & H2 & _).
  exists pl. split; [exact H1 | exact H2].
Defined.

Lemma settle_rejected_no_push_witness :
  let w := mkUWorld (mkUState "trip" [mkSlide "a"] true) (Some ([mkSlide "a"], "trip"%string)) in
  exists w', ustep w (AnalysisSettles Rejected) =
      Some (w', [LogError; Alert "Error" "Something went wrong while generating your recap vibe."]) /\
    inflight w' = None.
Proof.
  intros w.
  assert (Hr : ureachable w).
  { apply (rtc_l _ _ (mkUWorld (mkUState "" [mkSlide "a"] false) None)).
    - exists (PressAdd Granted (Assets ["a"%string])), []. reflexivity.
    - apply (rtc_l _ _ (mkUWorld (mkUState "trip" [mkSlide "a"] false) None)).
      + exists (TypeCaption "trip"), []. reflexivity.
      + apply rtc_once. exists PressContinue, [RequestAnalysis [mkSlide "a"] "trip"]. reflexivity. }
  destruct (settle_rejected_no_push w [mkSlide "a"] "trip" Hr eq_refl) as (w' & H1 & _ & H2 & _).
  eauto.
Defined.

Lemma selection_append_only_witness :
  let w := mkUWorld (mkUState "" [mkSlide "a"] false) None in
  ustep w (PressAdd Granted (Assets ["b"; "c"]%string)) =
    Some (mkUWorld (mkUState "" [mkSlide "a"; mkSlide "b"; mkSlide "c"] false) None, []) /\
  slides (mkUState "" [mkSlide "a"; mkSlide "b"; mkSlide "c"] false) =
    slides (ustate w) ++ map mkSlide ["b"; "c"]%string.
Proof.
  intros w. assert (H : ustep w (PressAdd Granted (Assets ["b"; "c"]%string)) =
    Some (mkUWorld (mkUState "" [mkSlide "a"; mkSlide "b"; mkSlide "c"] false) None, []))
    by reflexivity.
  split; [exact H | exact (selection_append_only w _ _ _ H)].
Defined.

Lemma continue_empty_alerts_witness :
  handleContinue initial_ustate =
    (initial_ustate, [Alert "Add at least one photo" "You need at least one photo to create a recap."]).
Proof. apply continue_empty_alerts. reflexivity. Defined.

End Upload.
