(* ===== verification/Thumbs.v ===== *)
(** * The thumbnail row of the upload screen and its React keys
    ([src/upload.tsx], lines 157-181)

    [Module Thumbs] translates the keys the thumbnail row gives its
    children, [key={slide.uri + idx}]: the uri followed by the index
    printed in decimal.  React needs the keys of siblings to be distinct.
    The theorem: they are whenever no uri ends in a decimal digit (the
    picker's file uris end in an extension); the counterexample: a uri
    that is another one followed by digits can collide. *)

From S2P Require Import Prelude Player Json Upload.
From stdpp Require Import strings list.
From Stdlib Require Import String Ascii DecimalString DecimalNat.

Module Thumbs.

Import Player Json Upload.

(** [String(idx)] of a non-negative integer: its decimal digits. *)
Definition number_to_string (n : nat) : string :=
  NilEmpty.string_of_uint (Nat.to_uint n).

(** [slide.uri + idx] (line 172). *)
Definition thumbKey (idx : nat) (sl : Slide) : string :=
  (uri sl ++ number_to_string idx)%string.

(** The keys of [slides.map((slide, idx) => ...)] (lines 171-179). *)
Definition thumbKeys (s : UState) : list string := imap thumbKey (slides s).

Definition ends_in_digit (u : string) : bool :=
  match last (list_ascii_of_string u) with Some c => is_digit c | None => false end.

(** ** Lemmas *)

Lemma number_to_string_inj m n : number_to_string m = number_to_string n -> m = n.
Proof.
  unfold number_to_string. intros H.
  rewrite <- (DecimalNat.Unsigned.of_to m), <- (DecimalNat.Unsigned.of_to n).
  f_equal. apply (f_equal NilEmpty.uint_of_string) in H.
  rewrite !NilEmpty.usu in H. congruence.
Qed.

Lemma string_of_uint_digits d :
  Forall (fun c => is_digit c = true) (list_ascii_of_string (NilEmpty.string_of_uint d)).
Proof. induction d; simpl; constructor; done. Qed.

Lemma list_ascii_of_string_app s t :
  list_ascii_of_string (s ++ t) = list_ascii_of_string s ++ list_ascii_of_string t.
Proof. induction s as [| c s IH]; simpl; [done | by rewrite IH]. Qed.

Lemma last_app_nonempty {A} (l k : list A) : k <> [] -> last (l ++ k) = last k.
Proof.
  intros Hk. destruct k as [| x k] using rev_ind; [done |].
  by rewrite app_assoc, !last_snoc.
Qed.

(** Characters [x] that begin the decimal digits of a number and end a
    string that does not end in a digit are none. *)
Lemma digits_prefix_nil u x r n :
  match last (u ++ x) with Some c => is_digit c | None => false end = false ->
  list_ascii_of_string (number_to_string n) = x ++ r -> x = [].
Proof.
  intros Hu Hd. destruct (decide (x = [])) as [| Hx]; [done | exfalso].
  rewrite last_app_nonempty in Hu by done.
  pose proof (string_of_uint_digits (Nat.to_uint n)) as Hdig.
  fold (number_to_string n) in Hdig. rewrite Hd, Forall_app in Hdig.
  destruct (last x) eqn:E; [| by apply last_None in E].
  apply last_Some in E as [y ->]. apply proj1, Forall_app in Hdig.
  destruct Hdig as [_ Hdig]. inversion Hdig. congruence.
Qed.

Lemma number_to_string_list_inj m n :
  list_ascii_of_string (number_to_string m) = list_ascii_of_string (number_to_string n) -> m = n.
Proof.
  intros H. apply number_to_string_inj.
  by rewrite <- (string_of_list_ascii_of_string (number_to_string m)), H,
     string_of_list_ascii_of_string.
Qed.

(** Two keys are equal only for equal indices, when neither uri ends in
    a digit: the digits after the uri are the index. *)
Lemma thumbKey_inj i j a b :
  ends_in_digit (uri a) = false -> ends_in_digit (uri b) = false ->
  thumbKey i a = thumbKey j b -> i = j.
Proof.
  unfold thumbKey, ends_in_digit. intros Ha Hb H.
  apply (f_equal list_ascii_of_string) in H. rewrite !list_ascii_of_string_app in H.
  apply app_eq_app in H as (x & [[Hu Hd] | [Hu Hd]]); [rewrite Hu in Ha | rewrite Hu in Hb].
  - pose proof (digits_prefix_nil _ x _ j Ha Hd) as ->.
    apply number_to_string_list_inj. by rewrite Hd.
  - pose proof (digits_prefix_nil _ x _ i Hb Hd) as ->.
    apply number_to_string_list_inj. by rewrite Hd.
Qed.

(** A picked selection whose uris are another uri followed by digits:
    [p1] first and [p] eleventh both get the key [p10]. *)
Lemma thumb_keys_collide :
  ~ NoDup (thumbKeys (mkUState "" ([mkSlide "p1"] ++ replicate 9 (mkSlide "q") ++ [mkSlide "p"]) false)).
Proof.
  intros H. pose proof (proj1 (NoDup_alt _) H 0 10 "p10"%string eq_refl eq_refl). done.
Qed.

(** ** Properties *)

(** C37. The thumbnails of the selection get pairwise distinct React
    keys [slide.uri + idx] whenever no uri ends in a decimal digit, also
    when the same photo is picked twice. *)
Theorem thumb_keys_unique s :
  Forall (fun sl => ends_in_digit (uri sl) = false) (slides s) -> NoDup (thumbKeys s).
Proof.
  intros H. apply NoDup_alt. intros i j k Hi Hj. unfold thumbKeys in Hi, Hj.
  rewrite list_lookup_imap in Hi, Hj.
  destruct (slides s !! i) as [a |] eqn:Ea, (slides s !! j) as [b |] eqn:Eb; simplify_eq/=.
  apply (thumbKey_inj i j a b); [exact (Forall_lookup_1 _ _ _ _ H Ea) | exact (Forall_lookup_1 _ _ _ _ H Eb) | congruence].
Qed.

Lemma thumb_keys_unique_witness :
  let s := mkUState "" [mkSlide "file:///a.jpg"; mkSlide "file:///a.jpg"] false in
  Forall (fun sl => ends_in_digit (uri sl) = false) (slides s) /\ NoDup (thumbKeys s).
Proof.
  intros s. assert (H : Forall (fun sl => ends_in_digit (uri sl) = false) (slides s))
    by (repeat constructor).
  split; [exact H | exact (thumb_keys_unique s H)].
Defined.

End Thumbs.
