(* ===== verification/Layout.v ===== *)
(** * The slide frame's layout and where a touch lands
    ([src/slideshow.tsx], the frame of lines 266-412 and the styles of
    lines 449-555, 661-669 and 731-739)

    [Module Layout] translates the styles that place the layers of the
    slide frame (the two letterbox bars, the container, the top fade, the
    two tap zones, the image, the bottom text overlay and the card
    overlay) and resolves them the way React Native's layout does for
    absolutely positioned views: an offset and a size, or two opposite
    offsets, fix a span; percentages are of the parent.  The wrapper is a
    column whose only in-flow child, the container, has [flex: 1], so the
    container fills the wrapper: both are the frame box [W] x [H].

    A touch is delivered to the topmost view under it: among siblings the
    one with the highest [zIndex], and among equal [zIndex] the one
    rendered last; a view that is not touchable takes the touch without
    handling it (its ancestors here handle none), so it blocks the views
    below it.  [hit] is the result of a touch at [(x, y)] in the frame: a
    tap zone, the card (whose buttons [View.buttons] lists), or nothing.

    Coordinates are rationals; the frame's size, the window height
    ([Dimensions], line 449) and the bottom overlay's content height are
    parameters.  The theorems: [touch_regions] (where a touch lands) and
    [touch_refines_buttons] (the layout agrees with [View.buttons]).

    [Module StyleArray] flattens a style array the way React Native
    does (falsy entries skipped, later entries override); [Progress.v]
    uses it too.  [Module UploadLook] holds the style arrays of the upload screen's two
    buttons ([src/upload.tsx] lines 184 and 195-198) with React Native's
    flattening, and [continue_dimmed_iff_disabled]. *)

From S2P Require Import Prelude Player Recap View Upload.
From stdpp Require Import strings.
From Stdlib Require Import QArith Lqa ZArith.

Module Layout.

Import Player Recap View.
#[local] Open Scope Q_scope.

(** A length of a style: pixels or a percentage of the parent. *)
Inductive Dim :=
| Px (q : Q)
| Pct (q : Q).

(** The positioning part of a style. *)
Record Style := mkStyle {
  absolute : bool;
  top : option Q;
  bottom : option Q;
  left : option Q;
  right : option Q;
  width : option Dim;
  height : option Q;
  zIndex : Z
}.

(** The styles of the frame (lines 496-555, 661-669, 731-739); the
    image's height is [height * 0.55] of the window. *)
Definition slideshowWrapper : Style := mkStyle false None None None None None None 0.

Definition letterboxBarTop : Style := mkStyle true (Some 0) None (Some 0) (Some 0) None (Some 18) 5.

Definition letterboxBarBottom : Style := mkStyle true None (Some 0) (Some 0) (Some 0) None (Some 18) 5.

Definition slideshowContainer : Style := mkStyle false None None None None None None 0.

Definition image (winH : Q) : Style :=
  mkStyle false None None None None (Some (Pct 100)) (Some (winH * (55 # 100))) 0.

Definition tapZoneLeft : Style :=
  mkStyle true (Some 0) (Some 0) (Some 0) None (Some (Pct 30)) None 3.

Definition tapZoneRight : Style :=
  mkStyle true (Some 0) (Some 0) None (Some 0) (Some (Pct 30)) None 3.

Definition overlayBottom : Style := mkStyle true None (Some 16) (Some 16) (Some 16) None None 0.

Definition fullscreenOverlay : Style := mkStyle true (Some 0) (Some 0) (Some 0) (Some 0) None None 4.

Definition topFadeOverlay : Style := mkStyle true (Some 0) None (Some 0) (Some 0) None (Some 80) 1.

(** A box: [x0 <= x < x1], [y0 <= y < y1]. *)
Record Rect := mkRect { x0 : Q; y0 : Q; x1 : Q; y1 : Q }.

Definition dim (d : Dim) (parent : Q) : Q :=
  match d with Px q => q | Pct q => q * parent * (1 # 100) end.

(** The span of a view along one axis: its start offset, end offset and
    size in a parent of length [parent], with [content] the length of
    its content; a view in the flow starts at 0. *)
Definition span (start stop size : option Q) (parent content : Q) : Q * Q :=
  match start, stop, size with
  | Some a, _, Some s => (a, a + s)
  | Some a, Some b, None => (a, parent - b)
  | None, Some b, Some s => (parent - b - s, parent - b)
  | None, Some b, None => (parent - b - content, parent - b)
  | Some a, None, None => (a, a + content)
  | None, None, Some s => (0, s)
  | None, None, None => (0, content)
  end.

Definition rect_of (st : Style) (W H cw ch : Q) : Rect :=
  let '(a, b) := span (left st) (right st) (option_map (fun d => dim d W) (width st)) W cw in
  let '(c, d) := span (top st) (bottom st) (height st) H ch in
  mkRect a c b d.

Definition inside (r : Rect) (x y : Q) : bool :=
  Qle_bool (x0 r) x && negb (Qle_bool (x1 r) x) && Qle_bool (y0 r) y && negb (Qle_bool (y1 r) y).

(** What a view does with a touch. *)
Inductive Role :=
| Plain                      (** takes the touch and handles nothing *)
| Touch (b : Button)         (** a [TouchableOpacity] *)
| Card                       (** the card overlay, holding the card's buttons *)
| Frame.                     (** the container, whose children are hit next *)

(** The topmost of the siblings under a point: a later sibling with an
    equal or higher [zIndex] is above. *)
Fixpoint topmost (ls : list (Rect * Z * Role)) (x y : Q) (best : option (Z * Role))
  : option (Z * Role) :=
  match ls with
  | [] => best
  | (r, z, role) :: t =>
      if inside r x y && (match best with None => true | Some (bz, _) => Z.leb bz z end)
      then topmost t x y (Some (z, role))
      else topmost t x y best
  end.

Inductive Hit := HitNothing | HitButton (b : Button) | HitCard.

Section Frame.
Variables (W H winH obH : Q).

Definition layer (st : Style) (role : Role) (ch : Q) : Rect * Z * Role :=
  (rect_of st W H W ch, zIndex st, role).

(** The wrapper's children (lines 267-272), in render order. *)
Definition wrapper_layers : list (Rect * Z * Role) :=
  [layer letterboxBarTop Plain 0; layer letterboxBarBottom Plain 0;
   (mkRect 0 0 W H, zIndex slideshowContainer, Frame)].

(** The container's children (lines 273-412), in render order; the card
    overlay is rendered when a card is shown. *)
Definition container_layers (card : bool) : list (Rect * Z * Role) :=
  [layer topFadeOverlay Plain 0; layer tapZoneLeft (Touch TapZoneLeft) 0;
   layer (image winH) Plain 0; layer tapZoneRight (Touch TapZoneRight) 0;
   layer overlayBottom Plain obH] ++
  (if card then [layer fullscreenOverlay Card 0] else []).

(** Whether the view shows the intro or the outro card (lines 333 and 364). *)
Definition card_shown (v : MainView) : bool :=
  if introCard v is Some _ then true else if outroCard v is Some _ then true else false.

(** Where a touch at [(x, y)] in the frame of the main view [v] lands. *)
Definition hit (v : MainView) (x y : Q) : Hit :=
  match topmost wrapper_layers x y None with
  | Some (_, Frame) =>
      match topmost (container_layers (card_shown v)) x y None with
      | Some (_, Touch b) => HitButton b
      | Some (_, Card) => HitCard
      | _ => HitNothing
      end
  | _ => HitNothing
  end.
End Frame.

(** ** Lemmas *)

Lemma Qle_bool_false a b : Qle_bool a b = false <-> b < a.
Proof.
  split; intros H.
  - apply Qnot_le_lt. intros Hle. apply Qle_bool_iff in Hle. congruence.
  - destruct (Qle_bool a b) eqn:E; [| done]. apply Qle_bool_iff in E. exfalso. lra.
Qed.

Lemma inside_true r x y :
  inside r x y = true -> x0 r <= x /\ x < x1 r /\ y0 r <= y /\ y < y1 r.
Proof.
  unfold inside. rewrite !andb_true_iff, !negb_true_iff, !Qle_bool_iff, !Qle_bool_false. tauto.
Qed.

Lemma inside_false r x y :
  inside r x y = false -> ~ (x0 r <= x /\ x < x1 r /\ y0 r <= y /\ y < y1 r).
Proof. intros H Hin. destruct Hin as (? & ? & ? & ?).
  unfold inside in H. rewrite !andb_false_iff, !negb_false_iff, !Qle_bool_false, !Qle_bool_iff in H.
  destruct H as [[[H | H] | H] | H]; lra.
Qed.

(** Decide every [inside] of the goal, dropping the cases the arithmetic
    rules out. *)
Ltac decide_inside :=
  repeat match goal with
  | |- context [inside ?r ?x ?y] =>
      let E := fresh "E" in
      destruct (inside r x y) eqn:E;
      [apply inside_true in E | apply inside_false in E]; simpl in E; try (exfalso; lra)
  end.

(** The Q conditions of the goal's [Qle_bool]s, as hypotheses. *)
Ltac case_qle a b :=
  let E := fresh "E" in
  destruct (Qle_bool a b) eqn:E; [apply Qle_bool_iff in E | apply Qle_bool_false in E].

Ltac decide_qle :=
  repeat match goal with |- context [Qle_bool ?a ?b] => case_qle a b end.

Section FrameLemmas.
Variables (W H winH obH : Q).
Hypothesis HW : 0 < W.

(** The letterbox bars take the touches within 18 px of the top and
    bottom edges; elsewhere the container does. *)
Lemma wrapper_topmost x y :
  0 <= x < W -> 0 <= y < H ->
  exists z, topmost (wrapper_layers W H) x y None =
    if Qle_bool 18 y && negb (Qle_bool (H - 18) y) then Some (z, Frame) else Some (z, Plain).
Proof.
  intros Hx Hy. unfold wrapper_layers, layer, rect_of. simpl.
  destruct (Qle_bool 18 y) eqn:E1; [apply Qle_bool_iff in E1 | apply Qle_bool_false in E1];
  destruct (Qle_bool (H - 18) y) eqn:E2; [apply Qle_bool_iff in E2 | apply Qle_bool_false in E2 | apply Qle_bool_iff in E2 | apply Qle_bool_false in E2];
    simpl; decide_inside; eauto.
Qed.

(** A touch in the frame, away from the bars, lands on the card when it is
    shown, else on the tap zone under it, else on nothing. *)
Lemma hit_eq v x y :
  0 <= x < W -> 0 <= y < H ->
  hit W H winH obH v x y =
  if Qle_bool 18 y && negb (Qle_bool (H - 18) y) then
    if card_shown v then HitCard
    else if negb (Qle_bool ((3 # 10) * W) x) then HitButton TapZoneLeft
    else if Qle_bool ((7 # 10) * W) x then HitButton TapZoneRight
    else HitNothing
  else HitNothing.
Proof.
  intros Hx Hy. unfold hit.
  destruct (wrapper_topmost x y Hx Hy) as [z ->].
  destruct (Qle_bool 18 y && negb (Qle_bool (H - 18) y)); [| done].
  unfold container_layers, layer, rect_of.
  destruct (card_shown v); simpl.
  - decide_inside; done.
  - case_qle ((3 # 10) * W) x; case_qle ((7 # 10) * W) x; simpl; decide_inside; done.
Qed.

(** The frame's buttons under a touch: only the tap zones, and only with
    no card shown. *)
Lemma hit_button_inv v x y b :
  0 <= x < W -> 0 <= y < H -> hit W H winH obH v x y = HitButton b ->
  (b = TapZoneLeft \/ b = TapZoneRight) /\ card_shown v = false.
Proof.
  intros Hx Hy. rewrite hit_eq by done.
  destruct (Qle_bool 18 y && negb (Qle_bool (H - 18) y)), (card_shown v),
    (Qle_bool ((3 # 10) * W) x), (Qle_bool ((7 # 10) * W) x); intros [=]; auto.
Qed.

Lemma hit_card_inv v x y :
  0 <= x < W -> 0 <= y < H -> hit W H winH obH v x y = HitCard -> card_shown v = true.
Proof.
  intros Hx Hy. rewrite hit_eq by done.
  destruct (Qle_bool 18 y && negb (Qle_bool (H - 18) y)), (card_shown v),
    (Qle_bool ((3 # 10) * W) x), (Qle_bool ((7 # 10) * W) x); by intros [=].
Qed.

(** The middle row of the frame, between the bars. *)
Lemma mid_row : 36 < H -> Qle_bool 18 (H * (1 # 2)) && negb (Qle_bool (H - 18) (H * (1 # 2))) = true.
Proof.
  intros HH. case_qle 18 (H * (1 # 2)); case_qle (H - 18) (H * (1 # 2)); simpl; try done; exfalso; lra.
Qed.

Lemma hit_tap_exists v b :
  36 < H -> card_shown v = false -> b = TapZoneLeft \/ b = TapZoneRight ->
  exists x y, 0 <= x < W /\ 0 <= y < H /\ hit W H winH obH v x y = HitButton b.
Proof.
  intros HH Hc Hb.
  destruct Hb as [-> | ->]; [exists (W * (1 # 10)) | exists (W * (9 # 10))]; exists (H * (1 # 2));
    (split; [lra | split; [lra |]]); rewrite hit_eq, mid_row, Hc by (done || lra);
    decide_qle; simpl; try done; exfalso; lra.
Qed.

Lemma hit_card_exists v :
  36 < H -> card_shown v = true ->
  exists x y, 0 <= x < W /\ 0 <= y < H /\ hit W H winH obH v x y = HitCard.
Proof.
  intros HH Hc. exists (W * (1 # 2)), (H * (1 # 2)). split; [lra | split; [lra |]].
  rewrite hit_eq, mid_row, Hc by (done || lra). done.
Qed.

End FrameLemmas.

(** [View.buttons] lists the tap zones exactly when no card is shown. *)
Lemma tap_in_buttons v b :
  b = TapZoneLeft \/ b = TapZoneRight ->
  (b ∈ buttons (MainScreen v) <-> card_shown v = false).
Proof.
  unfold buttons, card_shown. rewrite list_elem_of_In.
  destruct (introCard v), (outroCard v); intros [-> | ->]; simpl; firstorder congruence.
Qed.

(** A rendered main view shows a card exactly when the intro or the outro
    card is up. *)
Lemma card_shown_render p s v :
  render p s = Some (MainScreen v) -> card_shown v = showIntro s || showOutro s.
Proof.
  unfold render. destruct (Nat.eqb _ 0), (slideFrame p s); intros [= <-].
  unfold card_shown, introOverlay, outroOverlay; simpl.
  by destruct (showIntro s), (showOutro s).
Qed.

(** ** Properties *)

(** C35. A touch in the slide frame: within 18 px of the top or bottom
    edge it lands on a letterbox bar and does nothing, over the tap zones
    too; elsewhere it lands on the card when a card is shown, else on the
    left tap zone in the left 30% of the width, on the right tap zone in
    the right 30%, and on nothing in between. *)
Theorem touch_regions W H winH obH v x y :
  0 < W -> 0 <= x < W -> 0 <= y < H ->
  ((y < 18 \/ H - 18 <= y) -> hit W H winH obH v x y = HitNothing) /\
  (18 <= y < H - 18 ->
     (card_shown v = true -> hit W H winH obH v x y = HitCard) /\
     (card_shown v = false -> x < (3 # 10) * W -> hit W H winH obH v x y = HitButton TapZoneLeft) /\
     (card_shown v = false -> (7 # 10) * W <= x -> hit W H winH obH v x y = HitButton TapZoneRight) /\
     (card_shown v = false -> (3 # 10) * W <= x < (7 # 10) * W -> hit W H winH obH v x y = HitNothing)).
Proof.
  intros HW Hx Hy. rewrite (hit_eq W H winH obH v x y Hx Hy).
  decide_qle; destruct (card_shown v); simpl;
    repeat split; intros; try done; exfalso; lra.
Qed.

Lemma touch_regions_witness :
  0 < 390 /\ 0 <= 100 < 390 /\ 0 <= 10 < 700 /\
  hit 390 700 844 120 (mkMainView (mkHeader "" "" "") (mkFrame "" "" "" None "") None None 0 "")
    100 10 = HitNothing.
Proof.
  split; [lra | split; [lra | split; [lra |]]].
  apply (proj1 (touch_regions 390 700 844 120
    (mkMainView (mkHeader "" "" "") (mkFrame "" "" "" None "") None None 0 "") 100 10
    ltac:(lra) ltac:(lra) ltac:(lra))).
  left. lra.
Defined.

(** C36. The layout refines the button abstraction of [View]: on a
    rendered main screen, the buttons a touch in the frame can reach are
    exactly the tap zones [View.buttons] offers, and the card is under
    some touch exactly when the intro or outro card is up. *)
Theorem touch_refines_buttons p s v W H winH obH :
  render p s = Some (MainScreen v) -> 0 < W -> 36 < H ->
  (forall b, (exists x y, 0 <= x < W /\ 0 <= y < H /\ hit W H winH obH v x y = HitButton b) <->
             b ∈ buttons (MainScreen v) /\ (b = TapZoneLeft \/ b = TapZoneRight)) /\
  ((exists x y, 0 <= x < W /\ 0 <= y < H /\ hit W H winH obH v x y = HitCard) <->
   showIntro s || showOutro s = true).
Proof.
  intros Hr HW HH. rewrite <- (card_shown_render p s v Hr). split.
  - intros b. split.
    + intros (x & y & Hx & Hy & Hh).
      destruct (hit_button_inv W H winH obH v x y b Hx Hy Hh) as [Hb Hc].
      by rewrite tap_in_buttons.
    + intros [Hin Hb]. apply (tap_in_buttons v b Hb) in Hin.
      by apply hit_tap_exists.
  - split.
    + intros (x & y & Hx & Hy & Hh). exact (hit_card_inv W H winH obH v x y Hx Hy Hh).
    + by apply hit_card_exists.
Qed.

Lemma touch_refines_buttons_witness :
  exists v, render (sample_recap 3) (mkPState 1 true false false) = Some (MainScreen v) /\
    0 < 390 /\ 36 < 700 /\
    ((exists x y, 0 <= x < 390 /\ 0 <= y < 700 /\ hit 390 700 844 120 v x y = HitButton TapZoneRight) <->
      TapZoneRight ∈ buttons (MainScreen v) /\ (TapZoneRight = TapZoneLeft \/ TapZoneRight = TapZoneRight)).
Proof.
  eexists. split; [vm_compute; reflexivity |].
  split; [lra | split; [lra |]].
  apply (touch_refines_buttons (sample_recap 3) (mkPState 1 true false false) _ 390 700 844 120);
    [vm_compute; reflexivity | lra | lra].
Defined.

End Layout.


(** * Style arrays ([style={[a, cond && b, {...}]}])

    The visual and size part of a style and React Native's flattening of
    a style array: falsy entries are skipped and a later entry's
    properties override an earlier one's. *)
Module StyleArray.

#[local] Open Scope Q_scope.

Record Look := mkLook {
  opacity : option Q;
  backgroundColor : option string;
  borderColor : option string;
  lwidth : option Layout.Dim;
  lheight : option Q
}.

Definition pick {A} (a b : option A) : option A :=
  match b with Some x => Some x | None => a end.

Definition override (a b : Look) : Look :=
  mkLook (pick (opacity a) (opacity b)) (pick (backgroundColor a) (backgroundColor b))
    (pick (borderColor a) (borderColor b)) (pick (lwidth a) (lwidth b))
    (pick (lheight a) (lheight b)).

Definition flatten (sts : list (option Look)) : Look :=
  fold_left (fun acc st => match st with Some l => override acc l | None => acc end)
    sts (mkLook None None None None None).

(** The opacity a view is drawn with: 1 unless its style sets one. *)
Definition drawn_opacity (sts : list (option Look)) : Q :=
  match opacity (flatten sts) with Some o => o | None => 1 end.

End StyleArray.

(** * The upload screen's buttons as they look ([src/upload.tsx]) *)
Module UploadLook.

Import Player Upload StyleArray.
#[local] Open Scope Q_scope.

(** [styles.addButton] (lines 313-324), [styles.continueButton] (lines
    333-339) and [styles.continueButtonDisabled] (lines 340-342). *)
Definition addButton : Look := mkLook None (Some "#020617") (Some "#4C1D95") None None.

Definition continueButton : Look := mkLook None (Some "#A855F7") None None None.

Definition continueButtonDisabled : Look := mkLook (Some (1 # 2)) None None None None.

(** The two buttons' style props (lines 184 and 195-198). *)
Definition addStyle (s : UState) : list (option Look) := [Some addButton].

Definition continueStyle (s : UState) : list (option Look) :=
  let isEmpty := (List.length (slides s) =? 0)%nat in
  [Some continueButton; if isEmpty || isLoading s then Some continueButtonDisabled else None].

(** ** Properties *)

(** The Continue button is drawn at half opacity exactly when it is
    disabled (both written [isEmpty || isLoading], lines 197 and 200),
    while the add button is drawn at full opacity in every state, also
    while it is disabled during the analysis. *)
Theorem continue_dimmed_iff_disabled s :
  drawn_opacity (continueStyle s) = (if continueEnabled (urender s) then 1 else 1 # 2) /\
  drawn_opacity (addStyle s) = 1 /\
  addEnabled (urender s) = negb (isLoading s).
Proof.
  unfold drawn_opacity, continueStyle, addStyle, urender; simpl.
  by destruct (length (slides s) =? 0)%nat, (isLoading s).
Qed.

End UploadLook.
