(* ===== verification/Progress.v ===== *)
(** * The progress bar and the footer's share button
    ([src/slideshow.tsx], lines 416-438 and the styles of lines 605-626)

    [Module ProgressBar] translates the progress bar: a track
    ([styles.progressBarTrack], 16 px from each side of the screen's
    container) and its fill, whose style array puts the inline
    [{ width: `${progress * 100}%`, backgroundColor: vibeAccent }] over
    [styles.progressBarFill]; and the footer's share button, whose inline
    [backgroundColor] overrides [styles.shareButton].  The widths are
    resolved with [Layout.dim] and the style arrays flattened with
    [StyleArray.flatten].  The theorem follows the bar through the steps
    of a [Session]: the spec's progress property (section 8) on the bar
    as drawn. *)

From S2P Require Import Prelude Player Recap View Session Layout.
From stdpp Require Import strings.
From Stdlib Require Import QArith Lqa.

Module ProgressBar.

Import Player Recap View Session Layout StyleArray.
#[local] Open Scope Q_scope.

(** [styles.progressBarTrack] (lines 605-612): 4 px high, 16 px
    horizontal margins; [styles.progressBarFill] (lines 613-616). *)
Definition progressBarTrack : Look := mkLook None (Some "#111827") None None (Some 4).

Definition trackMarginHorizontal : Q := 16.

Definition progressBarFill : Look := mkLook None (Some "#A855F7") None None (Some 4).

(** [styles.shareButton] (lines 621-626): no colour of its own. *)
Definition shareButton : Look := mkLook None None None None None.

(** The track's width in the screen's container of width [W]. *)
Definition track_width (W : Q) : Q := W - 2 * trackMarginHorizontal.

(** The fill's style array (lines 418-425). *)
Definition fillStyle (p : Props) (s : PState) : list (option Look) :=
  [Some progressBarFill;
   Some (mkLook None (Some (vibeAccent (vibeKey p))) None
           (Some (Pct (progressBar p s * 100))) None)].

(** The share button's style array (line 432). *)
Definition shareStyle (p : Props) : list (option Look) :=
  [Some shareButton; Some (mkLook None (Some (vibeAccent (vibeKey p))) None None None)].

(** The drawn width of the fill: its [width] of the track, or the whole
    track when no width is set (a column child stretches). *)
Definition fill_width (p : Props) (s : PState) (W : Q) : Q :=
  match lwidth (flatten (fillStyle p s)) with
  | Some d => dim d (track_width W)
  | None => track_width W
  end.

(** The events that move forward: the interval firing and the right tap
    zone. *)
Definition forward (e : Event) : bool :=
  match e with
  | Fire => true
  | Press TapZoneRight _ => true
  | Press _ _ => false
  end.

(** ** Lemmas *)

Lemma fill_width_eq p s W :
  fill_width p s W == progress p (currentIndex s) * track_width W.
Proof. unfold fill_width, fillStyle, progressBar. simpl. unfold dim. ring. Qed.

Section Forward.
Context (p : Props).
Local Abbreviation slides := (Recap.slides p).
Local Abbreviation len := (List.length slides).
Hypothesis Hne : len <> 0%nat.

(** The slide on screen of a reachable session is in range. *)
Lemma reachable_index_ok ss : reachable p ss -> (currentIndex (state ss) < len)%nat.
Proof. intros Hr. exact (proj1 (proj1 (reachable_session_inv p Hne ss Hr))). Qed.

(** A forward event never moves the index back. *)
Lemma forward_index ss e ss' cmd :
  reachable p ss -> step p ss e = Some (ss', cmd) -> forward e = true ->
  (currentIndex (state ss) <= currentIndex (state ss'))%nat.
Proof.
  intros Hr Hstep Hf. pose proof (reachable_index_ok ss Hr) as Hi.
  destruct (step_state p Hne ss e ss' cmd (reachable_session_inv p Hne ss Hr) Hstep)
    as [(-> & _ & ->) | (b & t & -> & _ & ->)].
  - destruct (decide (currentIndex (state ss) = len - 1)%nat).
    + rewrite intervalCallback_at_last by done. simpl. lia.
    + rewrite intervalCallback_below_last by done. simpl. lia.
  - destruct b; try done. simpl.
    destruct (decide (currentIndex (state ss) = len - 1)%nat).
    + rewrite goNext_at_last by done. simpl. lia.
    + rewrite goNext_below_last by lia. simpl. lia.
Qed.
End Forward.

(** On a track of positive width the fill is full exactly at progress 1. *)
Lemma fill_full_iff (q tw : Q) : 0 < tw -> q * tw == tw <-> q == 1.
Proof. intros H. split; intros E; [nra | rewrite E; ring]. Qed.

(** ** Properties *)

(** C15. The progress bar as drawn, along the steps of a slideshow
    (spec section 8): an interval firing or a tap on the right zone
    never shrinks the fill, which stays within the track; the fill covers
    the whole track exactly on the last slide; and it is drawn in the
    vibe's accent, the inline colour overriding the stylesheet's. *)
Theorem progress_fill_forward p ss e ss' cmd W :
  List.length (Recap.slides p) <> 0%nat -> reachable p ss -> step p ss e = Some (ss', cmd) ->
  forward e = true -> 32 < W ->
  (fill_width p (state ss) W <= fill_width p (state ss') W <= track_width W) /\
  (fill_width p (state ss') W == track_width W <->
     currentIndex (state ss') = (List.length (Recap.slides p) - 1)%nat) /\
  backgroundColor (flatten (fillStyle p (state ss'))) = Some (vibeAccent (vibeKey p)).
Proof.
  intros Hne Hr Hstep Hf HW.
  assert (Hr' : reachable p ss') by (eapply rtc_r; [exact Hr | exists e, cmd; exact Hstep]).
  pose proof (reachable_index_ok p Hne ss' Hr') as Hi'.
  assert (Htw : 0 < track_width W) by (unfold track_width, trackMarginHorizontal; lra).
  rewrite !fill_width_eq, fill_full_iff, progress_eq_1_iff by done.
  split_and!; [| | done | done].
  - apply Qmult_le_compat_r; [| lra].
    apply progress_monotone. exact (forward_index p Hne ss e ss' cmd Hr Hstep Hf).
  - pose proof (progress_le_1 p _ Hi'). pose proof (progress_nonneg p (currentIndex (state ss'))). nra.
Qed.

Lemma progress_fill_forward_witness :
  let ss := mkSession (mkPState 0 true false false) (Some (mkInterval 0 2500)) 0 1 true in
  exists ss', step (sample_recap 3) ss Fire = Some (ss', NoCommand) /\
  (fill_width (sample_recap 3) (state ss) 390 <= fill_width (sample_recap 3) (state ss') 390
     <= track_width 390) /\
  (fill_width (sample_recap 3) (state ss') 390 == track_width 390 <->
     currentIndex (state ss') = (List.length (Recap.slides (sample_recap 3)) - 1)%nat) /\
  backgroundColor (flatten (fillStyle (sample_recap 3) (state ss'))) =
    Some (vibeAccent (vibeKey (sample_recap 3))).
Proof.
  intros ss. eexists. split; [vm_compute; reflexivity |].
  apply (progress_fill_forward (sample_recap 3) ss Fire _ NoCommand 390);
    [vm_compute; lia
    | apply (run_reachable _ _ [Press IntroPlayButton 0]); vm_compute; reflexivity
    | vm_compute; reflexivity | reflexivity | lra].
Defined.

End ProgressBar.
