(* ===== verification/Route.v ===== *)
(** * The route parameters from the upload screen to the slideshow
    ([src/upload.tsx] lines 83-94, [src/slideshow.tsx] lines 21-51)

    [Module Route] models the route parameters: [toRouteParams] is the
    [params] object [handleContinue] pushes (upload.tsx, lines 83-94),
    with the slide list and the highlight list serialised by
    [Json.stringify]; [decodeParams] is the top of [SlideshowScreen]
    (slideshow.tsx, lines 21-51), which reads each parameter, falls back
    to its default when it is absent or empty (JS's falsy [""]), and
    parses the two JSON parameters with [Json.parse].  A parameter is an
    [option string]: [None] when the key is absent.  The router carries
    parameter strings unchanged. *)

From S2P Require Import Prelude Json Player Recap Upload.
From stdpp Require Import strings gmap.
From Stdlib Require Import ZArith.

Module Route.

Import Json Player Recap Upload.
#[local] Open Scope string_scope.

(** The search parameters of [/slideshow] (slideshow.tsx, lines 31-40). *)
Record RouteParams := mkParams {
  rp_slides : option string;
  rp_caption : option string;
  rp_title : option string;
  rp_vibeKey : option string;
  rp_vibeLabel : option string;
  rp_emotion : option string;
  rp_description : option string;
  rp_highlights : option string
}.

(** A slide as [JSON.stringify] writes it: the object [{uri}]. *)
Definition slide_to_json (s : Slide) : JValue := JObj [("uri", JStr (uri s))].

(** The pushed [params] (upload.tsx, lines 85-93).  No [emotion] key is
    passed; an [undefined] description leaves its key out. *)
Definition toRouteParams (pl : NavPayload) : RouteParams :=
  mkParams (Some (stringify (JArr (slide_to_json <$> nav_slides pl))))
    (Some (nav_caption pl)) (Some (nav_title pl)) (Some (nav_vibeKey pl))
    (Some (nav_vibeLabel pl)) None (nav_description pl)
    (Some (stringify (JArr (JNum <$> nav_highlights pl)))).

(** A parameter when it is truthy: present and not [""]. *)
Definition truthy (p : option string) : option string :=
  match p with
  | Some s => if String.eqb s "" then None else Some s
  | None => None
  end.

(** [param ? String(param) : dflt] (lines 43-48). *)
Definition param_or (p : option string) (dflt : string) : string :=
  match truthy p with Some s => s | None => dflt end.

(** Why the model stops following the decoding.  [SyntaxError]: the
    text is not in the JSON subset [Json.parse] reads; this covers every
    text [JSON.parse] rejects except a number with leading zeros, and
    also valid JSON outside the subset (numbers with a fraction or an
    exponent, [\u] escapes above 0x7F), which [JSON.parse] accepts.
    [NotSlides], [NotNumbers]: the value parsed is not of the type the
    code declares; JS keeps such a value untyped and throws nothing at
    lines 42-49.  No theorem reads these as errors of the program: the
    app never reaches them (the upload push always decodes). *)
Inductive DecodeError := SyntaxError | NotSlides | NotNumbers.

(** [obj.key] on a parsed object: [JSON.parse] keeps the last of
    duplicate keys. *)
Fixpoint obj_get (k : string) (kvs : list (string * JValue)) : option JValue :=
  match kvs with
  | [] => None
  | (k', v) :: r =>
      match obj_get k r with
      | Some x => Some x
      | None => if String.eqb k k' then Some v else None
      end
  end.

(** The object [JSON.parse] builds from a member list: ECMAScript's
    [InternalizeJSONProperty] creates the properties in text order, a
    later one overwriting an earlier one of the same name. *)
Definition json_object (kvs : list (string * JValue)) : gmap string JValue :=
  fold_left (fun m kv => <[kv.1 := kv.2]> m) kvs ∅.

Definition slide_of_json (j : JValue) : option Slide :=
  match j with
  | JObj kvs => match obj_get "uri" kvs with Some (JStr u) => Some (mkSlide u) | _ => None end
  | _ => None
  end.

Definition slides_of_json (j : JValue) : option (list Slide) :=
  match j with JArr xs => mapM slide_of_json xs | _ => None end.

Definition num_of_json (j : JValue) : option Z :=
  match j with JNum z => Some z | _ => None end.

Definition highlights_of_json (j : JValue) : option (list Z) :=
  match j with JArr xs => mapM num_of_json xs | _ => None end.

(** [param ? JSON.parse(String(param)) : dflt] (lines 42 and 49-51). *)
Definition parse_param {A} (p : option string) (dflt : A) (conv : JValue -> option A)
  (err : DecodeError) : DecodeError + A :=
  match truthy p with
  | None => inr dflt
  | Some s =>
      match parse s with
      | None => inl SyntaxError
      | Some j => match conv j with Some a => inr a | None => inl err end
      end
  end.

(** The screen's values from its parameters (lines 42-51), in the order
    the code computes them: the slides first, the highlights last. *)
Definition decodeParams (rp : RouteParams) : DecodeError + Props :=
  match parse_param (rp_slides rp) [] slides_of_json NotSlides with
  | inl e => inl e
  | inr sl =>
      match parse_param (rp_highlights rp) [] highlights_of_json NotNumbers with
      | inl e => inl e
      | inr hl =>
          inr (mkProps sl (param_or (rp_caption rp) "") (param_or (rp_title rp) "")
                 (param_or (rp_vibeKey rp) "default") (param_or (rp_vibeLabel rp) "")
                 (param_or (rp_emotion rp) "default") (param_or (rp_description rp) "") hl)
      end
  end.

(** ** Lemmas *)

Lemma stringify_truthy v : truthy (Some (stringify v)) = Some (stringify v).
Proof.
  unfold truthy. destruct (stringify_head v) as (c & r & -> & _). done.
Qed.

Lemma parse_param_stringify {A} v (dflt : A) conv err a :
  conv v = Some a -> parse_param (Some (stringify v)) dflt conv err = inr a.
Proof.
  intros H. unfold parse_param. rewrite stringify_truthy, parse_stringify, H. done.
Qed.

Lemma slides_of_json_to l : slides_of_json (JArr (slide_to_json <$> l)) = Some l.
Proof. apply mapM_fmap_Some. intros [u]. done. Qed.

Lemma highlights_of_json_to l : highlights_of_json (JArr (JNum <$> l)) = Some l.
Proof. apply mapM_fmap_Some. done. Qed.

Lemma decode_toRouteParams pl :
  decodeParams (toRouteParams pl) =
    inr (mkProps (nav_slides pl) (param_or (Some (nav_caption pl)) "")
           (param_or (Some (nav_title pl)) "") (param_or (Some (nav_vibeKey pl)) "default")
           (param_or (Some (nav_vibeLabel pl)) "") "default"
           (param_or (nav_description pl) "") (nav_highlights pl)).
Proof.
  unfold decodeParams, toRouteParams.
  cbn [rp_slides rp_caption rp_title rp_vibeKey rp_vibeLabel rp_emotion rp_description rp_highlights].
  rewrite (parse_param_stringify _ _ _ _ _ (slides_of_json_to _)),
    (parse_param_stringify _ _ _ _ _ (highlights_of_json_to _)).
  done.
Qed.

Lemma param_or_some s : param_or (Some s) "" = s.
Proof. unfold param_or, truthy. destruct (String.eqb_spec s ""); done. Qed.

(** What the slideshow a push opens plays: the pushed slides, with no
    emotion. *)
Lemma decode_handoff pl :
  exists p, decodeParams (toRouteParams pl) = inr p /\
    Recap.slides p = nav_slides pl /\ emotion p = "default".
Proof. eexists. rewrite decode_toRouteParams. done. Qed.

Lemma fold_insert_lookup k kvs (m : gmap string JValue) :
  fold_left (fun m kv => <[kv.1 := kv.2]> m) kvs m !! k =
    match obj_get k kvs with Some v => Some v | None => m !! k end.
Proof.
  revert m. induction kvs as [| [k' v] r IH]; intros m; simpl; [done |].
  rewrite IH. destruct (obj_get k r); [done |].
  destruct (String.eqb_spec k k') as [-> | Hne].
  - by rewrite lookup_insert_eq.
  - by rewrite lookup_insert_ne by congruence.
Qed.

(** ** Properties *)

(** C24. The slideshow reads back what the upload screen pushed: the
    slides and the highlights through their JSON text, the caption, title
    and vibe label as they were, the vibe key unless it was empty (then
    ["default"]), the description or [""], and, since no emotion is
    passed, the emotion ["default"]. *)
Theorem handoff_decodes pl :
  decodeParams (toRouteParams pl) =
    inr (mkProps (nav_slides pl) (nav_caption pl) (nav_title pl)
           (if String.eqb (nav_vibeKey pl) "" then "default" else nav_vibeKey pl)
           (nav_vibeLabel pl) "default"
           (match nav_description pl with Some d => d | None => "" end) (nav_highlights pl)).
Proof.
  rewrite decode_toRouteParams, !param_or_some.
  unfold param_or, truthy.
  destruct (String.eqb (nav_vibeKey pl) ""), (nav_description pl) as [d |];
    try destruct (String.eqb_spec d ""); subst; done.
Qed.

(** The property lookup of the model, [obj_get], is the lookup in
    the object [JSON.parse] builds: for every key, the last member of
    that name, or nothing. *)
Theorem obj_get_json_object k kvs : obj_get k kvs = json_object kvs !! k.
Proof.
  unfold json_object. rewrite fold_insert_lookup, lookup_empty.
  by destruct (obj_get k kvs).
Qed.

(** C38. The defaults of the slideshow's parameters (lines 42-51): a
    parameter that is absent or empty is falsy, so with the slides and
    highlights parameters falsy the screen decodes with no slides and no
    highlights without calling [JSON.parse]; and whenever the parameters
    decode, every other falsy parameter takes its neutral default
    (["default"] for the vibe key and the emotion, [""] otherwise). *)
Theorem decode_defaults rp :
  (truthy (rp_slides rp) = None -> truthy (rp_highlights rp) = None ->
     exists p, decodeParams rp = inr p /\ Recap.slides p = [] /\ Recap.highlights p = []) /\
  (forall p, decodeParams rp = inr p ->
     (truthy (rp_caption rp) = None -> Recap.caption p = "") /\
     (truthy (rp_title rp) = None -> Recap.title p = "") /\
     (truthy (rp_vibeKey rp) = None -> Recap.vibeKey p = "default") /\
     (truthy (rp_vibeLabel rp) = None -> Recap.vibeLabel p = "") /\
     (truthy (rp_emotion rp) = None -> Recap.emotion p = "default") /\
     (truthy (rp_description rp) = None -> Recap.description p = "")).
Proof.
  unfold decodeParams, parse_param, param_or. split.
  - intros -> ->. by eexists.
  - intros p. destruct (truthy (rp_slides rp)) as [s |]; [destruct (parse s) as [j |]; [destruct (slides_of_json j) |] |];
      try done; (destruct (truthy (rp_highlights rp)) as [s' |];
      [destruct (parse s') as [j' |]; [destruct (highlights_of_json j') |] |]); try done;
      intros [= <-]; simpl; split_and!; intros ->; done.
Qed.

Lemma decode_defaults_witness :
  exists p, decodeParams (mkParams None (Some "") None None None None None None) = inr p /\
    Recap.slides p = [] /\ Recap.highlights p = [].
Proof.
  apply (proj1 (decode_defaults (mkParams None (Some "") None None None None None None)));
    reflexivity.
Defined.

End Route.
