(* ===== verification/App.v ===== *)
(** * The app: the three screens on expo-router's stack
    ([src/index.tsx], [src/upload.tsx] lines 83-125,
    [src/slideshow.tsx] lines 21-51 and 185-211)

    [Module Nav] composes the three screens on expo-router's stack: the
    home tab pushes a fresh upload screen ([handlePress]); the upload
    screen's events are [Upload.ustep], and a [router.push] among their
    effects mounts a slideshow ([Session.mount]) on the params decoded by
    [Route.decodeParams]; the upload header's back button pops the
    screen, but a request it has in flight keeps running and its
    settlement (an [orphans] entry) still pushes; the slideshow's events
    are [Session.step], and its [router.back()] pops it.  The invariant
    [app_inv] (every slideshow decoded, non-empty, mounted and reachable;
    home only at the bottom) is proved by rule induction on [app_step];
    with it, every reachable state leads back to home (no dead end).
    [Module Home] is the home tab's screen and its [handlePress]. *)

From S2P Require Import Prelude Json Player Recap View Session Upload Route.
From stdpp Require Import strings.
From Stdlib Require Import ZArith.

Module Home.

(** The home tab's screen ([HomeScreen], index.tsx lines 14-41): the
    title and subtitle, the one button, and the three pagination dots,
    the first active. *)
Record HomeView := mkHomeView {
  home_title : string;
  home_subtitle : string;
  primaryLabel : string;
  dots : list bool
}.

Definition home_render : HomeView :=
  mkHomeView "Lumi" "Create beautiful photo recaps in seconds" "Make a Recap"
    [true; false; false].

(** [handlePress] (lines 10-12): [router.push("/upload")]. *)
Inductive HomeEffect := PushUpload.

Definition handlePress : list HomeEffect := [PushUpload].

End Home.

Module Nav.

Import Json Player Recap View Session Upload Route.

(** A screen on the router's stack; [PCrashed] is a slideshow whose
    parameters the model does not follow ([Route.DecodeError]); the app
    never opens one ([app_slideshows_nonempty]). *)
Inductive Page :=
| PHome
| PUpload (w : UWorld)
| PSlideshow (p : Props) (ss : Session)
| PCrashed (e : DecodeError).

(** The app: the stack, top first, and the [handleContinue] calls still
    awaiting [analyzeRecap] whose upload screen has unmounted, with the
    [slides] and [caption] their closures captured. *)
Record App := mkApp {
  stack : list Page;
  orphans : list (list Slide * string)
}.

(** The app opens on the home tab. *)
Definition initial_app : App := mkApp [PHome] [].

Inductive AppEffect :=
| UploadFx (e : UEffect)
| ShareFx (u : option string).

Inductive AppEvent :=
| MakeRecap                                (** index.tsx [handlePress] (lines 10-12) *)
| OnUpload (e : UEvent)                    (** an event of the upload screen on top *)
| UploadBack                               (** upload.tsx [headerLeft] (lines 117-125) *)
| UploadSettles (o : AnalysisOutcome)      (** the mounted upload screen's request settles *)
| OrphanSettles (i : nat) (o : AnalysisOutcome)  (** an unmounted screen's request settles *)
| OnSlideshow (e : Event)                  (** an event of the slideshow on top *)
| CoveredFires (i : nat).                  (** the interval of the slideshow [i + 1]
                                               screens below the top fires: a covered
                                               screen stays mounted *)

(** The screen [router.push] opens on [/slideshow]. *)
Definition slideshow_page (rp : RouteParams) : Page :=
  match decodeParams rp with
  | inr p => PSlideshow p (mount p)
  | inl e => PCrashed e
  end.

(** The [router.push] calls among the effects, in order. *)
Definition push_route (effs : list UEffect) (st : list Page) : list Page :=
  fold_left (fun st e => match e with Push pl => slideshow_page (toRouteParams pl) :: st
                                 | _ => st end) effs st.

(** The request of the mounted upload screen settles, wherever the screen
    is on the stack: its closure updates its state. *)
Fixpoint settle_upload (o : AnalysisOutcome) (st : list Page)
  : option (list Page * list UEffect) :=
  match st with
  | [] => None
  | PUpload w :: r =>
      match ustep w (AnalysisSettles o) with
      | Some (w', eff) => Some (PUpload w' :: r, eff)
      | None => None
      end
  | f :: r =>
      match settle_upload o r with
      | Some (r', eff) => Some (f :: r', eff)
      | None => None
      end
  end.

(** The requests in flight when the upload screen unmounts. *)
Definition orphaned (w : UWorld) : list (list Slide * string) :=
  match inflight w with Some c => [c] | None => [] end.

(** The home tab's [router.push("/upload")] mounts a fresh upload screen. *)
Definition home_effect (st : list Page) (e : Home.HomeEffect) : list Page :=
  match e with Home.PushUpload => PUpload initial_world :: st end.

Definition app_step (a : App) (e : AppEvent) : option (App * list AppEffect) :=
  match e, stack a with
  | MakeRecap, PHome :: _ =>
      Some (mkApp (fold_left home_effect Home.handlePress (stack a)) (orphans a), [])
  | OnUpload ue, PUpload w :: r =>
      match ustep w ue with
      | Some (w', eff) => Some (mkApp (push_route eff (PUpload w' :: r)) (orphans a),
                                UploadFx <$> eff)
      | None => None
      end
  | UploadBack, PUpload w :: r => Some (mkApp r (orphans a ++ orphaned w), [])
  | UploadSettles o, st =>
      match settle_upload o st with
      | Some (st', eff) => Some (mkApp (push_route eff st') (orphans a), UploadFx <$> eff)
      | None => None
      end
  | OrphanSettles i o, st =>
      match orphans a !! i with
      | Some (sel, cap) =>
          (* the state updates of an unmounted screen are dropped *)
          let eff := snd (continueSettled sel cap o initial_ustate) in
          Some (mkApp (push_route eff st) (delete i (orphans a)), UploadFx <$> eff)
      | None => None
      end
  | OnSlideshow se, PSlideshow p ss :: r =>
      match step p ss se with
      | Some (_, RouterBack) => Some (mkApp r (orphans a), [])
      | Some (ss', ShareUri u) => Some (mkApp (PSlideshow p ss' :: r) (orphans a), [ShareFx u])
      | Some (ss', NoCommand) => Some (mkApp (PSlideshow p ss' :: r) (orphans a), [])
      | None => None
      end
  | CoveredFires i, st =>
      match st !! S i with
      | Some (PSlideshow p ss) =>
          match fire p ss with
          | Some ss' => Some (mkApp (<[S i := PSlideshow p ss']> st) (orphans a), [])
          | None => None
          end
      | _ => None
      end
  | _, _ => None
  end.

Definition app_step_rel (a a' : App) : Prop := exists e eff, app_step a e = Some (a', eff).

Definition app_reachable (a : App) : Prop := rtc app_step_rel initial_app a.

Fixpoint app_run (a : App) (es : list AppEvent) : option App :=
  match es with
  | [] => Some a
  | e :: es' => match app_step a e with Some (a', _) => app_run a' es' | None => None end
  end.

(** A sample use of the app: open the upload screen, pick one photo,
    press Continue. *)
Definition demo_upload : list AppEvent :=
  [MakeRecap; OnUpload (PressAdd Granted (Assets ["a.jpg"; "b.jpg"])); OnUpload PressContinue].

(** A sample answer of the analysis service. *)
Definition demo_analysis : AnalyzeRecapResult :=
  mkAnalysis (Some [mkSlide "b.jpg"; mkSlide "a.jpg"]) "Trip" "chill" "Chill" None (Some [1%Z]).

(** The sample use, up to the slideshow opening. *)
Definition demo_settled : list AppEvent := demo_upload ++ [UploadSettles (Resolved demo_analysis)].

(** Leaving the upload screen during the analysis, making a second recap
    and starting it; the first request then resolves and pushes a second
    slideshow over the playing one, which is started too. *)
Definition demo_two_sessions : list AppEvent :=
  demo_upload ++ [UploadBack] ++ demo_settled ++
  [OnSlideshow (Press IntroPlayButton 0); OrphanSettles 0 (Resolved demo_analysis);
   OnSlideshow (Press IntroPlayButton 0)].

(** The screens the app can show: a slideshow of a non-empty recap
    decoded from an upload push, in a state its own events reach, and an
    upload screen in a state its events reach; never a [PCrashed] page. *)
Definition page_ok (f : Page) : Prop :=
  match f with
  | PHome => True
  | PUpload w => ureachable w
  | PSlideshow p ss =>
      Recap.slides p <> [] /\ emotion p = "default" /\ reachable p ss /\ mounted ss = true
  | PCrashed _ => False
  end.

(** The home tab is the bottom of the stack, and only there. *)
Definition home_bottom (st : list Page) : Prop :=
  exists fs, st = fs ++ [PHome] /\ PHome ∉ fs.

Definition app_inv (a : App) : Prop :=
  Forall page_ok (stack a) /\ Forall (fun c => c.1 <> []) (orphans a) /\
  home_bottom (stack a).

(** ** Lemmas *)

Lemma push_route_spec effs st :
  exists new, push_route effs st = new ++ st /\
    Forall (fun f => exists pl, Push pl ∈ effs /\ f = slideshow_page (toRouteParams pl)) new.
Proof.
  revert st. induction effs as [| e effs IH]; intros st; simpl; [by exists [] |].
  destruct (IH (match e with Push pl => slideshow_page (toRouteParams pl) :: st | _ => st end))
    as (new & -> & Hnew).
  assert (Hw : Forall (fun f => exists pl, Push pl ∈ e :: effs /\
                                    f = slideshow_page (toRouteParams pl)) new).
  { eapply Forall_impl; [exact Hnew |]. intros f (pl & ? & ?). exists pl. set_solver. }
  destruct e; try (exists new; done).
  exists (new ++ [slideshow_page (toRouteParams pl)]). rewrite <- app_assoc.
  split; [done |]. apply Forall_app; split; [done |]. constructor; [| done].
  exists pl. set_solver.
Qed.

Lemma slideshow_page_ok pl :
  nav_slides pl <> [] -> page_ok (slideshow_page (toRouteParams pl)).
Proof.
  intros Hne. destruct (decode_handoff pl) as (p & Hd & Hs & He).
  unfold slideshow_page. rewrite Hd. simpl. rewrite Hs.
  split_and!; [done | done | apply rtc_refl | unfold mount; by destruct (timerEffect _ _ _ _)].
Qed.

Lemma settled_push_nonempty sel cap o s pl :
  sel <> [] -> Push pl ∈ (continueSettled sel cap o s).2 -> nav_slides pl <> [].
Proof.
  intros Hne. destruct o; simpl; [| set_solver].
  intros ?%list_elem_of_singleton. simplify_eq/=. by apply chooseOrder_nonempty.
Qed.

Lemma ustep_push_nonempty w e w' eff pl :
  uinv w -> ustep w e = Some (w', eff) -> Push pl ∈ eff -> nav_slides pl <> [].
Proof.
  intros [_ Hsel] Hs Hin. destruct e as [t | st r | | o]; simpl in Hs.
  - simplify_eq/=. set_solver.
  - destruct (negb _); [done |]. destruct st, r; simplify_eq/=; set_solver.
  - destruct (negb _); [done |]. unfold handleContinue in Hs.
    destruct (_ =? 0); simplify_eq/=; set_solver.
  - destruct (inflight w) as [[sel cap] |] eqn:Ei; [| done].
    destruct (continueSettled sel cap o (ustate w)) as [s' eff'] eqn:Ec. simplify_eq/=.
    eapply (settled_push_nonempty sel cap o); [by eapply Hsel | by rewrite Ec].
Qed.

Lemma push_route_inv effs st :
  (forall pl, Push pl ∈ effs -> nav_slides pl <> []) ->
  Forall page_ok st -> home_bottom st ->
  Forall page_ok (push_route effs st) /\ home_bottom (push_route effs st).
Proof.
  intros Hpl Hok (fs & -> & Hh). destruct (push_route_spec effs (fs ++ [PHome])) as (new & -> & Hnew).
  split.
  - apply Forall_app; split; [| done]. eapply Forall_impl; [exact Hnew |].
    intros f (pl & Hin & ->). by apply slideshow_page_ok, Hpl.
  - exists (new ++ fs). rewrite app_assoc. split; [done |].
    rewrite elem_of_app. intros [Hn | ?]; [| done].
    rewrite Forall_forall in Hnew. destruct (Hnew _ Hn) as (pl & _ & Hf).
    unfold slideshow_page in Hf. destruct (decodeParams _); done.
Qed.

Lemma settle_upload_spec o st st' eff :
  settle_upload o st = Some (st', eff) ->
  exists pre w w' post, st = pre ++ PUpload w :: post /\ st' = pre ++ PUpload w' :: post /\
    ustep w (AnalysisSettles o) = Some (w', eff).
Proof.
  revert st'. induction st as [| f r IH]; intros st' H; cbn [settle_upload] in H; [done |].
  destruct f as [| w | p ss | e];
    try (destruct (settle_upload o r) as [[r' eff'] |] eqn:E; [| done]; simplify_eq;
         destruct (IH _ eq_refl) as (pre & w & w' & post & -> & -> & Hs);
         by eexists (_ :: pre), w, w', post).
  destruct (ustep w (AnalysisSettles o)) as [[w' eff'] |] eqn:E; [| done]. simplify_eq.
  by exists [], w, w', r.
Qed.

Lemma insert_at_split {A} (l1 l2 : list A) x y :
  <[length l1 := y]> (l1 ++ x :: l2) = l1 ++ y :: l2.
Proof. rewrite insert_app_r_alt, Nat.sub_diag by lia. done. Qed.

Lemma home_bottom_cons f st : f <> PHome -> home_bottom (f :: st) -> home_bottom st.
Proof.
  intros Hf ([| g fs] & Heq & Hh); simplify_eq/=; first [done | exists fs; set_solver].
Qed.

Lemma home_bottom_replace pre f g post :
  f <> PHome -> g <> PHome -> home_bottom (pre ++ f :: post) -> home_bottom (pre ++ g :: post).
Proof.
  intros Hf Hg (fs & Heq & Hh).
  destruct post as [| x post'] using rev_ind.
  - apply app_inj_tail in Heq as [_ ?]. done.
  - rewrite app_comm_cons, app_assoc in Heq. apply app_inj_tail in Heq as [<- ->].
    exists (pre ++ g :: post'). rewrite app_comm_cons, app_assoc. split; [done |].
    set_solver.
Qed.

Lemma app_inv_initial : app_inv initial_app.
Proof. split; [| split]; simpl; [repeat constructor | constructor | exists []; set_solver]. Qed.

(** An event of the upload screen, wherever it is on the stack, keeps
    the invariant: its pushes open non-empty slideshows. *)
Lemma upload_event_inv pre post w ue w' eff orph :
  ustep w ue = Some (w', eff) ->
  app_inv (mkApp (pre ++ PUpload w :: post) orph) ->
  app_inv (mkApp (push_route eff (pre ++ PUpload w' :: post)) orph).
Proof.
  intros Hs (Hok & Horph & Hh). simpl in *.
  apply Forall_app in Hok as [Hpre Hpost%Forall_cons]. destruct Hpost as [Hw Hpost].
  assert (Hw' : ureachable w') by (eapply rtc_r; [exact Hw | by exists ue, eff]).
  destruct (push_route_inv eff (pre ++ PUpload w' :: post)) as [Hok' Hh'].
  - intros pl. eapply (ustep_push_nonempty w); [by apply ureachable_uinv | exact Hs].
  - apply Forall_app; split; [done | by constructor].
  - by apply (home_bottom_replace pre (PUpload w)).
  - done.
Qed.

Lemma app_step_inv a e a' eff : app_inv a -> app_step a e = Some (a', eff) -> app_inv a'.
Proof.
  intros Hinv Hs. pose proof Hinv as (Hok & Horph & Hh).
  destruct a as [st orph]; simpl in *.
  destruct e as [| ue | | o | i o | se | i]; simpl in Hs.
  - destruct st as [| [] r]; simplify_eq/=.
    destruct Hh as ([| g fs] & Heq & Hn); simplify_eq/=; [| set_solver].
    split; [repeat constructor; apply rtc_refl | split; [done | exists [PUpload initial_world]; set_solver]].
  - destruct st as [| [| w | |] r]; simpl in Hs; try done.
    destruct (ustep w ue) as [[w' eff'] |] eqn:E; simplify_eq/=.
    by apply (upload_event_inv [] r w ue w' eff').
  - destruct st as [| [| w | |] r]; simplify_eq/=.
    apply Forall_cons in Hok as [Hw Hr]. split_and!; [done | | by apply (home_bottom_cons (PUpload w))].
    apply Forall_app; split; [done |]. unfold orphaned.
    destruct (ureachable_uinv w Hw) as [_ Hsel].
    destruct (inflight w) as [[sel cap] |]; constructor; [by eapply Hsel | done].
  - destruct (settle_upload o st) as [[st' eff'] |] eqn:E; simplify_eq/=.
    destruct (settle_upload_spec _ _ _ _ E) as (pre & w & w' & post & -> & -> & Hu).
    by eapply upload_event_inv.
  - destruct (orph !! i) as [[sel cap] |] eqn:E; simplify_eq/=.
    pose proof (Forall_lookup_1 _ _ _ _ Horph E) as Hsel. simpl in Hsel.
    destruct (push_route_inv (continueSettled sel cap o initial_ustate).2 st) as [Hok' Hh'];
      [intros pl; by apply settled_push_nonempty | done | done |].
    split_and!; [done | by apply Forall_delete | done].
  - destruct st as [| [| | p ss |] r]; simpl in Hs; try done.
    destruct (step p ss se) as [[ss' [| | u]] |] eqn:E; simplify_eq/=;
      apply Forall_cons in Hok as [(Hne & Hem & Hss & Hm) Hr].
    all: try (split_and!; [| done | by apply (home_bottom_cons (PSlideshow p ss))]; done).
    all: split_and!; [constructor; [split_and!; [done | done | | ] | done] | done |
                      by apply (home_bottom_replace [] (PSlideshow p ss))].
    all: first [eapply rtc_r; [exact Hss | by eexists _, _]
               | rewrite (step_mounted p ltac:(by destruct (Recap.slides p)) ss se ss' _ E); done].
  - destruct (st !! S i) as [[| | p ss |] |] eqn:E; try done.
    destruct (fire p ss) as [ss' |] eqn:Hf; simplify_eq/=.
    apply list_elem_of_split_length in E as (l1 & l2 & -> & Hl).
    rewrite Hl, insert_at_split.
    apply Forall_app in Hok as [Hl1 [(Hne & Hem & Hss & Hm) Hl2]%Forall_cons].
    split_and!; [| done | by apply (home_bottom_replace l1 (PSlideshow p ss))].
    apply Forall_app; split; [done |]. constructor; [| done].
    split_and!; [done | done | by eapply rtc_r; [exact Hss | apply fire_step] |].
    destruct (fire_inv p ss ss' Hf) as (j & _ & _ & ->).
    match goal with |- mounted (commit p ?o ?n ?x) = _ =>
      by destruct (commit_spec p o n x) as (_ & _ & -> & _) end.
Qed.

Lemma app_reachable_inv a : app_reachable a -> app_inv a.
Proof. apply rtc_preserved; [intros ? ? ? (e & eff & Hs); by eapply app_step_inv |
                             apply app_inv_initial]. Qed.

Lemma app_run_reachable a es a' : app_run a es = Some a' -> rtc app_step_rel a a'.
Proof.
  revert a. induction es as [| e es IH]; simpl; intros a H; [by simplify_eq |].
  destruct (app_step a e) as [[a1 eff] |] eqn:E; [| done].
  eapply rtc_l; [exists e, eff; exact E | by apply IH].
Qed.

(** A freshly mounted slideshow: the intro card, no interval, clock 0. *)
Lemma mount_spec p :
  state (mount p) = initial_state /\ timer (mount p) = None /\ clock (mount p) = 0 /\
  mounted (mount p) = true.
Proof.
  unfold mount, timerEffect, timerArmed. simpl.
  by destruct (List.length (Recap.slides p) =? 0).
Qed.

(** Closing a mounted slideshow of a non-empty recap, in a state its
    events reach, pops it. *)
Lemma close_step p ss r orph t :
  Recap.slides p <> [] -> reachable p ss -> mounted ss = true ->
  clock ss <= t -> not_overdue ss t = true ->
  app_step (mkApp (PSlideshow p ss :: r) orph) (OnSlideshow (Press CloseButton t)) =
    Some (mkApp r orph, []).
Proof.
  intros Hne Hss Hm Hc Hov.
  assert (Hlen : List.length (Recap.slides p) <> 0) by (by destruct (Recap.slides p)).
  unfold app_step, step. cbn [stack orphans].
  rewrite (press_enabled p Hlen ss CloseButton t (reachable_session_inv p Hlen ss Hss) Hm Hc Hov
             eq_refl).
  reflexivity.
Qed.

(** A reachable session can be closed at its current time. *)
Lemma not_overdue_now p ss :
  List.length (Recap.slides p) <> 0 -> reachable p ss -> not_overdue ss (clock ss) = true.
Proof.
  intros Hne Hr. destruct (reachable_session_inv p Hne ss Hr) as [_ [_ Hdue]].
  unfold not_overdue. destruct (timer ss) as [i |] eqn:Hi; [| done].
  apply Nat.leb_le. by destruct (Hdue i eq_refl).
Qed.

(** ** Properties *)

(** C25. The app never shows a slideshow whose parameters fail to decode,
    and every slideshow it shows plays a non-empty recap in a state the
    session's own events reach (so the [Session] theorems apply to it). *)
Theorem app_slideshows_nonempty a :
  app_reachable a ->
  (forall e, PCrashed e ∉ stack a) /\
  (forall p ss, PSlideshow p ss ∈ stack a -> Recap.slides p <> [] /\ reachable p ss).
Proof.
  intros (Hok & _ & _)%app_reachable_inv. rewrite Forall_forall in Hok. split.
  - intros e He. exact (Hok _ He).
  - intros p ss Hin. destruct (Hok _ Hin) as (? & _ & ? & _). done.
Qed.

(** C26. No slideshow the app shows has an emotion pill: the upload
    screen never passes [emotion], so it decodes to ["default"], which
    [prettyEmotion] hides. *)
Theorem app_no_emotion_pill a p ss s fr :
  app_reachable a -> PSlideshow p ss ∈ stack a -> slideFrame p s = Some fr ->
  emotionPill fr = None.
Proof.
  intros (Hok & _ & _)%app_reachable_inv Hin Hf. rewrite Forall_forall in Hok.
  destruct (Hok _ Hin) as (_ & He & _). unfold slideFrame in Hf.
  destruct (Recap.slides p !! currentIndex s); simplify_eq/=. rewrite He. done.
Qed.

(** C27. The home tab stays at the bottom of the stack and appears only
    there: no [router.back()] of the app empties the stack. *)
Theorem app_home_bottom a :
  app_reachable a -> exists pages, stack a = pages ++ [PHome] /\ PHome ∉ pages.
Proof. intros (_ & _ & Hh)%app_reachable_inv. exact Hh. Qed.

(** C28. Leaving the upload screen while its analysis is in flight does
    not cancel it: when the request later resolves, the closure of the
    unmounted screen still calls [router.push], and the slideshow opens
    over the screen the user went back to. *)
Theorem back_during_analysis_pushes a w r sel cap res :
  app_reachable a -> stack a = PUpload w :: r -> inflight w = Some (sel, cap) ->
  exists a', app_step a UploadBack = Some (a', []) /\
    exists a'' eff p, app_step a' (OrphanSettles (length (orphans a)) (Resolved res)) = Some (a'', eff) /\
      stack a'' = PSlideshow p (mount p) :: r /\ Recap.slides p = chooseOrder res sel.
Proof.
  intros Hr Hst Hi. destruct a as [st orph]; simpl in *. subst st.
  eexists. split; [reflexivity |]. simpl. unfold orphaned. rewrite Hi.
  rewrite lookup_app_r, Nat.sub_diag by lia. simpl.
  destruct (decode_handoff (mkPayload (chooseOrder res sel) cap (a_title res) (a_vibeKey res)
             (a_vibeLabel res) (a_description res)
             (match a_highlights res with Some h => h | None => [] end))) as (p & Hd & Hs & _).
  do 3 eexists. split; [reflexivity |]. simpl. unfold slideshow_page. rewrite Hd. eauto.
Qed.

(** C29. The close button of the slideshow on top always works: pressed
    at any time up to the next due firing, it unmounts the slideshow and
    returns to the screen below it (the upload screen, or home when the
    upload screen was left during the analysis). *)
Theorem slideshow_close_pops a p ss r t :
  app_reachable a -> stack a = PSlideshow p ss :: r ->
  clock ss <= t -> not_overdue ss t = true ->
  app_step a (OnSlideshow (Press CloseButton t)) = Some (mkApp r (orphans a), []).
Proof.
  intros (Hok & _ & _)%app_reachable_inv Hst Hc Hov. rewrite Hst in Hok.
  apply Forall_cons in Hok as [(Hne & _ & Hss & Hm) _].
  destruct a as [st orph]; simpl in *; subst st. by apply close_step.
Qed.

Lemma slideshow_close_pops_witness :
  exists a p ss, app_run initial_app demo_settled = Some a /\
    stack a = PSlideshow p ss :: [PUpload (mkUWorld (mkUState "" [mkSlide "a.jpg"; mkSlide "b.jpg"] false) None); PHome] /\
    clock ss <= 700 /\ not_overdue ss 700 = true /\
    app_step a (OnSlideshow (Press CloseButton 700)) =
      Some (mkApp [PUpload (mkUWorld (mkUState "" [mkSlide "a.jpg"; mkSlide "b.jpg"] false) None); PHome]
              (orphans a), []).
Proof.
  do 3 eexists. split; [vm_compute; reflexivity |]. split; [reflexivity |].
  split; [vm_compute; lia |]. split; [vm_compute; reflexivity |].
  eapply slideshow_close_pops; [| reflexivity | vm_compute; lia | vm_compute; reflexivity].
  apply (app_run_reachable _ demo_settled). vm_compute. reflexivity.
Defined.

(** C31. When the request of the mounted upload screen resolves, the
    slideshow opens over it, and closing the slideshow returns to the
    upload screen with its photos still selected, the spinner off and
    Continue enabled again. *)
Theorem close_returns_to_upload a w r res t :
  app_reachable a -> stack a = PUpload w :: r -> is_Some (inflight w) ->
  exists a1 eff p,
    app_step a (UploadSettles (Resolved res)) = Some (a1, eff) /\
    stack a1 = PSlideshow p (mount p) :: PUpload (mkUWorld (setIsLoading (Value false) (ustate w)) None) :: r /\
    app_step a1 (OnSlideshow (Press CloseButton t)) =
      Some (mkApp (PUpload (mkUWorld (setIsLoading (Value false) (ustate w)) None) :: r) (orphans a), []) /\
    slides (setIsLoading (Value false) (ustate w)) = slides (ustate w) /\
    continueEnabled (urender (setIsLoading (Value false) (ustate w))) = true.
Proof.
  intros Hr Hst [[sel cap] Hi]. destruct (app_reachable_inv a Hr) as (Hok & _ & _).
  rewrite Hst in Hok. apply Forall_cons in Hok as [Hw _].
  destruct (proj2 (ureachable_uinv w Hw) sel cap Hi) as [Hne Hsl].
  set (pl := mkPayload (chooseOrder res sel) cap (a_title res) (a_vibeKey res) (a_vibeLabel res)
               (a_description res) (match a_highlights res with Some h => h | None => [] end)).
  destruct (decode_handoff pl) as (p & Hd & Hs & _).
  set (w' := mkUWorld (setIsLoading (Value false) (ustate w)) None).
  assert (Hu : ustep w (AnalysisSettles (Resolved res)) = Some (w', [Push pl]))
    by (unfold ustep; rewrite Hi; reflexivity).
  destruct (mount_spec p) as (_ & Ht & Hc & Hm).
  destruct a as [st orph]; simpl in Hst; subst st.
  exists (mkApp (PSlideshow p (mount p) :: PUpload w' :: r) orph), (UploadFx <$> [Push pl]), p.
  split_and!.
  - unfold app_step. cbn [stack orphans settle_upload]. rewrite Hu.
    unfold push_route. simpl fold_left. unfold slideshow_page. rewrite Hd. reflexivity.
  - done.
  - apply close_step; [rewrite Hs; by apply chooseOrder_nonempty | apply rtc_refl | done
                      | rewrite Hc; lia | unfold not_overdue; by rewrite Ht].
  - done.
  - unfold urender. simpl. rewrite Hsl. by destruct sel.
Qed.

Lemma close_returns_to_upload_witness :
  exists a w, app_run initial_app demo_upload = Some a /\ stack a = PUpload w :: [PHome] /\
    is_Some (inflight w) /\
    exists a1 eff p,
      app_step a (UploadSettles (Resolved demo_analysis)) = Some (a1, eff) /\
      stack a1 = PSlideshow p (mount p) :: PUpload (mkUWorld (setIsLoading (Value false) (ustate w)) None) :: [PHome] /\
      app_step a1 (OnSlideshow (Press CloseButton 900)) =
        Some (mkApp (PUpload (mkUWorld (setIsLoading (Value false) (ustate w)) None) :: [PHome]) (orphans a), []) /\
      slides (setIsLoading (Value false) (ustate w)) = slides (ustate w) /\
      continueEnabled (urender (setIsLoading (Value false) (ustate w))) = true.
Proof.
  do 2 eexists. split; [vm_compute; reflexivity |]. split; [reflexivity |].
  split; [eexists; reflexivity |].
  apply close_returns_to_upload; [| reflexivity | eexists; reflexivity].
  apply (app_run_reachable _ demo_upload). vm_compute. reflexivity.
Defined.

(** C34. The app has no dead end: from every reachable state, going back
    (the upload header's back button) and closing (the slideshow's close
    button) lead back to the home tab alone on the stack. *)
Theorem app_back_home a :
  app_reachable a -> exists es a', app_run a es = Some a' /\ stack a' = [PHome].
Proof.
  remember (length (stack a)) as n eqn:Hn. revert a Hn.
  induction n as [n IH] using lt_wf_ind. intros a Hn Hr.
  destruct (app_reachable_inv a Hr) as (Hok & _ & ([| f fs] & Hst & Hh)).
  { exists [], a. done. }
  destruct a as [st orph]; simpl in *; subst st.
  apply Forall_cons in Hok as [Hf _].
  destruct f as [| w | p ss | e]; [set_solver | | | done].
  - assert (Hs : app_step (mkApp (PUpload w :: fs ++ [PHome]) orph) UploadBack =
                 Some (mkApp (fs ++ [PHome]) (orph ++ orphaned w), [])) by reflexivity.
    destruct (IH (length (fs ++ [PHome])) ltac:(rewrite Hn; simpl; lia) (mkApp (fs ++ [PHome]) (orph ++ orphaned w))
                 eq_refl (rtc_r _ _ _ Hr (ex_intro _ UploadBack (ex_intro _ [] Hs)))) as (es & a' & Hrun & Ha').
    exists (UploadBack :: es), a'. cbn [app_run]. rewrite Hs. done.
  - destruct Hf as (Hne & _ & Hss & Hm).
    assert (Hlen : List.length (Recap.slides p) <> 0) by (by destruct (Recap.slides p)).
    pose proof (close_step p ss (fs ++ [PHome]) orph (clock ss) Hne Hss Hm (le_n _)
                  (not_overdue_now p ss Hlen Hss)) as Hs.
    destruct (IH (length (fs ++ [PHome])) ltac:(rewrite Hn; simpl; lia) (mkApp (fs ++ [PHome]) orph)
                 eq_refl (rtc_r _ _ _ Hr (ex_intro _ (OnSlideshow (Press CloseButton (clock ss))) (ex_intro _ [] Hs)))) as (es & a' & Hrun & Ha').
    exists (OnSlideshow (Press CloseButton (clock ss)) :: es), a'. cbn [app_run]. rewrite Hs. done.
Qed.

(** C23. A covered slideshow keeps playing: in every reachable state the
    armed interval of a slideshow under the top screen still fires and
    advances it by its own callback; and the app reaches a state with two
    slideshows on the stack whose intervals are both armed (a request
    orphaned by going back resolves over a slideshow that is playing), so
    two player sessions run at once. *)
Theorem covered_slideshow_keeps_playing :
  (forall a i p ss, app_reachable a -> stack a !! S i = Some (PSlideshow p ss) ->
     is_Some (timer ss) ->
     exists ss', app_step a (CoveredFires i) =
                   Some (mkApp (<[S i := PSlideshow p ss']> (stack a)) (orphans a), []) /\
                 state ss' = intervalCallback (Recap.slides p) (state ss)) /\
  (exists a p1 ss1 p2 ss2 r, app_run initial_app demo_two_sessions = Some a /\
     stack a = PSlideshow p2 ss2 :: PSlideshow p1 ss1 :: r /\
     is_Some (timer ss1) /\ is_Some (timer ss2)).
Proof.
  split.
  - intros [st orph] i p ss Hr E [j Hj]. simpl in E.
    destruct (app_reachable_inv _ Hr) as [Hok _].
    destruct (Forall_lookup_1 _ _ _ _ Hok E) as (_ & _ & _ & Hm). simpl.
    rewrite E. unfold fire. rewrite Hj, Hm. eexists. split; [reflexivity |].
    match goal with |- state (commit p ?o ?n ?x) = _ =>
      by destruct (commit_spec p o n x) as (-> & _) end.
  - do 6 eexists. split; [vm_compute; reflexivity |].
    split; [reflexivity | split; eexists; reflexivity].
Qed.

Lemma app_back_home_witness :
  exists a, app_run initial_app demo_settled = Some a /\
    exists es a', app_run a es = Some a' /\ stack a' = [PHome].
Proof.
  eexists. split; [vm_compute; reflexivity |].
  apply app_back_home, (app_run_reachable _ demo_settled). vm_compute. reflexivity.
Defined.

Lemma app_slideshows_nonempty_witness :
  exists a, app_run initial_app demo_settled = Some a /\
    (forall e, PCrashed e ∉ stack a) /\
    (forall p ss, PSlideshow p ss ∈ stack a -> Recap.slides p <> [] /\ reachable p ss).
Proof.
  eexists. split; [vm_compute; reflexivity |].
  apply app_slideshows_nonempty, (app_run_reachable _ demo_settled). vm_compute. reflexivity.
Defined.

Lemma app_no_emotion_pill_witness :
  exists a p ss fr,
    app_run initial_app demo_settled = Some a /\ PSlideshow p ss ∈ stack a /\
    slideFrame p (state ss) = Some fr /\ emotionPill fr = None.
Proof.
  do 4 eexists. split; [vm_compute; reflexivity |]. split; [left |].
  split; [vm_compute; reflexivity |].
  eapply (app_no_emotion_pill _ _ _ initial_state); [apply (app_run_reachable _ demo_settled); vm_compute; reflexivity
                              | left | vm_compute; reflexivity].
Defined.

Lemma app_home_bottom_witness :
  exists a, app_run initial_app demo_settled = Some a /\
    exists pages, stack a = pages ++ [PHome] /\ PHome ∉ pages.
Proof.
  eexists. split; [vm_compute; reflexivity |].
  apply app_home_bottom, (app_run_reachable _ demo_settled). vm_compute. reflexivity.
Defined.

Lemma back_during_analysis_pushes_witness :
  exists a w, app_run initial_app demo_upload = Some a /\
    stack a = PUpload w :: [PHome] /\ inflight w = Some ([mkSlide "a.jpg"; mkSlide "b.jpg"], "") /\
    exists a', app_step a UploadBack = Some (a', []) /\
      exists a'' eff p,
        app_step a' (OrphanSettles (length (orphans a)) (Resolved demo_analysis)) = Some (a'', eff) /\
        stack a'' = PSlideshow p (mount p) :: [PHome] /\
        Recap.slides p = chooseOrder demo_analysis [mkSlide "a.jpg"; mkSlide "b.jpg"].
Proof.
  do 2 eexists. split; [vm_compute; reflexivity |]. split; [reflexivity |]. split; [reflexivity |].
  eapply back_during_analysis_pushes; [| reflexivity | reflexivity].
  apply (app_run_reachable _ demo_upload). vm_compute. reflexivity.
Defined.

End Nav.
